(** * ai-dadmode: the download scripts, embedded and verified

    Shallow embedding of the three scripts under [public/downloads]:
    - [obsidian-gmail/imap_ingest_md_only.py]  (module [Ingest]),
    - [daily-briefing/fetch_today_events.py]   (module [Calendar]),
    - [youtube_transcript_extractor.py]        (module [Youtube]).

    Python [str] values are modelled as [string]; a character is a code
    point below 256.  Python dictionaries used as maps are [gmap]s, a
    dictionary whose insertion order matters (the checksum payload) is an
    association list.  Library calls whose result depends on data that is
    not part of the repository (RFC 2047 decoding, the time-zone database,
    the directory scan order) are parameters of the sections below. *)

From Stdlib Require Import ZArith String Ascii List Permutation Sorted.
From stdpp Require Import base option list sorting gmap strings.

Local Open Scope string_scope.

(** ** Python string primitives *)

Module Py.

(** [str.isspace] on one character (code points below 256). *)
Definition isspace (c : ascii) : bool :=
  let n := nat_of_ascii c in
  (((9 <=? n) && (n <=? 13)) || ((28 <=? n) && (n <=? 32))
   || (n =? 133) || (n =? 160))%nat.

Fixpoint lstrip (s : string) : string :=
  match s with
  | "" => ""
  | String c r => if isspace c then lstrip r else s
  end.

Fixpoint rstrip (s : string) : string :=
  match s with
  | "" => ""
  | String c r =>
      match rstrip r with
      | "" => if isspace c then "" else String c ""
      | r' => String c r'
      end
  end.

(** [s.strip()] *)
Definition strip (s : string) : string := rstrip (lstrip s).

(** [str.lower] on one character: ASCII letters and the Latin-1 capitals. *)
Definition lower_char (c : ascii) : ascii :=
  let n := nat_of_ascii c in
  if (((65 <=? n) && (n <=? 90))
      || ((192 <=? n) && (n <=? 222) && negb (n =? 215)))%nat
  then ascii_of_nat (n + 32) else c.

Fixpoint lower (s : string) : string :=
  match s with
  | "" => ""
  | String c r => String (lower_char c) (lower r)
  end.

(** [s.startswith(p)] *)
Fixpoint startswith (p s : string) : bool :=
  match p, s with
  | "", _ => true
  | String a p', String b s' => if ascii_dec a b then startswith p' s' else false
  | String _ _, "" => false
  end.

(** [c in s] for a one-character [c]. *)
Fixpoint contains_char (c : ascii) (s : string) : bool :=
  match s with
  | "" => false
  | String d r => if ascii_dec c d then true else contains_char c r
  end.

(** [s.partition(c)] for a one-character separator: text before the first
    [c], whether [c] was found, text after it. *)
Fixpoint partition (c : ascii) (s : string) : string * bool * string :=
  match s with
  | "" => ("", false, "")
  | String d r =>
      if ascii_dec c d then ("", true, r)
      else let '(a, f, b) := partition c r in (String d a, f, b)
  end.

(** [s.rpartition(c)]: split at the last [c]; when [c] is absent the whole
    string is the third component. *)
Fixpoint rpartition (c : ascii) (s : string) : string * bool * string :=
  match s with
  | "" => ("", false, "")
  | String d r =>
      let '(a, f, b) := rpartition c r in
      if f then (String d a, true, b)
      else if ascii_dec c d then ("", true, r)
      else ("", false, String d b)
  end.

(** [s.split(c)] for a one-character separator. *)
Fixpoint split (c : ascii) (s : string) : list string :=
  match s with
  | "" => [""]
  | String d r =>
      if ascii_dec c d then "" :: split c r
      else match split c r with
           | [] => [String d ""]
           | w :: ws => String d w :: ws
           end
  end.

(** [s[:n]] and [s[n:]] *)
Fixpoint take (n : N) (s : string) : string :=
  match s with
  | "" => ""
  | String c r => if (n =? 0)%N then "" else String c (take (N.pred n) r)
  end.

Fixpoint drop (n : N) (s : string) : string :=
  match s with
  | "" => ""
  | String _ r => if (n =? 0)%N then s else drop (N.pred n) r
  end.

(** [len(s)] *)
Definition len (s : string) : N := N.of_nat (String.length s).

(** [s[-n:]] for a positive [n] *)
Definition last_chars (n : N) (s : string) : string := drop (len s - n) s.

(** [s.strip(chars)] *)
Fixpoint lstrip_chars (chars s : string) : string :=
  match s with
  | "" => ""
  | String c r => if contains_char c chars then lstrip_chars chars r else s
  end.

Fixpoint rstrip_chars (chars s : string) : string :=
  match s with
  | "" => ""
  | String c r =>
      match rstrip_chars chars r with
      | "" => if contains_char c chars then "" else String c ""
      | r' => String c r'
      end
  end.

Definition strip_chars (chars s : string) : string :=
  rstrip_chars chars (lstrip_chars chars s).

(** [s.endswith(p)] *)
Definition endswith (p s : string) : bool :=
  bool_decide (last_chars (len p) s = p) && (len p <=? len s)%N.

(** A regular-expression word character below 256. *)
Definition isword (c : ascii) : bool :=
  let n := nat_of_ascii c in
  (((48 <=? n) && (n <=? 57)) || ((65 <=? n) && (n <=? 90)) || (n =? 95)
   || ((97 <=? n) && (n <=? 122)) || (n =? 170) || (n =? 178) || (n =? 179)
   || (n =? 181) || (n =? 185) || (n =? 186) || ((188 <=? n) && (n <=? 190))
   || ((192 <=? n) && (n <=? 214)) || ((216 <=? n) && (n <=? 246))
   || (248 <=? n))%nat.

Fixpoint filter_chars (keep : ascii -> bool) (s : string) : string :=
  match s with
  | "" => ""
  | String c r => if keep c then String c (filter_chars keep r) else filter_chars keep r
  end.

(** [re.sub(cls+, rep, s)]: every maximal run of characters of the class is
    replaced by one [rep]; [in_run] tells that the run has been replaced. *)
Fixpoint squeeze (cls : ascii -> bool) (rep : ascii) (in_run : bool) (s : string) : string :=
  match s with
  | "" => ""
  | String c r =>
      if cls c then (if in_run then squeeze cls rep true r
                     else String rep (squeeze cls rep true r))
      else String c (squeeze cls rep false r)
  end.

(** [s.replace(a, b)] for one-character [a] and [b]. *)
Fixpoint replace_char (a b : ascii) (s : string) : string :=
  match s with
  | "" => ""
  | String c r => String (if ascii_dec c a then b else c) (replace_char a b r)
  end.

(** The newline character, as a one-character string. *)
Definition NL : string := String (ascii_of_nat 10) "".

(** The truth value of a string, and [x or y] on strings that may be absent. *)
Definition truthy (s : string) : bool := negb (bool_decide (s = "")).

Definition or_str (x : option string) (y : string) : string :=
  match x with
  | Some s => if truthy s then s else y
  | None => y
  end.

(** UTF-8 bytes of a string of code points below 256 ([s.encode()]). *)
Definition utf8 (s : string) : list Z :=
  flat_map (fun c => let n := Z.of_N (N_of_ascii c) in
                     if (n <? 128)%Z then [n]
                     else [Z.lor 192 (Z.shiftr n 6); Z.lor 128 (Z.land n 63)])
           (list_ascii_of_string s).

(** Writing aid for literals: every apostrophe stands for a double quote. *)
Fixpoint dq (s : string) : string :=
  match s with
  | "" => ""
  | String c r => String (if ascii_dec c "'"%char then ascii_of_nat 34 else c) (dq r)
  end.

(** [sep.join(l)] *)
Fixpoint join (sep : string) (l : list string) : string :=
  match l with
  | [] => ""
  | [x] => x
  | x :: r => x ++ sep ++ join sep r
  end.

(** [s.replace(c, rep)] for a one-character [c]. *)
Fixpoint replace_char_by (c : ascii) (rep s : string) : string :=
  match s with
  | "" => ""
  | String d r => (if ascii_dec d c then rep else String d "") ++ replace_char_by c rep r
  end.

(** [s.replace(old, new)] for a non-empty [old]; [skip] counts the
    characters of a replaced occurrence still to pass. *)
Fixpoint replace_sub_from (old new : string) (skip : nat) (s : string) : string :=
  match s with
  | "" => ""
  | String c r =>
      match skip with
      | S k => replace_sub_from old new k r
      | O =>
          if startswith old s then new ++ replace_sub_from old new (String.length old - 1) r
          else String c (replace_sub_from old new 0 r)
      end
  end.

Definition replace_sub (old new s : string) : string := replace_sub_from old new 0 s.

(** Every character of [s] satisfies [P]. *)
Fixpoint chars_in (P : ascii → Prop) (s : string) : Prop :=
  match s with
  | "" => True
  | String c r => P c ∧ chars_in P r
  end.

End Py.

(** ** Label canonicalisation (imap_ingest_md_only.py) *)

Module Labels.

(** The literal [LABEL_ALIASES], in source order. *)
Definition ALIAS_TABLE : list (string * string) :=
  [ ("AI/Ingest", "Save");
    ("ai/ingest", "Save");
    ("To-Embed", "Save");
    ("Slack Thread", "Slack-Thread");
    ("AI/Slack-Thread", "Slack-Thread") ].

Definition LABEL_ALIASES : gmap string string := list_to_map ALIAS_TABLE.

(** [LABEL_ALIASES.get(lbl.strip(), lbl.strip())] *)
Definition canonical_name (lbl : string) : string :=
  default (Py.strip lbl) (LABEL_ALIASES !! Py.strip lbl).

(** The loop of [canonicalize_labels], [out] being the list built so far. *)
Fixpoint canonicalize_loop (out : list string) (labels : list string) : list string :=
  match labels with
  | [] => out
  | lbl :: rest =>
      let l := canonical_name lbl in
      canonicalize_loop (if bool_decide (l ∈ out) then out else out ++ [l]) rest
  end.

Definition canonicalize_labels (labels : list string) : list string :=
  canonicalize_loop [] labels.

(** [any(l in ("Save", "Slack-Thread") for l in labels)] *)
Definition wants_processing (labels : list string) : bool :=
  existsb (fun l => bool_decide (l = "Save") || bool_decide (l = "Slack-Thread")) labels.

Definition infer_doc_type (labels : list string) : string :=
  if bool_decide ("Slack-Thread" ∈ labels) then "slack" else "email".

(** What the specification calls deduplication preserving first-seen order:
    every name is kept at its first occurrence and dropped afterwards. *)
Fixpoint first_seen (l : list string) : list string :=
  match l with
  | [] => []
  | x :: r => x :: filter (fun y => y ≠ x) (first_seen r)
  end.

End Labels.

(** ** SHA-256 ([hashlib.sha256]), on 32-bit words held in [Z] *)

Module Sha256.
Local Open Scope Z_scope.

Definition add32 (a b : Z) : Z := (a + b) mod 2^32.
Definition rotr (n x : Z) : Z :=
  Z.lor (Z.shiftr x n) (Z.shiftl x (32 - n)) mod 2^32.
Definition not32 (x : Z) : Z := Z.lxor x 0xffffffff.

Definition Ch (x y z : Z) : Z := Z.lxor (Z.land x y) (Z.land (not32 x) z).
Definition Maj (x y z : Z) : Z :=
  Z.lxor (Z.lxor (Z.land x y) (Z.land x z)) (Z.land y z).
Definition Sigma0 (x : Z) : Z := Z.lxor (Z.lxor (rotr 2 x) (rotr 13 x)) (rotr 22 x).
Definition Sigma1 (x : Z) : Z := Z.lxor (Z.lxor (rotr 6 x) (rotr 11 x)) (rotr 25 x).
Definition sigma0 (x : Z) : Z := Z.lxor (Z.lxor (rotr 7 x) (rotr 18 x)) (Z.shiftr x 3).
Definition sigma1 (x : Z) : Z := Z.lxor (Z.lxor (rotr 17 x) (rotr 19 x)) (Z.shiftr x 10).

(** The constants of FIPS 180-4, from their definition: the first 32 bits
    of the fractional parts of the cube roots (for [K]) and of the square
    roots (for [H0]) of the first primes. *)
Definition is_prime (n : Z) : bool :=
  forallb (fun d => negb (n mod d =? 0)) (map Z.of_nat (seq 2 (Z.to_nat (Z.sqrt n) - 1))).

Definition primes : list Z := filter (fun n => is_prime n = true) (map Z.of_nat (seq 2 310)).

(** The integer cube root, bit by bit from bit [bits - 1] down. *)
Fixpoint cube_root (bits : nat) (n r : Z) : Z :=
  match bits with
  | O => r
  | S b =>
      let r' := r + 2 ^ Z.of_nat b in
      cube_root b n (if r' * r' * r' <=? n then r' else r)
  end.

Definition K : list Z :=
  Eval vm_compute in map (fun p => cube_root 40 (p * 2 ^ 96) 0 mod 2 ^ 32) primes.

Definition H0 : list Z :=
  Eval vm_compute in map (fun p => Z.sqrt (p * 2 ^ 64) mod 2 ^ 32) (firstn 8 primes).

(** Padding: a 1 bit, zeros up to 56 mod 64 bytes, the bit length on 64 bits. *)
Definition be_bytes (n : nat) (x : Z) : list Z :=
  map (fun i => Z.shiftr x (8 * Z.of_nat i) mod 256) (rev (seq 0 n)).

Definition pad (msg : list Z) : list Z :=
  let len := Z.of_nat (length msg) in
  (msg ++ [0x80] ++ repeat 0 (Z.to_nat ((55 - len) mod 64)) ++ be_bytes 8 (8 * len))%list.

Fixpoint words (fuel : nat) (bs : list Z) : list Z :=
  match fuel, bs with
  | S f, a :: b :: c :: d :: r =>
      (Z.shiftl a 24 + Z.shiftl b 16 + Z.shiftl c 8 + d) :: words f r
  | _, _ => []
  end.

Fixpoint blocks (fuel : nat) (ws : list Z) : list (list Z) :=
  match fuel, ws with
  | S f, _ :: _ => firstn 16 ws :: blocks f (skipn 16 ws)
  | _, _ => []
  end.

(** The message schedule, most recent word first. *)
Fixpoint extend (n : nat) (w : list Z) : list Z :=
  match n with
  | O => w
  | S n' =>
      let x := add32 (add32 (sigma1 (nth 1 w 0)) (nth 6 w 0))
                     (add32 (sigma0 (nth 14 w 0)) (nth 15 w 0)) in
      extend n' (x :: w)
  end.

Definition schedule (block : list Z) : list Z := rev (extend 48 (rev block)).

Definition round (st : list Z) (kw : Z * Z) : list Z :=
  match st with
  | [a; b; c; d; e; f; g; h] =>
      let t1 := add32 (add32 (add32 h (Sigma1 e)) (add32 (Ch e f g) (fst kw))) (snd kw) in
      let t2 := add32 (Sigma0 a) (Maj a b c) in
      [add32 t1 t2; a; b; c; add32 d t1; e; f; g]
  | _ => st
  end.

Definition compress (st : list Z) (block : list Z) : list Z :=
  let st' := fold_left round (combine K (schedule block)) st in
  map (fun p => add32 (fst p) (snd p)) (combine st st').

Definition digest_words (msg : list Z) : list Z :=
  let p := pad msg in
  fold_left compress (blocks (length p) (words (length p) p)) H0.

Definition hex_digit (d : Z) : ascii :=
  if d <? 10 then ascii_of_N (Z.to_N (48 + d)) else ascii_of_N (Z.to_N (87 + d)).

Fixpoint hex_of (n : nat) (x : Z) : string :=
  match n with
  | O => ""
  | S n' => String (hex_digit (Z.shiftr x (4 * Z.of_nat n') mod 16)) (hex_of n' x)
  end.

Fixpoint concat_strings (l : list string) : string :=
  match l with
  | [] => ""
  | x :: r => x ++ concat_strings r
  end.

(** [hashlib.sha256(data).hexdigest()] *)
Definition hexdigest (msg : list Z) : string :=
  concat_strings (map (hex_of 8) (digest_words msg)).

End Sha256.

(** ** [json.dumps(payload, sort_keys=True)] and [checksum_for] *)

Module Json.

(** The values the ingester serialises.  A dictionary keeps its items in
    insertion order, as a Python [dict] does. *)
Inductive json : Type :=
  | JNull
  | JInt (z : Z)
  | JStr (s : string)
  | JList (l : list json)
  | JDict (d : list (string * json)).

(** The double-quote character, as a one-character string. *)
Definition DQ : string := String (ascii_of_nat 34) EmptyString.

(** Decimal digits of a natural number, most significant first. *)
Fixpoint digits (fuel : nat) (n : N) (acc : string) : string :=
  match fuel with
  | O => acc
  | S f =>
      let acc' := String (ascii_of_N (48 + n mod 10)) acc in
      if (n / 10 =? 0)%N then acc' else digits f (n / 10) acc'
  end.

(** [str(z)] for an integer. *)
Definition str_of_Z (z : Z) : string :=
  let n := Z.abs_N z in
  let d := digits (S (N.to_nat (N.size n))) n "" in
  if (z <? 0)%Z then String "-" d else d.

(** One character of [json.encoder.py_encode_basestring_ascii]: printable
    ASCII is kept, quote and backslash are escaped, everything else becomes
    a short escape or a four-digit [\u] escape. *)
Definition escape_char (c : ascii) : string :=
  let n := Z.of_N (N_of_ascii c) in
  if (n =? 34)%Z then "\" ++ DQ
  else if (n =? 92)%Z then "\\"
  else if (n =? 10)%Z then "\n"
  else if (n =? 13)%Z then "\r"
  else if (n =? 9)%Z then "\t"
  else if (n =? 8)%Z then "\b"
  else if (n =? 12)%Z then "\f"
  else if ((32 <=? n) && (n <=? 126))%Z then String c ""
  else "\u" ++ Sha256.hex_of 4 n.

Fixpoint escape (s : string) : string :=
  match s with
  | "" => ""
  | String c r => escape_char c ++ escape r
  end.

Definition quote (s : string) : string := DQ ++ escape s ++ DQ.

(** Items are ordered by key, code point by code point ([sorted] on the
    items of a dictionary, whose keys are pairwise distinct). *)
Definition key_le (a b : string * string) : Prop := String.le (fst a) (fst b).

#[global] Instance key_le_dec : RelDecision key_le.
Proof. intros a b. unfold key_le. apply _. Defined.

Definition sort_items (items : list (string * string)) : list (string * string) :=
  merge_sort key_le items.

Definition render_item (kv : string * string) : string :=
  quote (fst kv) ++ ": " ++ snd kv.

(** [json.dumps(v, sort_keys=b)].  The values of a dictionary are rendered
    first; with [sort_keys] the rendered items are then sorted by key, which
    yields the same text as sorting the items first. *)
Fixpoint dumps (sort_keys : bool) (v : json) : string :=
  match v with
  | JNull => "null"
  | JInt z => str_of_Z z
  | JStr s => quote s
  | JList l => "[" ++ Py.join ", " (map (dumps sort_keys) l) ++ "]"
  | JDict d =>
      let items :=
        (fix items (d : list (string * json)) :=
           match d with
           | [] => []
           | (k, x) :: r => (k, dumps sort_keys x) :: items r
           end) d in
      "{" ++ Py.join ", " (map render_item (if sort_keys then sort_items items else items))
          ++ "}"
  end.

(** [checksum_for(payload)] *)
Definition checksum_for (payload : list (string * json)) : string :=
  "sha256:" ++ Sha256.hexdigest (Py.utf8 (dumps true (JDict payload))).

End Json.

(** ** [datetime.datetime] values *)

Module Datetime.
Local Open Scope Z_scope.

(** A [datetime]: civil fields and, for an aware value, the UTC offset of
    its [tzinfo] in seconds; [None] is a naive value. *)
Record datetime : Type := mkdt {
  year : Z; month : Z; day : Z;
  hour : Z; minute : Z; second : Z; microsecond : Z;
  tzoffset : option Z
}.

#[global] Instance datetime_eq_dec : EqDecision datetime.
Proof. solve_decision. Defined.

(** [d.replace(tzinfo=timezone.utc)] *)
Definition replace_tz_utc (d : datetime) : datetime :=
  mkdt (year d) (month d) (day d) (hour d) (minute d) (second d) (microsecond d) (Some 0).

(** Zero-padded decimal of a non-negative number ([%02d], [%04d], [%06d]). *)
Fixpoint zpad (width : nat) (n : Z) : string :=
  match width with
  | O => ""
  | S w => String (ascii_of_N (Z.to_N (48 + (n / 10 ^ Z.of_nat w) mod 10))) (zpad w n)
  end.

(** The offset suffix of [isoformat]: sign, hours and minutes, and seconds
    when the offset is not a whole number of minutes. *)
Definition iso_offset (off : Z) : string :=
  let a := Z.abs off in
  (if off <? 0 then "-" else "+")
  ++ zpad 2 (a / 3600) ++ ":" ++ zpad 2 (a / 60 mod 60)
  ++ (if a mod 60 =? 0 then "" else ":" ++ zpad 2 (a mod 60)).

Definition iso_date (d : datetime) : string :=
  zpad 4 (year d) ++ "-" ++ zpad 2 (month d) ++ "-" ++ zpad 2 (day d).

Definition iso_time (d : datetime) : string :=
  zpad 2 (hour d) ++ ":" ++ zpad 2 (minute d) ++ ":" ++ zpad 2 (second d).

(** [d.isoformat()] *)
Definition isoformat (d : datetime) : string :=
  iso_date d ++ "T" ++ iso_time d
  ++ (if microsecond d =? 0 then "" else "." ++ zpad 6 (microsecond d))
  ++ match tzoffset d with None => "" | Some off => iso_offset off end.

(** Days from 1970-01-01 to a date of the proleptic Gregorian calendar. *)
Definition days_from_civil (y m d : Z) : Z :=
  let y' := if m <=? 2 then y - 1 else y in
  let era := y' / 400 in
  let yoe := y' - era * 400 in
  let doy := (153 * (if m <=? 2 then m + 9 else m - 3) + 2) / 5 + d - 1 in
  let doe := yoe * 365 + yoe / 4 - yoe / 100 + doy in
  era * 146097 + doe - 719468.

(** The instant of an aware value, in microseconds since the epoch; a naive
    value is read with the offset [naive_off]. *)
Definition instant (naive_off : Z) (d : datetime) : Z :=
  (days_from_civil (year d) (month d) (day d) * 86400
   + hour d * 3600 + minute d * 60 + second d
   - default naive_off (tzoffset d)) * 1000000 + microsecond d.

(** The date of a day count (inverse of [days_from_civil]). *)
Definition civil_from_days (z : Z) : Z * Z * Z :=
  let z := z + 719468 in
  let era := z / 146097 in
  let doe := z - era * 146097 in
  let yoe := (doe - doe / 1460 + doe / 36524 - doe / 146096) / 365 in
  let doy := doe - (365 * yoe + yoe / 4 - yoe / 100) in
  let mp := (5 * doy + 2) / 153 in
  let d := doy - (153 * mp + 2) / 5 + 1 in
  let m := if mp <? 10 then mp + 3 else mp - 9 in
  (if m <=? 2 then yoe + era * 400 + 1 else yoe + era * 400, m, d).

(** The aware value showing instant [t] (microseconds) at offset [off]. *)
Definition at_offset (off : Z) (t : Z) : datetime :=
  let secs := t / 1000000 + off in
  let '(y, m, d) := civil_from_days (secs / 86400) in
  let sod := secs mod 86400 in
  mkdt y m d (sod / 3600) (sod / 60 mod 60) (sod mod 60) (t mod 1000000) (Some off).

(** [d.astimezone()] on a host whose zone is the fixed offset [off]; a
    naive value is read as local time. *)
Definition astimezone_fixed (off : Z) (d : datetime) : datetime :=
  at_offset off (instant off d).

(** [a > b] on two aware values. *)
Definition gt (a b : datetime) : bool := instant 0 b <? instant 0 a.

(** *** A reader for the ISO texts of the examples

    [YYYY-MM-DDTHH:MM:SS], optionally followed by six digits of fraction
    and by an offset [+HH:MM] or [-HH:MM]; anything else is refused, as
    are fields out of range. *)

Definition digit_of (c : ascii) : option Z :=
  let n := Z.of_N (N_of_ascii c) in
  if (48 <=? n) && (n <=? 57) then Some (n - 48) else None.

Fixpoint read_digits (n : nat) (acc : Z) (s : string) : option (Z * string) :=
  match n with
  | O => Some (acc, s)
  | S n' =>
      match s with
      | String c r =>
          match digit_of c with
          | Some d => read_digits n' (acc * 10 + d) r
          | None => None
          end
      | EmptyString => None
      end
  end.

Definition expect (c : ascii) (s : string) : option string :=
  match s with
  | String d r => if ascii_dec c d then Some r else None
  | EmptyString => None
  end.

Definition is_leap (y : Z) : bool :=
  ((y mod 4 =? 0) && negb (y mod 100 =? 0)) || (y mod 400 =? 0).

Definition days_in_month (y m : Z) : Z :=
  if m =? 2 then (if is_leap y then 29 else 28)
  else if (m =? 4) || (m =? 6) || (m =? 9) || (m =? 11) then 30 else 31.

Definition valid_date (y m d : Z) : bool :=
  (1 <=? y) && (1 <=? m) && (m <=? 12) && (1 <=? d) && (d <=? days_in_month y m).

Definition read_date (s : string) : option (Z * Z * Z * string) :=
  '(y, s) ← read_digits 4 0 s;
  s ← expect "-" s;
  '(m, s) ← read_digits 2 0 s;
  s ← expect "-" s;
  '(d, s) ← read_digits 2 0 s;
  if valid_date y m d then Some (y, m, d, s) else None.

Definition read_offset (s : string) : option (option Z) :=
  match s with
  | EmptyString => Some None
  | String c r =>
      sign ← (if ascii_dec c "+" then Some 1
              else if ascii_dec c "-" then Some (-1) else None);
      '(h, r) ← read_digits 2 0 r;
      r ← expect ":" r;
      '(m, r) ← read_digits 2 0 r;
      match r with
      | EmptyString => if (h <? 24) && (m <? 60) then Some (Some (sign * (h * 3600 + m * 60)))
                       else None
      | _ => None
      end
  end.

Definition read_isoformat (s : string) : option datetime :=
  '(y, m, d, s) ← read_date s;
  s ← expect "T" s;
  '(hh, s) ← read_digits 2 0 s;
  s ← expect ":" s;
  '(mm, s) ← read_digits 2 0 s;
  s ← expect ":" s;
  '(ss, s) ← read_digits 2 0 s;
  '(us, s) ← match s with
             | String "." r => read_digits 6 0 r
             | _ => Some (0, s)
             end;
  off ← read_offset s;
  if (hh <? 24) && (mm <? 60) && (ss <? 60) then Some (mkdt y m d hh mm ss us off) else None.

Definition read_ymd (s : string) : option datetime :=
  '(y, m, d, s) ← read_date s;
  match s with
  | EmptyString => Some (mkdt y m d 0 0 0 0 None)
  | _ => None
  end.

(** The range of [datetime]: 0001-01-01T00:00:00 to
    9999-12-31T23:59:59.999999. *)
Definition min_instant : Z := instant 0 (mkdt 1 1 1 0 0 0 0 (Some 0)).
Definition max_instant : Z := instant 0 (mkdt 9999 12 31 23 59 59 999999 (Some 0)).

(** [d.astimezone(timezone.utc)] on an aware value: [None] when the result
    is out of range ([OverflowError]). *)
Definition to_utc (d : datetime) : option datetime :=
  let t := instant 0 d in
  if (min_instant <=? t) && (t <=? max_instant) then Some (at_offset 0 t) else None.

(** The date of a day of a 400-year era, as [civil_from_days] computes
    it, and the day of a date, as [days_from_civil] does. *)
Definition era_date (doe : Z) : Z * Z * Z :=
  let yoe := (doe - doe / 1460 + doe / 36524 - doe / 146096) / 365 in
  let doy := doe - (365 * yoe + yoe / 4 - yoe / 100) in
  let mp := (5 * doy + 2) / 153 in
  (yoe, (if mp <? 10 then mp + 3 else mp - 9), doy - (153 * mp + 2) / 5 + 1).

Definition era_day (yoe m d : Z) : Z :=
  yoe * 365 + yoe / 4 - yoe / 100 + ((153 * (if m <=? 2 then m + 9 else m - 3) + 2) / 5 + d - 1).

Definition era_date_ok (doe : Z) : bool :=
  let '(yoe, m, d) := era_date doe in
  (0 <=? yoe) && (yoe <=? 399) && (era_day yoe m d =? doe)
  && (1 <=? m) && (m <=? 12) && (1 <=? d) && (d <=? 31).

(** [p] holds from [lo] up to [lo + 2 ^ n], by halving. *)
Fixpoint all_below (n : nat) (p : Z → bool) (lo : Z) : bool :=
  match n with
  | O => p lo
  | S n => all_below n p lo && all_below n p (lo + 2 ^ Z.of_nat n)
  end.

(** [d.astimezone()] on a host whose zone is the fixed offset [off]
    (a value without an offset is read as local time): [None] when the
    local time is out of the range of [datetime]. *)
Definition astimezone_local (off : Z) (d : datetime) : option datetime :=
  let t := instant off d in
  if (min_instant <=? t + off * 1000000) && (t + off * 1000000 <=? max_instant)
  then Some (at_offset off t) else None.

End Datetime.

(** ** MD5 ([hashlib.md5]) *)

Module Md5.
Local Open Scope Z_scope.

Definition rotl (n x : Z) : Z :=
  Z.lor (Z.shiftl x n) (Z.shiftr x (32 - n)) mod 2^32.

Definition K : list Z :=
  [ 0xd76aa478; 0xe8c7b756; 0x242070db; 0xc1bdceee; 0xf57c0faf; 0x4787c62a;
    0xa8304613; 0xfd469501; 0x698098d8; 0x8b44f7af; 0xffff5bb1; 0x895cd7be;
    0x6b901122; 0xfd987193; 0xa679438e; 0x49b40821; 0xf61e2562; 0xc040b340;
    0x265e5a51; 0xe9b6c7aa; 0xd62f105d; 0x02441453; 0xd8a1e681; 0xe7d3fbc8;
    0x21e1cde6; 0xc33707d6; 0xf4d50d87; 0x455a14ed; 0xa9e3e905; 0xfcefa3f8;
    0x676f02d9; 0x8d2a4c8a; 0xfffa3942; 0x8771f681; 0x6d9d6122; 0xfde5380c;
    0xa4beea44; 0x4bdecfa9; 0xf6bb4b60; 0xbebfbc70; 0x289b7ec6; 0xeaa127fa;
    0xd4ef3085; 0x04881d05; 0xd9d4d039; 0xe6db99e5; 0x1fa27cf8; 0xc4ac5665;
    0xf4292244; 0x432aff97; 0xab9423a7; 0xfc93a039; 0x655b59c3; 0x8f0ccc92;
    0xffeff47d; 0x85845dd1; 0x6fa87e4f; 0xfe2ce6e0; 0xa3014314; 0x4e0811a1;
    0xf7537e82; 0xbd3af235; 0x2ad7d2bb; 0xeb86d391 ].

Definition S : list Z :=
  [ 7; 12; 17; 22; 7; 12; 17; 22; 7; 12; 17; 22; 7; 12; 17; 22;
    5; 9; 14; 20; 5; 9; 14; 20; 5; 9; 14; 20; 5; 9; 14; 20;
    4; 11; 16; 23; 4; 11; 16; 23; 4; 11; 16; 23; 4; 11; 16; 23;
    6; 10; 15; 21; 6; 10; 15; 21; 6; 10; 15; 21; 6; 10; 15; 21 ].

Definition A0 : list Z := [ 0x67452301; 0xefcdab89; 0x98badcfe; 0x10325476 ].

Definition le_bytes (n : nat) (x : Z) : list Z :=
  map (fun i => Z.shiftr x (8 * Z.of_nat i) mod 256) (seq 0 n).

Definition pad (msg : list Z) : list Z :=
  let len := Z.of_nat (length msg) in
  (msg ++ [0x80] ++ repeat 0 (Z.to_nat ((55 - len) mod 64)) ++ le_bytes 8 (8 * len))%list.

Fixpoint words (fuel : nat) (bs : list Z) : list Z :=
  match fuel, bs with
  | Datatypes.S f, a :: b :: c :: d :: r =>
      (a + Z.shiftl b 8 + Z.shiftl c 16 + Z.shiftl d 24) :: words f r
  | _, _ => []
  end.

Definition step (block : list Z) (st : list Z) (i : nat) : list Z :=
  match st with
  | [a; b; c; d] =>
      let iz := Z.of_nat i in
      let '(f, g) :=
        if iz <? 16 then (Z.lor (Z.land b c) (Z.land (Sha256.not32 b) d), iz)
        else if iz <? 32 then (Z.lor (Z.land d b) (Z.land (Sha256.not32 d) c), (5 * iz + 1) mod 16)
        else if iz <? 48 then (Z.lxor (Z.lxor b c) d, (3 * iz + 5) mod 16)
        else (Z.lxor c (Z.lor b (Sha256.not32 d)), (7 * iz) mod 16) in
      let f' := Sha256.add32 (Sha256.add32 f a)
                  (Sha256.add32 (nth i K 0) (nth (Z.to_nat g) block 0)) in
      [d; Sha256.add32 b (rotl (nth i S 0) f'); b; c]
  | _ => st
  end.

Definition compress (st : list Z) (block : list Z) : list Z :=
  let st' := fold_left (step block) (seq 0 64) st in
  map (fun p => Sha256.add32 (fst p) (snd p)) (combine st st').

Definition digest_bytes (msg : list Z) : list Z :=
  let p := pad msg in
  flat_map (le_bytes 4)
    (fold_left compress (Sha256.blocks (length p) (words (length p) p)) A0).

(** [hashlib.md5(data).hexdigest()] *)
Definition hexdigest (msg : list Z) : string :=
  Sha256.concat_strings (map (Sha256.hex_of 2) (digest_bytes msg)).

End Md5.

(** ** The regular expressions of the scripts ([re.search] with [re.M])

    A pattern is a sequence of pieces; repetition is greedy and backtracks,
    as in [re].  The pieces are those the scripts use: a literal, a
    repeated character class, an optional character, a captured run of a
    class, and the end of a line. *)

Module Re.

Inductive piece : Type :=
  | Lit (s : string)
  | Star (cls : ascii -> bool)
  | Opt (c : ascii)
  | Capture (cls : ascii -> bool)
  | Eol.

Section Matcher.
Context {A : Type}.

(** [cls*] followed by [k], longest run first. *)
Fixpoint star (cls : ascii -> bool) (k : string -> option A) (s : string) : option A :=
  match s with
  | String c r =>
      if cls c then
        match star cls k r with
        | Some x => Some x
        | None => k s
        end
      else k s
  | "" => k ""
  end.

(** [(cls+)] followed by [k], longest run first; [acc] is the text
    captured so far. *)
Fixpoint plus (cls : ascii -> bool) (k : string -> string -> option A)
    (acc : string) (s : string) : option A :=
  match s with
  | String c r =>
      if cls c then
        let acc' := acc ++ String c "" in
        match plus cls k acc' r with
        | Some x => Some x
        | None => k acc' r
        end
      else None
  | "" => None
  end.

End Matcher.

(** Matches the pieces at the start of [s]; the result is the text of the
    last capture. *)
Fixpoint match_here (ps : list piece) (cap : string) (s : string) : option string :=
  match ps with
  | [] => Some cap
  | Lit l :: ps' =>
      if Py.startswith l s then match_here ps' cap (Py.drop (Py.len l) s) else None
  | Star cls :: ps' => star cls (match_here ps' cap) s
  | Opt c :: ps' =>
      match s with
      | String d r =>
          if ascii_dec c d then
            match match_here ps' cap r with
            | Some x => Some x
            | None => match_here ps' cap s
            end
          else match_here ps' cap s
      | "" => match_here ps' cap s
      end
  | Capture cls :: ps' => plus cls (fun g r => match_here ps' g r) "" s
  | Eol :: ps' =>
      match s with
      | "" => match_here ps' cap s
      | String d _ => if ascii_dec d (ascii_of_nat 10) then match_here ps' cap s else None
      end
  end.

(** [re.search("^" + ps, s, re.M)]: the first line start where the pieces
    match. *)
Fixpoint search_lines (ps : list piece) (at_line_start : bool) (s : string) : option string :=
  let here := if at_line_start then match_here ps "" s else None in
  match here with
  | Some g => Some g
  | None =>
      match s with
      | "" => None
      | String c r => search_lines ps (bool_decide (c = ascii_of_nat 10)) r
      end
  end.

Definition search (ps : list piece) (s : string) : option string :=
  search_lines ps true s.

Definition ishex (c : ascii) : bool :=
  let n := nat_of_ascii c in
  (((48 <=? n) && (n <=? 57)) || ((97 <=? n) && (n <=? 102)))%nat.

Definition isdigit (c : ascii) : bool :=
  let n := nat_of_ascii c in ((48 <=? n) && (n <=? 57))%nat.

End Re.

(** ** The mail ingester (imap_ingest_md_only.py) *)

Module Ingest.
Import Datetime Json Labels.

Definition EMAILS_DIR : string := "Emails".

(** *** Library and host

    The standard library's mail parsing, the host's time zone and the order
    in which the host lists a directory are not part of the repository; the
    ingester is a function of them. *)

Inductive parse_result : Type :=
  | ParseRaises
  | Parsed (d : datetime).

(** What a call that can raise gives: the class of the exception, or
    the value. *)
Inductive attempt (A : Type) : Type :=
  | Throws (exc : string)
  | Gives (x : A).
#[global] Arguments Throws {A} exc.
#[global] Arguments Gives {A} x.

Definition attempt_map {A B : Type} (f : A -> B) (x : attempt A) : attempt B :=
  match x with
  | Throws e => Throws e
  | Gives v => Gives (f v)
  end.

Record platform : Type := {
  (** [email.header.decode_header(s)] with its parts decoded and joined;
      [None] when it raises *)
  decode_header_join : string -> option string;
  (** [email.utils.getaddresses([s])] *)
  getaddresses : string -> list (string * string);
  (** [email.utils.parsedate_to_datetime(s)] *)
  parsedate_to_datetime : string -> parse_result;
  (** [d.astimezone()], the conversion to the host's local time zone,
      which raises [OverflowError] or [ValueError] when the local time is
      out of the range of [datetime] *)
  astimezone : datetime -> attempt datetime;
  (** [dir.rglob("*.md")] over the stored files, in the host's order (empty
      when [dir] does not exist) *)
  rglob_md : gmap string string -> string -> list string
}.

(** The parsed message, as far as the ingester reads it: the header values
    [msg.get] returns and what [body_from_email(msg)] gives, the text it
    extracts or the exception it raises. *)
Record message : Type := {
  h_subject : option string;
  h_from : option string;
  h_to : option string;
  h_cc : option string;
  h_date : option string;
  h_message_id : option string;
  body_text : attempt string
}.

Section WithLibrary.
Variable L : platform.

Definition decode_words (s : string) : string :=
  if Py.truthy s then default s (decode_header_join L s) else "".

Definition parse_addr_list (hdr_val : string) : list (string * string) :=
  if Py.truthy hdr_val then
    map (fun na => (Py.strip_chars DQ (decode_words (fst na)), snd na))
        (getaddresses L hdr_val)
  else [].

(** The datetime [parsedate_to_iso] formats.  [now] is the reading of
    [datetime.now(timezone.utc)] made by this call. *)
Definition parsedate_to_dt (hdr_date : option string) (fallback_dt : option datetime)
    (now : datetime) : attempt datetime :=
  let parsed :=
    match hdr_date with
    | Some h => if Py.truthy h then Some (parsedate_to_datetime L h) else None
    | None => None
    end in
  match parsed with
  | Some ParseRaises => astimezone L (default now fallback_dt)
  | Some (Parsed d) =>
      Gives (match tzoffset d with None => replace_tz_utc d | Some _ => d end)
  | None => Gives (default now fallback_dt)
  end.

Definition parsedate_to_iso (hdr_date : option string) (fallback_dt : option datetime)
    (now : datetime) : attempt string :=
  attempt_map isoformat (parsedate_to_dt hdr_date fallback_dt now).

(** [slugify(text)].  Replacing every run of two or more hyphens by one
    hyphen is replacing every run of hyphens by one hyphen. *)
Definition slugify (text : string) : string :=
  let s := Py.lower (if Py.truthy text then text else "email") in
  let s := Py.filter_chars
             (fun c => Py.isword c || Py.isspace c || bool_decide (c = "-"%char)) s in
  let s := Py.strip_chars "-" (Py.squeeze Py.isspace "-" false s) in
  let s := Py.squeeze (fun c => bool_decide (c = "-"%char)) "-" false s in
  Py.take 80 (if Py.truthy s then s else "email").

(** The identifier of the message: [None] stands for an absent or zero
    (false) [gm_msgid]. *)
Definition truthy_id (x : option Z) : option Z :=
  match x with
  | Some z => if (z =? 0)%Z then None else Some z
  | None => None
  end.

Definition id_or_empty (x : option Z) : string :=
  match truthy_id x with Some z => str_of_Z z | None => "" end.

Definition path_join (a b : string) : string :=
  if Py.endswith "/" a then a ++ b else a ++ "/" ++ b.

Definition addr_json (na : string * string) : json :=
  JDict [("name", JStr (fst na)); ("email", JStr (snd na))].

Definition opt_int_json (x : option Z) : json :=
  match x with Some z => JInt z | None => JNull end.

(** [(msg.get("Message-Id") or msg.get("Message-ID") or "").strip().strip("<>")] *)
Definition message_id_of (msg : message) : string :=
  Py.strip_chars "<>" (Py.strip (Py.or_str (h_message_id msg) "")).

Record meta : Type := {
  path_abs : string;
  m_checksum : string;
  m_doc_type : string;
  m_message_id : string;
  m_x_gm_msgid : option string
}.

(** The dictionary hashed by [build_markdown], in insertion order, given
    the date and the body computed before. *)
Definition payload_for_checksum (msg : message) (gm_labels : list string)
    (gm_msgid gm_thrid : option Z) (date_iso body_md : string)
    : list (string * json) :=
  let subject := decode_words (Py.or_str (h_subject msg) "(no subject)") in
  let canon_labels := canonicalize_labels gm_labels in
  [ ("subject", JStr subject);
    ("from", JList (map addr_json (parse_addr_list (decode_words (Py.or_str (h_from msg) "")))));
    ("to", JList (map addr_json (parse_addr_list (decode_words (Py.or_str (h_to msg) "")))));
    ("cc", JList (map addr_json (parse_addr_list (decode_words (Py.or_str (h_cc msg) "")))));
    ("date", JStr date_iso);
    ("labels", JList (map JStr canon_labels));
    ("body", JStr (Py.take 200000 body_md));
    ("doc_type", JStr (infer_doc_type canon_labels));
    ("gm_msgid", opt_int_json gm_msgid);
    ("gm_thrid", opt_int_json gm_thrid);
    ("message_id", JStr (message_id_of msg)) ].

(** What [build_markdown] computes once the date, the body and the local
    date are there: the default path, the document text and the
    metadata.  [now_ingested] is the clock read for the [ingested_at]
    line. *)
Definition render (vault_root : string) (msg : message)
    (gm_labels : list string) (gm_msgid gm_thrid : option Z)
    (date_iso body_md : string) (d_local now_ingested : datetime)
    : string * string * meta :=
  let subject := decode_words (Py.or_str (h_subject msg) "(no subject)") in
  let message_id := message_id_of msg in
  let from_list := parse_addr_list (decode_words (Py.or_str (h_from msg) "")) in
  let to_list := parse_addr_list (decode_words (Py.or_str (h_to msg) "")) in
  let cc_list := parse_addr_list (decode_words (Py.or_str (h_cc msg) "")) in
  let canon_labels := canonicalize_labels gm_labels in
  let doc_type := infer_doc_type canon_labels in
  let y := year d_local in
  let quarter := ((month d_local - 1) / 3 + 1)%Z in
  let quarter_str := "Q" ++ str_of_Z quarter ++ Py.last_chars 2 (str_of_Z y) in
  let slug := slugify subject in
  let short :=
    Py.last_chars 6
      (match truthy_id gm_msgid with
       | Some g => str_of_Z g
       | None => Md5.hexdigest (Py.utf8 (if Py.truthy message_id then message_id else subject))
       end) in
  let rel_path :=
    EMAILS_DIR ++ "/" ++ str_of_Z y ++ "/" ++ quarter_str ++ "/" ++ slug ++ "-" ++ short ++ ".md" in
  let abs_path := path_join vault_root rel_path in
  let gmail_url := "https://mail.google.com/mail/u/0/#inbox/" ++ id_or_empty gm_msgid in
  let checksum :=
    checksum_for (payload_for_checksum msg gm_labels gm_msgid gm_thrid date_iso body_md) in
  let yaml :=
    [ "---";
      "type: " ++ doc_type;
      "source: imap/gmail";
      "gmail:";
      "  x_gm_msgid: " ++ DQ ++ id_or_empty gm_msgid ++ DQ;
      "  x_gm_thrid: " ++ DQ ++ id_or_empty gm_thrid ++ DQ;
      "  message_id: " ++ DQ ++ message_id ++ DQ;
      "subject: " ++ dumps false (JStr subject);
      "from: " ++ dumps false (match from_list with
                               | a :: _ => addr_json a
                               | [] => addr_json ("", "")
                               end);
      "to: " ++ dumps false (JList (map addr_json to_list));
      "cc: " ++ dumps false (JList (map addr_json cc_list));
      "date: " ++ date_iso;
      "labels: " ++ dumps false (JList (map JStr canon_labels));
      "attachments: []";
      "checksum: " ++ DQ ++ checksum ++ DQ;
      "ingested_at: " ++ isoformat now_ingested;
      "canonical_url: " ++ dumps false (JStr gmail_url);
      "---";
      "" ] in
  let md :=
    Sha256.concat_strings
      (map (fun line => line ++ (if Py.endswith Py.NL line then "" else Py.NL)) yaml)
    ++ body_md ++ Py.NL in
  (abs_path, md,
   {| path_abs := abs_path;
      m_checksum := checksum;
      m_doc_type := doc_type;
      m_message_id := message_id;
      m_x_gm_msgid := option_map str_of_Z (truthy_id gm_msgid) |}).

(** [build_markdown].  The date comes first, then the body, then the
    local date of the path; each of the three can raise, and nothing in
    the function catches it.  [now] is the clock read inside
    [parsedate_to_iso]. *)
Definition build_markdown (vault_root : string) (msg : message)
    (gm_labels : list string) (gm_msgid gm_thrid : option Z)
    (internaldate : option datetime) (now now_ingested : datetime)
    : attempt (string * string * meta) :=
  match parsedate_to_dt (h_date msg) internaldate now with
  | Throws e => Throws e
  | Gives date_dt =>
      match body_text msg with
      | Throws e => Throws e
      | Gives body_md =>
          match astimezone L date_dt with
          | Throws e => Throws e
          | Gives d_local =>
              Gives (render vault_root msg gm_labels gm_msgid gm_thrid
                            (isoformat date_dt) body_md d_local now_ingested)
          end
      end
  end.

(** *** The persisted store and the deduplication index *)

Record index : Type := mkindex {
  by_gm_msgid : gmap string string;
  by_message_id : gmap string string
}.

Definition empty_index : index := mkindex ∅ ∅.

Record legacy_entry : Type := {
  le_path : string;
  le_checksum : string;
  le_type : string
}.

#[global] Instance legacy_entry_eq_dec : EqDecision legacy_entry.
Proof. solve_decision. Defined.

(** What a JSON state file holds: nothing, text that does not load, or a
    value. *)
Inductive stored (T : Type) : Type :=
  | Missing
  | Corrupt
  | Stored (v : T).
#[global] Arguments Missing {T}.
#[global] Arguments Corrupt {T}.
#[global] Arguments Stored {T} v.

(** The file system as the ingester sees it: the notes, the index file
    and the legacy state file, which are taken to lie at three different
    kinds of paths (a run whose [--index-file] or [--state-file] is the
    path of the other or of a note is not covered).  [unwritable] holds
    the paths at which [write_text] raises; [written] is the trace of the
    paths written by the run, most recent first. *)
Record world : Type := {
  files : gmap string string;
  index_file : stored index;
  state_file : stored (gmap string legacy_entry);
  unwritable : gset string;
  written : list string
}.

Definition exists_file (w : world) (p : string) : bool :=
  bool_decide (is_Some (files w !! p)).

(** [ensure_dirs(p); p.write_text(md)]: [None] when it raises. *)
Definition write_text (w : world) (p md : string) : option world :=
  if bool_decide (p ∈ unwritable w) then None
  else Some {| files := <[p := md]> (files w);
               index_file := index_file w;
               state_file := state_file w;
               unwritable := unwritable w;
               written := p :: written w |}.

Definition checksum_pattern : list Re.piece :=
  [ Re.Star Py.isspace; Re.Lit "checksum:"; Re.Star Py.isspace;
    Re.Lit (DQ ++ "sha256:"); Re.Capture Re.ishex; Re.Lit DQ;
    Re.Star Py.isspace; Re.Eol ].

(** [read_existing_checksum(md_path)]; a stored note can always be read. *)
Definition read_existing_checksum (w : world) (md_path : string) : option string :=
  match files w !! md_path with
  | None => None
  | Some text =>
      option_map (fun g => "sha256:" ++ g)
                 (Re.search checksum_pattern (Py.take 4000 text))
  end.


Definition message_id_pattern : list Re.piece :=
  [ Re.Star Py.isspace; Re.Lit "message_id:"; Re.Star Py.isspace;
    Re.Opt (ascii_of_nat 34); Re.Opt "<";
    Re.Capture (fun c => negb (bool_decide (c = ascii_of_nat 34)
                               || bool_decide (c = ">"%char)
                               || bool_decide (c = ascii_of_nat 10)));
    Re.Opt ">"; Re.Opt (ascii_of_nat 34); Re.Star Py.isspace; Re.Eol ].

Definition x_gm_msgid_pattern : list Re.piece :=
  [ Re.Star Py.isspace; Re.Lit "x_gm_msgid:"; Re.Star Py.isspace;
    Re.Opt (ascii_of_nat 34); Re.Capture Re.isdigit; Re.Opt (ascii_of_nat 34);
    Re.Star Py.isspace; Re.Eol ].

(** [int(s)] on a run of decimal digits. *)
Definition int_of_digits (s : string) : Z :=
  fold_left (fun acc c => (acc * 10 + (Z.of_N (N_of_ascii c) - 48))%Z)
            (list_ascii_of_string s) 0%Z.

(** [extract_ids_from_file_head(md_path)] *)
Definition extract_ids_from_file_head (w : world) (md_path : string)
    : option string * option Z :=
  match files w !! md_path with
  | None => (None, None)
  | Some text =>
      let head := Py.take 4000 text in
      (option_map Py.strip (Re.search message_id_pattern head),
       option_map int_of_digits (Re.search x_gm_msgid_pattern head))
  end.

(** The inner loop of [scan_recent_for_existing] over the notes of one
    year directory, later notes overwriting earlier ones. *)
Definition scan_note (w : world) (found : index) (md : string) : index :=
  let '(mid, gmid) := extract_ids_from_file_head w md in
  let found :=
    match mid with
    | Some m => if Py.truthy m
                then mkindex (by_gm_msgid found) (<[m := md]> (by_message_id found))
                else found
    | None => found
    end in
  match truthy_id gmid with
  | Some g => mkindex (<[str_of_Z g := md]> (by_gm_msgid found)) (by_message_id found)
  | None => found
  end.

(** [scan_recent_for_existing(vault_root, years_back=3)]; [now_y] is the
    year of the host's clock. *)
Definition scan_recent_for_existing (vault_root : string) (now_y : Z) (w : world) : index :=
  let base := path_join vault_root EMAILS_DIR in
  fold_left
    (fun found y =>
       fold_left (scan_note w) (rglob_md L (files w) (path_join base (str_of_Z y))) found)
    [now_y; (now_y - 1)%Z; (now_y - 2)%Z] empty_index.

(** [index[...].update(seeded[...])] on both maps. *)
Definition merge_seeded (idx seeded : index) : index :=
  mkindex (by_gm_msgid seeded ∪ by_gm_msgid idx) (by_message_id seeded ∪ by_message_id idx).

(** [load_index(path)] *)
Definition load_index (w : world) : index :=
  match index_file w with
  | Stored i => i
  | Missing | Corrupt => empty_index
  end.

(** The two lookups of the dedupe step: the X-GM-MSGID map first, the
    Message-ID map second. *)
Definition lookup_existing (idx : index) (gm_msgid : option Z) (message_id : string)
    : option string :=
  match truthy_id gm_msgid ≫= (fun g => by_gm_msgid idx !! str_of_Z g) with
  | Some p => Some p
  | None => if Py.truthy message_id then by_message_id idx !! message_id else None
  end.

(** *** The ingestion loop of [main] *)

Inductive raw_body : Type :=
  | NoBody
  | Unparseable (err : string)
  | Parses (msg : message).

(** One entry of the FETCH response. *)
Record fetched : Type := {
  uid : Z;
  raw : raw_body;
  x_gm_labels : list string;
  x_gm_msgid : option Z;
  x_gm_thrid : option Z;
  internaldate : option datetime
}.

(** The clock readings made while one record is processed. *)
Record tick : Type := {
  now_date : datetime;
  now_ingested : datetime;
  now_year : Z
}.

Record args : Type := {
  vault_root : string;
  dry_run : bool;
  max : Z;
  index_path : string;
  state_path : string
}.

Inductive level : Type := DEBUG | INFO | WARNING.

#[global] Instance level_eq_dec : EqDecision level.
Proof. solve_decision. Defined.

Record state : Type := mkstate {
  idx : index;
  index_updated : bool;
  legacy_state : gmap string legacy_entry;
  fs : world;
  log : list (level * string);
  processed : N
}.

(** A run either goes on or is ended by an exception nobody catches. *)
Inductive outcome : Type :=
  | Done (s : state)
  | Raised (exc : string) (s : state).

Definition logging (lv : level) (text : string) (s : state) : state :=
  mkstate (idx s) (index_updated s) (legacy_state s) (fs s) (log s ++ [(lv, text)])%list
          (processed s).

(** The dedupe step: the index, then a scan of the recent notes merged
    into the index, then the index again. *)
Definition find_existing (a : args) (t : tick) (s : state) (gm_msgid : option Z)
    (message_id : string) : state * option string :=
  match lookup_existing (idx s) gm_msgid message_id with
  | Some p => (s, Some p)
  | None =>
      let seeded := scan_recent_for_existing (vault_root a) (now_year t) (fs s) in
      let idx' := merge_seeded (idx s) seeded in
      (mkstate idx' true (legacy_state s) (fs s) (log s) (processed s),
       lookup_existing idx' gm_msgid message_id)
  end.

(** [str(target_path.relative_to(vault_root))]: a dot for the vault
    itself, and [None] when the path is not under the vault and
    [relative_to] raises. *)
Definition relative_to (root target : string) : option string :=
  let prefix := if Py.endswith "/" root then root else root ++ "/" in
  if bool_decide (target = root) || bool_decide (target ++ "/" = prefix) then Some "."
  else if Py.startswith prefix target then Some (Py.drop (Py.len prefix) target)
  else None.

(** The index update after the write or the skip. *)
Definition update_index (s : state) (gm_msgid : option Z) (message_id target : string)
    : state :=
  let s1 :=
    match truthy_id gm_msgid with
    | Some g =>
        let key := str_of_Z g in
        if bool_decide (by_gm_msgid (idx s) !! key = Some target) then s
        else mkstate (mkindex (<[key := target]> (by_gm_msgid (idx s))) (by_message_id (idx s)))
                     true (legacy_state s) (fs s) (log s) (processed s)
    | None => s
    end in
  if Py.truthy message_id then
    if bool_decide (by_message_id (idx s1) !! message_id = Some target) then s1
    else mkstate (mkindex (by_gm_msgid (idx s1)) (<[message_id := target]> (by_message_id (idx s1))))
                 true (legacy_state s1) (fs s1) (log s1) (processed s1)
  else s1.

(** The legacy state entry of the record. *)
Definition update_legacy (a : args) (r : fetched) (m : meta) (target : string) (s : state)
    : outcome :=
  match relative_to (vault_root a) target with
  | None => Raised "ValueError" s
  | Some rel =>
      let legacy_key := str_of_Z (default (uid r) (truthy_id (x_gm_msgid r))) in
      let stale :=
        match legacy_state s !! legacy_key with
        | None => true
        | Some e => negb (bool_decide (le_checksum e = m_checksum m))
                    || negb (bool_decide (le_path e = rel))
        end in
      Done (if stale
            then mkstate (idx s) (index_updated s)
                         (<[legacy_key := {| le_path := rel;
                                             le_checksum := m_checksum m;
                                             le_type := m_doc_type m |}]> (legacy_state s))
                         (fs s) (log s) (processed s)
            else s)
  end.

(** The call of [build_markdown] for a record. *)
Definition build_for (a : args) (t : tick) (r : fetched) (msg : message)
    : attempt (string * string * meta) :=
  build_markdown (vault_root a) msg (canonicalize_labels (x_gm_labels r))
                 (truthy_id (x_gm_msgid r)) (truthy_id (x_gm_thrid r)) (internaldate r)
                 (now_date t) (now_ingested t).

(** What [build_markdown] returns for a record.  Where it raises there is
    no note, and the step ends before it reads these parts, which are
    empty then. *)
Definition built (a : args) (t : tick) (r : fetched) (msg : message)
    : string * string * meta :=
  match build_for a t r msg with
  | Gives b => b
  | Throws _ =>
      ("", "", {| path_abs := ""; m_checksum := ""; m_doc_type := "";
                  m_message_id := ""; m_x_gm_msgid := None |})
  end.

(** The target of a record: the indexed location when there is one, the
    default path otherwise; with the state after the dedupe step, whether
    the location came from the index, and the rendered note. *)
Definition resolve (a : args) (t : tick) (s : state) (r : fetched) (msg : message)
    : state * bool * string * string * meta :=
  let gm_msgid := truthy_id (x_gm_msgid r) in
  let message_id := message_id_of msg in
  let '(s1, existing_path) := find_existing a t s gm_msgid message_id in
  let '(abs_path, md, m) := built a t r msg in
  (s1, bool_decide (is_Some existing_path), default abs_path existing_path, md, m).

(** The write-or-skip decision on the resolved target: no write when the
    stored checksum is the new one, otherwise a write (an update when the
    target exists), which is only logged under [--dry-run]. *)
Definition write_or_skip (a : args) (s1 : state) (deduped : bool) (target md : string)
    (m : meta) : outcome :=
  if bool_decide (read_existing_checksum (fs s1) target = Some (m_checksum m)) then
    Done (logging INFO ("Duplicate/no-change: " ++ target) s1)
  else
    let action := if exists_file (fs s1) target then "Update" else "Write" in
    let s2 := logging INFO (action ++ (if deduped then " (deduped): " else ": ")
                            ++ target) s1 in
    if dry_run a then Done s2
    else match write_text (fs s2) target md with
         | Some w => Done (mkstate (idx s2) (index_updated s2) (legacy_state s2) w
                                   (log s2) (processed s2))
         | None => Raised "OSError" s2
         end.

(** What follows the write or the skip: the index and the legacy state are
    brought up to date and the record is counted. *)
Definition finish (a : args) (r : fetched) (msg : message) (m : meta) (target : string)
    (s3 : state) : outcome :=
  let s4 := update_index s3 (truthy_id (x_gm_msgid r)) (message_id_of msg) target in
  match update_legacy a r m target s4 with
  | Raised e s' => Raised e s'
  | Done s5 =>
      let s6 := logging DEBUG ("Markdown-only mode: skipping embedding for " ++ target) s5 in
      Done (mkstate (idx s6) (index_updated s6) (legacy_state s6) (fs s6) (log s6)
                    (processed s6 + 1))
  end.

(** The body of the loop for one record: the dedupe step, then
    [build_markdown], whose exception ends the run, then the write or the
    skip and the updates. *)
Definition process (a : args) (t : tick) (s : state) (r : fetched) : outcome :=
  match raw r with
  | NoBody =>
      Done (logging WARNING ("No BODY for UID " ++ str_of_Z (uid r) ++ "; skipping.") s)
  | Unparseable e =>
      Done (logging WARNING ("Parse error UID " ++ str_of_Z (uid r) ++ ": " ++ e) s)
  | Parses msg =>
      if negb (wants_processing (canonicalize_labels (x_gm_labels r))) then
        Done (logging DEBUG ("Skip UID " ++ str_of_Z (uid r)
                             ++ " (no canonical processing labels)") s)
      else
        let '(s1, deduped, target, md, m) := resolve a t s r msg in
        match build_for a t r msg with
        | Throws e => Raised e s1
        | Gives _ =>
            match write_or_skip a s1 deduped target md m with
            | Raised e s' => Raised e s'
            | Done s3 => finish a r msg m target s3
            end
        end
  end.

(** [for uid in uids: ...]; [clock] gives the clock readings made while the
    record of a UID is processed. *)
Fixpoint loop (a : args) (clock : Z -> tick) (s : state) (rs : list fetched) : outcome :=
  match rs with
  | [] => Done s
  | r :: rest =>
      match process a (clock (uid r)) s r with
      | Done s' => loop a clock s' rest
      | Raised e s' => Raised e s'
      end
  end.

(** [save_index(path, data)]: a failed write is logged, not raised. *)
Definition save_index (a : args) (s : state) : state :=
  if bool_decide (index_path a ∈ unwritable (fs s)) then
    logging WARNING "Failed to save dedupe index: OSError" s
  else
    mkstate (idx s) (index_updated s) (legacy_state s)
            {| files := files (fs s);
               index_file := Stored (idx s);
               state_file := state_file (fs s);
               unwritable := unwritable (fs s);
               written := index_path a :: written (fs s) |}
            (log s) (processed s).

(** The write of the legacy state file, whose failure is ignored. *)
Definition save_legacy (a : args) (s : state) : state :=
  if bool_decide (state_path a ∈ unwritable (fs s)) then s
  else
    mkstate (idx s) (index_updated s) (legacy_state s)
            {| files := files (fs s);
               index_file := index_file (fs s);
               state_file := Stored (legacy_state s);
               unwritable := unwritable (fs s);
               written := state_path a :: written (fs s) |}
            (log s) (processed s).

(** The state [main] enters the loop with: the legacy state and the index
    are loaded, and an empty index is seeded from the recent notes. *)
Definition startup (a : args) (start : tick) (w : world) : state :=
  let legacy := match state_file w with Stored v => v | _ => ∅ end in
  let index0 := load_index w in
  let s0 := mkstate index0 false legacy w [] 0 in
  if bool_decide (by_gm_msgid index0 = ∅) && bool_decide (by_message_id index0 = ∅) then
    let s1 := logging INFO "Dedupe index empty; scanning recent notes to seed it..." s0 in
    mkstate (merge_seeded index0 (scan_recent_for_existing (vault_root a) (now_year start) w))
            false legacy w (log s1) 0
  else s0.

(** [l[:n]]: the first [n] elements, and for a negative [n] all but the
    last [-n]. *)
Definition slice_to {A : Type} (n : Z) (l : list A) : list A :=
  firstn (Z.to_nat (if (0 <=? n)%Z then n else (Z.of_nat (length l) + n)%Z)) l.

(** [sorted(uids, reverse=True)[:args.max]] on the fetched entries. *)
Definition uid_ge (x y : fetched) : Prop := (uid y <= uid x)%Z.

#[global] Instance uid_ge_dec : RelDecision uid_ge.
Proof. intros x y. unfold uid_ge. apply _. Defined.

Definition newest_first (a : args) (matched : list fetched) : list fetched :=
  slice_to (max a) (merge_sort uid_ge matched).

(** [main] from the loading of the state files on; [matched] holds the
    FETCH entry of every UID the search returned.  The logging of the
    query is left out. *)
Definition main (a : args) (start : tick) (clock : Z -> tick) (w : world)
    (matched : list fetched) : outcome :=
  let s0 := startup a start w in
  let s1 := logging INFO ("Matched " ++ str_of_Z (Z.of_nat (length matched)) ++ " messages") s0 in
  match matched with
  | [] => Done s1
  | _ =>
      match loop a clock s1 (newest_first a matched) with
      | Raised e s' => Raised e s'
      | Done s2 =>
          let s3 := if index_updated s2 && negb (dry_run a) then save_index a s2 else s2 in
          let s4 := if negb (dry_run a) then save_legacy a s3 else s3 in
          Done (logging INFO ("Done. Processed " ++ str_of_Z (Z.of_N (processed s4))
                              ++ " message(s) - MARKDOWN ONLY (no embedding).") s4)
      end
  end.

(** The final state of a run, whichever way it ended. *)
Definition final (o : outcome) : state :=
  match o with Done s => s | Raised _ s => s end.

(** The parts of [resolve]. *)
Definition resolved_state (a : args) (t : tick) (s : state) (r : fetched) (msg : message)
    : state := fst (fst (fst (fst (resolve a t s r msg)))).
Definition resolved_from_index (a : args) (t : tick) (s : state) (r : fetched) (msg : message)
    : bool := snd (fst (fst (fst (resolve a t s r msg)))).
Definition resolved_target (a : args) (t : tick) (s : state) (r : fetched) (msg : message)
    : string := snd (fst (fst (resolve a t s r msg))).
Definition resolved_meta (a : args) (t : tick) (s : state) (r : fetched) (msg : message)
    : meta := snd (resolve a t s r msg).
Definition resolved_note (a : args) (t : tick) (s : state) (r : fetched) (msg : message)
    : string := snd (fst (resolve a t s r msg)).

(** The announcement logged before a note is written. *)
Definition write_announcement (a : args) (t : tick) (s : state) (r : fetched) (msg : message)
    : level * string :=
  (INFO,
   (if exists_file (fs s) (resolved_target a t s r msg) then "Update" else "Write")
   ++ (if resolved_from_index a t s r msg then " (deduped): " else ": ")
   ++ resolved_target a t s r msg).

End WithLibrary.

(** A platform for running the model: headers without RFC 2047 encoded
    words decode to themselves, a bare address parses to itself with an
    empty display name, the host is on UTC and lists files in the order of
    the store, and the date parser knows the date headers used in the
    examples. *)
Definition sample_platform : platform := {|
  decode_header_join := fun s => Some s;
  getaddresses := fun s => [("", s)];
  parsedate_to_datetime := fun s =>
    if bool_decide (s = "Thu, 01 Jan 2026 10:00:00 +0100")
    then Parsed (mkdt 2026 1 1 10 0 0 0 (Some 3600%Z))
    else if bool_decide (s = "Fri, 31 Dec 9999 23:59:59 -1200")
    then Parsed (mkdt 9999 12 31 23 59 59 0 (Some (-43200)%Z))
    else ParseRaises;
  astimezone := fun d =>
    match astimezone_local 0 d with
    | Some d' => Gives d'
    | None => Throws "OverflowError"
    end;
  rglob_md := fun files dir =>
    filter (fun p => Py.startswith (dir ++ "/") p = true ∧ Py.endswith ".md" p = true)
           (map fst (map_to_list files))
|}.

(** Sample data for the examples. *)
Definition msg_sample : message := {|
  h_subject := Some "Weekly sync";
  h_from := Some "ann@example.com";
  h_to := Some "bob@example.com";
  h_cc := None;
  h_date := Some "Thu, 01 Jan 2026 10:00:00 +0100";
  h_message_id := Some "<m1@example.com>";
  body_text := Gives "See you at ten."
|}.

(** A message dated in the last hours of the year 9999. *)
Definition msg_far : message := {|
  h_subject := Some "Weekly sync";
  h_from := Some "ann@example.com";
  h_to := Some "bob@example.com";
  h_cc := None;
  h_date := Some "Fri, 31 Dec 9999 23:59:59 -1200";
  h_message_id := Some "<m9@example.com>";
  body_text := Gives "See you at ten."
|}.

Definition msg_undated : message := {|
  h_subject := Some "Weekly sync";
  h_from := Some "ann@example.com";
  h_to := Some "bob@example.com";
  h_cc := None;
  h_date := None;
  h_message_id := Some "<m1@example.com>";
  body_text := Gives "See you at ten."
|}.

Definition clock_a : datetime := mkdt 2026 2 2 8 0 0 0 (Some 0%Z).
Definition clock_b : datetime := mkdt 2026 2 3 9 30 0 0 (Some 0%Z).

(** The arguments with the [--dry-run] flag set to [b]. *)
Definition set_dry_run (b : bool) (a : args) : args := {|
  vault_root := vault_root a; dry_run := b; max := max a;
  index_path := index_path a; state_path := state_path a
|}.

(** The state [s] over the file system [w]. *)
Definition with_fs (w : world) (s : state) : state :=
  mkstate (idx s) (index_updated s) (legacy_state s) w (log s) (processed s).

Definition with_fs_outcome (w : world) (o : outcome) : outcome :=
  match o with
  | Done s => Done (with_fs w s)
  | Raised e s => Raised e (with_fs w s)
  end.

(** Sample runs. *)
Definition args_real : args := {|
  vault_root := "/vault"; dry_run := false; max := 500%Z;
  index_path := "/vault/.imap_ingest_index.json";
  state_path := "/vault/.imap_ingest_state.json"
|}.

Definition args_dry : args := {|
  vault_root := "/vault"; dry_run := true; max := 500%Z;
  index_path := "/vault/.imap_ingest_index.json";
  state_path := "/vault/.imap_ingest_state.json"
|}.

Definition empty_world : world := {|
  files := ∅; index_file := Missing; state_file := Missing;
  unwritable := ∅; written := []
|}.

Definition tick_a : tick := {| now_date := clock_a; now_ingested := clock_a; now_year := 2026 |}.
Definition tick_b : tick := {| now_date := clock_b; now_ingested := clock_b; now_year := 2026 |}.

Definition rec_sample : fetched := {|
  uid := 7; raw := Parses msg_sample; x_gm_labels := ["To-Embed"];
  x_gm_msgid := Some 1234567890%Z; x_gm_thrid := Some 55%Z; internaldate := None
|}.

Definition rec_far : fetched := {|
  uid := 9; raw := Parses msg_far; x_gm_labels := ["Save"];
  x_gm_msgid := Some 1234567899%Z; x_gm_thrid := Some 56%Z; internaldate := None
|}.

(** A second copy of the sample message, under another X-GM-MSGID. *)
Definition rec_copy : fetched := {|
  uid := 8; raw := Parses msg_sample; x_gm_labels := ["Save"];
  x_gm_msgid := Some 1234567891%Z; x_gm_thrid := Some 55%Z; internaldate := None
|}.

(** A world in which the note of the sample record cannot be written, and
    an older record. *)
Definition world_locked : world := {|
  files := ∅; index_file := Missing; state_file := Missing;
  unwritable := {[ "/vault/Emails/2026/Q126/weekly-sync-567890.md" ]}; written := []
|}.

Definition msg_older : message := {|
  h_subject := Some "Minutes";
  h_from := Some "cat@example.com";
  h_to := Some "bob@example.com";
  h_cc := None;
  h_date := Some "Thu, 01 Jan 2026 10:00:00 +0100";
  h_message_id := Some "<m0@example.com>";
  body_text := Gives "Attached."
|}.

Definition rec_older : fetched := {|
  uid := 3; raw := Parses msg_older; x_gm_labels := ["Save"];
  x_gm_msgid := Some 1000000001%Z; x_gm_thrid := None; internaldate := None
|}.

(** Three records for the index examples: two messages, and a record that
    carries the X-GM-MSGID of the first with the Message-ID of the second. *)
Definition msg_alpha : message := {|
  h_subject := Some "Alpha"; h_from := Some "ann@example.com";
  h_to := Some "bob@example.com"; h_cc := None;
  h_date := Some "Thu, 01 Jan 2026 10:00:00 +0100";
  h_message_id := Some "<alpha@example.com>"; body_text := Gives "First."
|}.

Definition msg_beta : message := {|
  h_subject := Some "Beta"; h_from := Some "ann@example.com";
  h_to := Some "bob@example.com"; h_cc := None;
  h_date := Some "Thu, 01 Jan 2026 10:00:00 +0100";
  h_message_id := Some "<beta@example.com>"; body_text := Gives "Second."
|}.

Definition rec_alpha : fetched := {|
  uid := 30; raw := Parses msg_alpha; x_gm_labels := ["Save"];
  x_gm_msgid := Some 1111111111%Z; x_gm_thrid := None; internaldate := None
|}.

Definition rec_beta : fetched := {|
  uid := 20; raw := Parses msg_beta; x_gm_labels := ["Save"];
  x_gm_msgid := Some 2222222222%Z; x_gm_thrid := None; internaldate := None
|}.

Definition rec_cross : fetched := {|
  uid := 10; raw := Parses msg_beta; x_gm_labels := ["Save"];
  x_gm_msgid := Some 1111111111%Z; x_gm_thrid := None; internaldate := None
|}.

Definition clock_sample (u : Z) : tick := if (u =? 10)%Z then tick_b else tick_a.


(** The sample message without a Date header, fetched without INTERNALDATE,
    and a message whose subject fills the first 4000 characters of its
    note. *)
Definition rec_undated : fetched := {|
  uid := 7; raw := Parses msg_undated; x_gm_labels := ["Save"];
  x_gm_msgid := Some 1234567890%Z; x_gm_thrid := Some 55%Z; internaldate := None
|}.

Fixpoint repeat_string (n : nat) (s : string) : string :=
  match n with
  | O => ""
  | S n' => s ++ repeat_string n' s
  end.

Definition msg_long_subject : message := {|
  h_subject := Some (repeat_string 500 "minutes ");
  h_from := Some "ann@example.com";
  h_to := Some "bob@example.com";
  h_cc := None;
  h_date := Some "Thu, 01 Jan 2026 10:00:00 +0100";
  h_message_id := Some "<long@example.com>";
  body_text := Gives "See you at ten."
|}.

Definition rec_long_subject : fetched := {|
  uid := 7; raw := Parses msg_long_subject; x_gm_labels := ["Save"];
  x_gm_msgid := Some 1234567890%Z; x_gm_thrid := Some 55%Z; internaldate := None
|}.

(** The world a run leaves behind, without the trace of its writes. *)
Definition settle (w : world) : world := {|
  files := files w; index_file := index_file w; state_file := state_file w;
  unwritable := unwritable w; written := []
|}.

(** *** The search query *)

(** [re.fullmatch(r"(\d+)([dwmy])", s, flags=re.I)]: the digits and the
    unit, lower-cased. *)
Fixpoint relative_since (digits s : string) : option (string * ascii) :=
  match s with
  | "" => None
  | String c "" =>
      let u := Py.lower_char c in
      if Py.truthy digits && Py.contains_char u "dwmy" then Some (digits, u) else None
  | String c r =>
      if Re.isdigit c then relative_since (digits ++ String c "") r else None
  end.

Definition unit_days (u : ascii) : Z :=
  if ascii_dec u "d" then 1
  else if ascii_dec u "w" then 7
  else if ascii_dec u "m" then 30
  else 365.

(** [(utcnow - timedelta(days=days)).date().strftime("%Y/%m/%d")]: [None]
    when the [timedelta] or the date is out of range ([OverflowError]).
    The year is printed as the C library of Linux prints it, without
    padding. *)
Definition cutoff (utcnow : datetime) (days : Z) : option string :=
  let day := (days_from_civil (year utcnow) (month utcnow) (day utcnow) - days)%Z in
  if (999999999 <? days)%Z || (day <? days_from_civil 1 1 1)%Z then None
  else
    let '(y, m, d) := civil_from_days day in
    Some (str_of_Z y ++ "/" ++ zpad 2 m ++ "/" ++ zpad 2 d).

Definition label_term (l : string) : string := "label:" ++ DQ ++ l ++ DQ.

(** [gmail_label_query(labels, since)]; [utcnow] is the reading of
    [datetime.utcnow()], [None] an exception: the [ValueError] of [int]
    on more than 4300 digits, or the [OverflowError] of the date
    arithmetic. *)
Definition gmail_label_query (utcnow : datetime) (labels : list string)
    (since : option string) : option string :=
  let parts1 :=
    match labels with
    | [] => []
    | _ => ["(" ++ Py.join " OR " (map label_term labels) ++ ")"]
    end in
  let since_part :=
    match since with
    | None => Some []
    | Some s =>
        if Py.truthy s then
          match relative_since "" (Py.strip s) with
          | Some (digits, u) =>
              if (4300 <? Py.len digits)%N then None
              else option_map (fun c => ["after:" ++ c])
                              (cutoff utcnow (int_of_digits digits * unit_days u))
          | None => Some ["after:" ++ Py.replace_char "-" "/" s]
          end
        else Some []
    end in
  option_map (fun parts2 =>
                match (parts1 ++ parts2)%list with
                | [] => "in:anywhere"
                | parts => Py.join " " parts
                end) since_part.

Definition utcnow_sample : datetime := mkdt 2026 3 10 12 0 0 0 None.

(** The characters of a slug. *)
Definition slug_char (c : ascii) : Prop := Py.isword c = true ∨ c = "-"%char.

(** [s'] extends [s]: no identifier has left the index, no note has left
    the store, the log has only grown, and the permissions are those of
    [s]. *)
Definition extends (s s' : state) : Prop :=
  dom (by_gm_msgid (idx s)) ⊆ dom (by_gm_msgid (idx s'))
  ∧ dom (by_message_id (idx s)) ⊆ dom (by_message_id (idx s'))
  ∧ dom (files (fs s)) ⊆ dom (files (fs s'))
  ∧ unwritable (fs s') = unwritable (fs s)
  ∧ (∃ l, log s' = (log s ++ l)%list)
  ∧ (processed s <= processed s')%N.

(** Two states before the first message of a run: an empty one, and one
    whose index places the sample message outside the vault. *)
Definition state_empty : state := mkstate empty_index false ∅ empty_world [] 0.
Definition state_outside : state :=
  mkstate (mkindex {[ "1234567890" := "/elsewhere/weekly-sync.md" ]} ∅)
          false ∅ empty_world [] 0.

(** *** The body of a message *)

(** A part of [msg.walk()], as [body_from_email] reads it: its content
    disposition, its content type, the text [get_content()] returns
    ([None] when it raises) and the decoded payload of the fallback
    ([None] when the decoding raises). *)
Record part : Type := {
  p_disposition : option string;
  p_type : string;
  p_content : option string;
  p_payload : option string
}.

(** The text of a part in the multipart loop: [get_content()], or the
    payload when that raises. *)
Definition part_text (p : part) : option string :=
  match p_content p with
  | Some s => Some s
  | None => p_payload p
  end.

(** The loop over [msg.walk()]: the plain and the HTML texts collected;
    [None] when a part raises. *)
Fixpoint collect (parts : list part) (text_plain text_html : list string)
    : option (list string * list string) :=
  match parts with
  | [] => Some (text_plain, text_html)
  | p :: rest =>
      if bool_decide (p_disposition p = Some "attachment") then
        collect rest text_plain text_html
      else if bool_decide (p_type p = "text/plain") then
        match part_text p with
        | Some s => collect rest (text_plain ++ [Py.strip s])%list text_html
        | None => None
        end
      else if bool_decide (p_type p = "text/html") then
        match part_text p with
        | Some s => collect rest text_plain (text_html ++ [s])%list
        | None => None
        end
      else collect rest text_plain text_html
  end.

(** [sep.join(x for x in texts if x).strip()] with a blank line as [sep] *)
Definition joined (texts : list string) : string :=
  Py.strip (Py.join (Py.NL ++ Py.NL) (filter (fun x => Py.truthy x = true) texts)).

(** A message as [body_from_email] reads it: whether it is multipart, the
    parts of [msg.walk()] (the message itself first), the message as a
    part, and [msg.as_string()]. *)
Record mail : Type := {
  is_multipart : bool;
  walk : list part;
  self : part;
  as_string : string
}.

(** [body_from_email(msg)]; [None] when it raises. *)
Definition body_from_email (html_to_md_quick : string -> string) (m : mail)
    : option (string * string) :=
  let collected :=
    if is_multipart m then collect (walk m) [] []
    else if bool_decide (p_type (self m) = "text/plain") then
      option_map (fun s => ([Py.strip s], [])) (p_content (self m))
    else if bool_decide (p_type (self m) = "text/html") then
      option_map (fun s => ([], [s])) (p_content (self m))
    else Some ([], []) in
  match collected with
  | None => None
  | Some (text_plain, text_html) =>
      let plain := joined text_plain in
      let html := joined text_html in
      if Py.truthy plain then Some (plain, "plain")
      else if Py.truthy html then Some (html_to_md_quick html, "html->md")
      else Some (Py.take 40000 (as_string m), "raw")
  end.

Definition part_sample (disposition : option string) (type text : string) : part :=
  {| p_disposition := disposition; p_type := type; p_content := Some text;
     p_payload := None |}.

Definition mail_sample : mail := {|
  is_multipart := true;
  walk := [ part_sample None "multipart/mixed" "";
            part_sample None "text/html" "<p>See you at ten.</p>";
            part_sample (Some "attachment") "text/plain" "notes.txt";
            part_sample None "text/plain" " See you at ten. " ];
  self := part_sample None "multipart/mixed" "";
  as_string := "Content-Type: multipart/mixed"
|}.


Definition mail_attached : mail := {|
  is_multipart := true;
  walk := [ part_sample None "multipart/mixed" "";
            part_sample (Some "attachment") "text/plain" "notes.txt" ];
  self := part_sample None "multipart/mixed" "";
  as_string := "Content-Type: multipart/mixed; notes.txt"
|}.

(** The world the first run over the sample message leaves behind. *)
Definition world_after_first_run : world :=
  fs (final (main sample_platform args_real tick_a clock_sample empty_world [rec_sample])).

End Ingest.

(** ** The calendar script (fetch_today_events.py) *)

Module Calendar.
Import Datetime.

(** One entry of [event['attendees']]; an absent key is [None]. *)
Record attendee : Type := {
  a_email : option string;
  a_responseStatus : option string
}.

(** A calendar event, as far as the script reads it.  [attendees] is
    [event.get('attendees', [])]; the start and end are the [dateTime] and
    [date] entries of [event.get('start', {})] and [event.get('end', {})]. *)
Record event : Type := {
  eventType : option string;
  attendees : list attendee;
  start_dateTime : option string;
  start_date : option string;
  end_dateTime : option string;
  end_date : option string;
  summary : option string;
  event_id : option string;
  location : option string;
  description : option string;
  organizer_email : option string;
  status : option string;
  htmlLink : option string
}.

(** The library calls of the script. *)
Record platform : Type := {
  (** [datetime.fromisoformat(s)]; [None] is a [ValueError] *)
  fromisoformat : string -> option datetime;
  (** [datetime.strptime(s, '%Y-%m-%d')]; [None] is a [ValueError] *)
  strptime_date : string -> option datetime;
  (** [d.astimezone()] on an aware value, the conversion to the host's
      local time zone; [None] is the [OverflowError] of a local time out
      of the range of [datetime] *)
  astimezone : datetime -> option datetime
}.

(** What a step that can raise gives: a value, a [ValueError] or an
    [OverflowError]. *)
Inductive tried (A : Type) : Type :=
  | Got (x : A)
  | ValueErr
  | OverflowErr.
#[global] Arguments Got {A} x.
#[global] Arguments ValueErr {A}.
#[global] Arguments OverflowErr {A}.

Definition email_matches (user_email : string) (a : attendee) : bool :=
  bool_decide (Py.lower (default "" (a_email a)) = Py.lower user_email).

(** [is_user_invited(event, user_email)] *)
Definition is_user_invited (ev : event) (user_email : string) : bool :=
  match attendees ev with
  | [] => true
  | _ => existsb (email_matches user_email) (attendees ev)
  end.

(** [has_user_declined(event, user_email)]: the first attendee with the
    user's address decides. *)
Fixpoint declined_in (l : list attendee) (user_email : string) : bool :=
  match l with
  | [] => false
  | a :: rest =>
      if email_matches user_email a
      then bool_decide (a_responseStatus a = Some "declined")
      else declined_in rest user_email
  end.

Definition has_user_declined (ev : event) (user_email : string) : bool :=
  declined_in (attendees ev) user_email.

(** [x.get('dateTime') or x.get('date')] *)
Definition first_truthy (x y : option string) : option string :=
  match x with
  | Some s => if Py.truthy s then Some s else y
  | None => y
  end.

Definition has_T (s : string) : bool := Py.contains_char "T" s.

(** The ISO text with a final [Z] written as [+00:00]. *)
Definition unzulu (s : string) : string :=
  if Py.endswith "Z" s then Py.take (Py.len s - 1) s ++ "+00:00" else s.

(** [d.strftime('%Y-%m-%d')] with the C library of Linux, which prints
    the year without padding. *)
Definition strftime_date (d : datetime) : string :=
  Json.str_of_Z (year d) ++ "-" ++ zpad 2 (month d) ++ "-" ++ zpad 2 (day d).

Section WithPlatform.
Variable L : platform.

(** The start of an event as the filter computes it, given the start
    text: a value without an offset, and a date, is read as UTC. *)
Definition parse_start (s : string) : tried datetime :=
  let local (d : datetime) :=
    match astimezone L d with
    | Some d' => Got d'
    | None => OverflowErr
    end in
  if has_T s then
    match fromisoformat L (unzulu s) with
    | None => ValueErr
    | Some d => local (match tzoffset d with Some _ => d | None => replace_tz_utc d end)
    end
  else
    match strptime_date L s with
    | None => ValueErr
    | Some d => local (replace_tz_utc d)
    end.

(** [format_datetime(dt_str)]; [None] when [astimezone] raises its
    [OverflowError], which the function does not catch. *)
Definition format_datetime (dt_str : option string) : option (string * string) :=
  match dt_str with
  | None => Some ("", "")
  | Some s =>
      if negb (Py.truthy s) then Some ("", "")
      else if has_T s then
        match fromisoformat L (unzulu s) with
        | None => Some ("", "")
        | Some d =>
            match tzoffset d with
            | Some _ =>
                match astimezone L d with
                | Some d' => Some (strftime_date d', iso_time d')
                | None => None
                end
            | None => Some (strftime_date d, iso_time d)
            end
        end
      else Some (s, "00:00:00")
  end.

(** [get_accepted_attendees(event)] *)
Definition get_accepted_attendees (ev : event) : list string :=
  flat_map
    (fun a =>
       let st := default "needsAction" (a_responseStatus a) in
       if bool_decide (st = "accepted") || bool_decide (st = "tentative") then
         match a_email a with
         | Some e => if Py.truthy e then [e] else []
         | None => []
         end
       else [])
    (attendees ev).

Record formatted_event : Type := {
  f_date : string;
  f_start_time : string;
  f_end_time : string;
  f_title : string;
  f_accepted_attendees : list string;
  f_event_id : string;
  f_location : string;
  f_description : string;
  f_organizer : string;
  f_status : string;
  f_html_link : string
}.

(** The dictionary built for an event that passed the filters; [None]
    when formatting the start or the end raises. *)
Definition format_event (ev : event) : option formatted_event :=
  match format_datetime (first_truthy (start_dateTime ev) (start_date ev)) with
  | None => None
  | Some (start_d, start_t) =>
      match format_datetime (first_truthy (end_dateTime ev) (end_date ev)) with
      | None => None
      | Some (_, end_t) =>
          let all_day :=
            (negb (Py.truthy start_t) || bool_decide (start_t = "00:00:00"))
            && Py.truthy (default "" (start_date ev)) in
          Some {| f_date := start_d;
                  f_start_time := if all_day then "00:00:00" else start_t;
                  f_end_time := if all_day then "23:59:59" else end_t;
                  f_title := default "No Title" (summary ev);
                  f_accepted_attendees := get_accepted_attendees ev;
                  f_event_id := default "" (event_id ev);
                  f_location := default "" (location ev);
                  f_description := default "" (description ev);
                  f_organizer := default "" (organizer_email ev);
                  f_status := default "" (status ev);
                  f_html_link := default "" (htmlLink ev) |}
      end
  end.

(** The declined-and-future test of the loop.  A start that does not
    parse raises [ValueError], which the loop passes over; [None] is the
    [OverflowError] of [astimezone], which it does not catch. *)
Definition declined_future (user_email : string) (now : datetime) (ev : event)
    : option bool :=
  match first_truthy (start_dateTime ev) (start_date ev) with
  | None => Some false
  | Some s =>
      if Py.truthy s then
        match parse_start s with
        | ValueErr => Some false
        | OverflowErr => None
        | Got event_dt => Some (gt event_dt now && has_user_declined ev user_email)
        end
      else Some false
  end.

(** What the body of the loop does with an event: it skips it, appends
    its dictionary, or raises [OverflowError]. *)
Inductive step : Type :=
  | Skipped
  | Kept (f : formatted_event)
  | Overflows.

Definition process_event (user_email : string) (now : datetime) (ev : event) : step :=
  if bool_decide (eventType ev = Some "workingLocation") then Skipped
  else if negb (is_user_invited ev user_email) then Skipped
  else
    match declined_future user_email now ev with
    | None => Overflows
    | Some true => Skipped
    | Some false =>
        match format_event ev with
        | Some f => Kept f
        | None => Overflows
        end
    end.

(** [filtered_events] at the end of the loop; [None] when an event raises
    [OverflowError]. *)
Fixpoint filter_events (user_email : string) (now : datetime) (events : list event)
    : option (list formatted_event) :=
  match events with
  | [] => Some []
  | ev :: rest =>
      match process_event user_email now ev with
      | Overflows => None
      | Skipped => filter_events user_email now rest
      | Kept f => option_map (cons f) (filter_events user_email now rest)
      end
  end.

(** *** The time window *)

Inductive param_result : Type :=
  | BadValue (msg : string)
  | OutOfRange
  | Utc (d : datetime).

(** [parse_datetime_param(value, is_start)]; [local_off] is the offset of
    [datetime.now().astimezone().tzinfo]. *)
Definition parse_datetime_param (local_off : Z) (value : string) (is_start : bool)
    : param_result :=
  let v := Py.strip value in
  if negb (has_T v) then
    match strptime_date L v with
    | None => BadValue ("Invalid date format for '" ++ value
                        ++ "'. Use YYYY-MM-DD or ISO-8601.")
    | Some d =>
        let dt_local :=
          if is_start then mkdt (year d) (month d) (day d) 0 0 0 0 (Some local_off)
          else mkdt (year d) (month d) (day d) 23 59 59 999999 (Some local_off) in
        match to_utc dt_local with Some u => Utc u | None => OutOfRange end
    end
  else
    match fromisoformat L (Py.replace_char_by "Z" "+00:00" v) with
    | None => BadValue ("Invalid datetime format for '" ++ value ++ "'. Use ISO-8601.")
    | Some d =>
        let aware :=
          match tzoffset d with
          | Some _ => d
          | None => mkdt (year d) (month d) (day d) (hour d) (minute d) (second d)
                         (microsecond d) (Some local_off)
          end in
        match to_utc aware with Some u => Utc u | None => OutOfRange end
    end.

(** The command line of the script. *)
Record request : Type := {
  date_str : option string;
  start_param : option string;
  end_param : option string
}.

(** How the first three calls of [fetch_today_events] end:
    [get_credentials()] leaves the script with [sys.exit(1)]; one of
    [get_credentials()], [build(...)] and [get_user_email(service)]
    raises an exception with the given text; or they return, with the
    user's address ([get_user_email] gives its fallback address on an
    [HttpError]). *)
Inductive service : Type :=
  | Exits
  | ServiceRaises (msg : string)
  | Ready (user_email : string).

(** The host and the remote calendar: the outcome of the first three
    calls, the local offset, today's date as [strftime('%Y-%m-%d')]
    prints it, the current time, and the answer of the events query for a
    window (its items, or the text of the exception it raises). *)
Record host : Type := {
  connect : service;
  local_off : Z;
  today : string;
  now : datetime;
  list_events : string -> string -> string + list event
}.

Definition truthy_opt (x : option string) : bool :=
  match x with Some s => Py.truthy s | None => false end.

(** The window of the request, or the text of the exception raised. *)
Definition window (h : host) (rq : request) : string + (datetime * datetime) :=
  let both (a b : string) :=
    match parse_datetime_param (local_off h) a true with
    | BadValue msg => inl msg
    | OutOfRange => inl "date value out of range"
    | Utc s =>
        match parse_datetime_param (local_off h) b false with
        | BadValue msg => inl msg
        | OutOfRange => inl "date value out of range"
        | Utc e => inr (s, e)
        end
    end in
  if truthy_opt (date_str rq) && (truthy_opt (start_param rq) || truthy_opt (end_param rq))
  then inl "Use either --date or --start/--end, not both."
  else if truthy_opt (start_param rq) || truthy_opt (end_param rq) then
    if negb (truthy_opt (start_param rq)) || negb (truthy_opt (end_param rq))
    then inl "Provide both --start and --end when specifying a custom window."
    else both (default "" (start_param rq)) (default "" (end_param rq))
  else
    let base_date := if truthy_opt (date_str rq) then default "" (date_str rq) else today h in
    both base_date base_date.

Definition rfc3339 (d : datetime) : string := Py.replace_sub "+00:00" "Z" (isoformat d).

Inductive item : Type :=
  | Event (f : formatted_event)
  | Failure (error : string).

(** The entry [except Exception] returns for an exception of text [msg]. *)
Definition failed (msg : string) : list item :=
  [Failure ("Failed to fetch calendar events: " ++ msg)].

(** The function from the window on, for the user's address the service
    gave. *)
Definition fetch_events_for (user_email : string) (h : host) (rq : request) : list item :=
  match window h rq with
  | inl msg => failed msg
  | inr (s, e) =>
      match list_events h (rfc3339 s) (rfc3339 e) with
      | inl msg => failed msg
      | inr events =>
          match filter_events user_email (now h) events with
          | Some out => map Event out
          | None => failed "date value out of range"
          end
      end
  end.

(** [fetch_today_events(date_str, start_param, end_param)]; [None] when
    [get_credentials] ends the script. *)
Definition fetch_today_events (h : host) (rq : request) : option (list item) :=
  match connect h with
  | Exits => None
  | ServiceRaises msg => Some (failed msg)
  | Ready user_email => Some (fetch_events_for user_email h rq)
  end.

(** What [main] prints: today's date, the number of entries and the
    entries. *)
Record output : Type := {
  out_date : string;
  total_events : nat;
  out_events : list item
}.

(** [main()] for the parsed command line [rq]; [None] when the script
    ends in [get_credentials] without printing its result. *)
Definition main (h : host) (rq : request) : option output :=
  option_map
    (fun events =>
       {| out_date := today h; total_events := length events; out_events := events |})
    (fetch_today_events h rq).

End WithPlatform.

(** Two platforms for running the model: a host on UTC and a host five
    hours west of it, with the reader of the ISO texts used in the
    examples. *)
Definition sample_platform : platform := {|
  fromisoformat := read_isoformat;
  strptime_date := read_ymd;
  astimezone := astimezone_local 0
|}.

Definition western_platform : platform := {|
  fromisoformat := read_isoformat;
  strptime_date := read_ymd;
  astimezone := astimezone_local (-18000)
|}.

Definition now_sample : datetime := mkdt 2026 3 10 12 0 0 0 (Some 0%Z).

(** Nine in the evening of the same day, five hours west of UTC. *)
Definition now_western : datetime := mkdt 2026 3 10 21 0 0 0 (Some (-18000)%Z).

Definition declined_event (start : string) : event := {|
  eventType := Some "default";
  attendees := [ {| a_email := Some "Boss@Example.com"; a_responseStatus := Some "accepted" |};
                 {| a_email := Some "me@example.com"; a_responseStatus := Some "declined" |} ];
  start_dateTime := Some start;
  start_date := None;
  end_dateTime := Some "2026-03-11T10:00:00Z";
  end_date := None;
  summary := Some "Review";
  event_id := Some "ev1";
  location := None;
  description := None;
  organizer_email := Some "boss@example.com";
  status := Some "confirmed";
  htmlLink := None
|}.



Definition host_sample : host := {|
  connect := Ready "me@example.com"; local_off := (-18000)%Z; today := "2026-03-10";
  now := now_sample;
  list_events := fun tmin tmax => inr [declined_event "2026-03-09T09:00:00Z"]
|}.

Definition all_day_event : event := {|
  eventType := Some "default";
  attendees := [];
  start_dateTime := None;
  start_date := Some "2026-03-12";
  end_dateTime := None;
  end_date := Some "2026-03-13";
  summary := Some "Offsite";
  event_id := Some "ev2";
  location := None;
  description := None;
  organizer_email := None;
  status := Some "confirmed";
  htmlLink := None
|}.

End Calendar.

(** ** The transcript script (youtube_transcript_extractor.py) *)

Module Youtube.

(** The parts of [urllib.parse] that depend on the library version or on
    the Unicode database. *)
Record platform : Type := {
  (** [urllib.parse.unquote(s)] *)
  unquote : string -> string;
  (** whether [_check_bracketed_netloc] accepts a netloc holding both
      brackets *)
  bracketed_netloc_ok : string -> bool;
  (** whether [_checknetloc] accepts a netloc that is not ASCII *)
  nfkc_netloc_ok : string -> bool
}.

Record parse_result : Type := {
  scheme : string;
  netloc : string;
  path : string;
  params : string;
  query : string;
  fragment : string
}.

Definition is_c0_or_space (c : ascii) : bool := (nat_of_ascii c <=? 32)%nat.

Fixpoint lstrip_c0 (s : string) : string :=
  match s with
  | "" => ""
  | String c r => if is_c0_or_space c then lstrip_c0 r else s
  end.

Definition is_unsafe (c : ascii) : bool :=
  let n := nat_of_ascii c in ((n =? 9) || (n =? 10) || (n =? 13))%nat.

Definition is_ascii_alpha (c : ascii) : bool :=
  let n := nat_of_ascii c in
  (((65 <=? n) && (n <=? 90)) || ((97 <=? n) && (n <=? 122)))%nat.

Definition is_scheme_char (c : ascii) : bool :=
  is_ascii_alpha c || Re.isdigit c || Py.contains_char c "+-.".

Fixpoint all_chars (p : ascii -> bool) (s : string) : bool :=
  match s with
  | "" => true
  | String c r => p c && all_chars p r
  end.

Definition isascii (s : string) : bool := all_chars (fun c => (nat_of_ascii c <? 128)%nat) s.

Definition uses_params : list string :=
  [ ""; "ftp"; "hdl"; "prospero"; "http"; "imap"; "https"; "shttp"; "rtsp"; "rtspu";
    "sip"; "sips"; "mms"; "sftp"; "tel" ].

(** [_splitnetloc(url, 0)] on the text after the two slashes. *)
Fixpoint splitnetloc (s : string) : string * string :=
  match s with
  | "" => ("", "")
  | String c r =>
      if Py.contains_char c "/?#" then ("", s)
      else let '(n, rest) := splitnetloc r in (String c n, rest)
  end.

(** A scheme is split off when the text before the first colon is not
    empty, starts with an ASCII letter and holds scheme characters only. *)
Definition split_scheme (url : string) : string * string :=
  let '(before, found, after) := Py.partition ":" url in
  match before with
  | String c _ =>
      if found && is_ascii_alpha c && all_chars is_scheme_char before
      then (Py.lower before, after) else ("", url)
  | "" => ("", url)
  end.

Section WithPlatform.
Variable L : platform.

(** [urlsplit(url)]: [None] when it raises [ValueError]. *)
Definition urlsplit (url : string) : option parse_result :=
  let url := Py.filter_chars (fun c => negb (is_unsafe c)) (lstrip_c0 url) in
  let '(sch, url) := split_scheme url in
  let '(net, url) :=
    if Py.startswith "//" url then splitnetloc (Py.drop 2 url) else ("", url) in
  let open_br := Py.contains_char "[" net in
  let close_br := Py.contains_char "]" net in
  if (open_br && negb close_br) || (close_br && negb open_br) then None
  else if open_br && close_br && negb (bracketed_netloc_ok L net) then None
  else
    let '(url, _, frag) := Py.partition "#" url in
    let '(url, _, qry) := Py.partition "?" url in
    if Py.truthy net && negb (isascii net) && negb (nfkc_netloc_ok L net) then None
    else Some {| scheme := sch; netloc := net; path := url; params := "";
                 query := qry; fragment := frag |}.

(** [_splitparams(url)] *)
Definition splitparams (url : string) : string * string :=
  if Py.contains_char "/" url then
    let '(head, _, tail) := Py.rpartition "/" url in
    let '(a, found, b) := Py.partition ";" tail in
    if found then (head ++ "/" ++ a, b) else (url, "")
  else
    let '(a, _, b) := Py.partition ";" url in (a, b).

(** [urlparse(url)] *)
Definition urlparse (url : string) : option parse_result :=
  match urlsplit url with
  | None => None
  | Some r =>
      if bool_decide (scheme r ∈ uses_params) && Py.contains_char ";" (path r) then
        let '(p, prm) := splitparams (path r) in
        Some {| scheme := scheme r; netloc := netloc r; path := p; params := prm;
                query := query r; fragment := fragment r |}
      else Some r
  end.

(** The [hostname] property of a parse result. *)
Definition hostname (r : parse_result) : option string :=
  let '(_, _, hostinfo) := Py.rpartition "@" (netloc r) in
  let '(_, have_open_br, bracketed) := Py.partition "[" hostinfo in
  let host :=
    if have_open_br then fst (fst (Py.partition "]" bracketed))
    else fst (fst (Py.partition ":" hostinfo)) in
  if Py.truthy host then
    let '(h, percent, zone) := Py.partition "%" host in
    Some (Py.lower h ++ (if percent then "%" else "") ++ zone)
  else None.

(** [parse_qsl(qs)] with the default arguments. *)
Definition parse_qsl (qs : string) : list (string * string) :=
  if Py.truthy qs then
    flat_map
      (fun name_value =>
         let '(name, found, value) := Py.partition "=" name_value in
         if found && Py.truthy value then
           [ (unquote L (Py.replace_char "+" " " name),
              unquote L (Py.replace_char "+" " " value)) ]
         else [])
      (Py.split "&" qs)
  else [].

(** [parse_qs(qs).get('v', [None])[0]] *)
Definition first_v (qs : string) : option string :=
  option_map snd (find (fun nv => bool_decide (fst nv = "v")) (parse_qsl qs)).

Inductive result : Type :=
  | Raises (exc : string)
  | Returns (v : option string).

Definition is_youtube_host (h : option string) : bool :=
  bool_decide (h = Some "www.youtube.com") || bool_decide (h = Some "youtube.com").

(** [extract_video_id(url)] *)
Definition extract_video_id (url : string) : result :=
  match urlparse url with
  | None => Raises "ValueError"
  | Some parsed =>
      if is_youtube_host (hostname parsed) then
        if bool_decide (path parsed = "/watch") then Returns (first_v (query parsed))
        else if Py.startswith "/embed/" (path parsed) then
          match Py.split "/" (path parsed) !! 2%nat with
          | Some seg => Returns (Some seg)
          | None => Raises "IndexError"
          end
        else Returns None
      else if bool_decide (hostname parsed = Some "youtu.be") then
        Returns (Some (Py.drop 1 (path parsed)))
      else Returns None
  end.

(** How [main] goes on after reading its arguments: the usage error, the
    invalid-URL error, an exception nobody catches, or the transcript
    request for a video. *)
Inductive cli : Type :=
  | MissingArgument
  | InvalidURL (url : string)
  | Uncaught (exc : string)
  | Requests (video_id : string).

Definition main (argv : list string) : cli :=
  match argv with
  | _ :: url :: _ =>
      match extract_video_id url with
      | Raises e => Uncaught e
      | Returns None => InvalidURL url
      | Returns (Some v) => if Py.truthy v then Requests v else InvalidURL url
      end
  | _ => MissingArgument
  end.

(** The exit status where [main] ends before the request: [sys.exit(1)]
    for the two errors, and 1 as well for an uncaught exception. *)
Definition exit_status (c : cli) : option Z :=
  match c with
  | MissingArgument | InvalidURL _ | Uncaught _ => Some 1%Z
  | Requests _ => None
  end.

(** The three shapes the docstring of [extract_video_id] lists. *)
Definition supported_shape (url v : string) : Prop :=
  ∃ parsed, urlparse url = Some parsed
    ∧ ((is_youtube_host (hostname parsed) = true ∧ path parsed = "/watch"
        ∧ first_v (query parsed) = Some v)
       ∨ (is_youtube_host (hostname parsed) = true ∧ Py.startswith "/embed/" (path parsed) = true)
       ∨ (hostname parsed = Some "youtu.be" ∧ v = Py.drop 1 (path parsed))).

End WithPlatform.

(** A platform for running the model: every netloc passes the
    version-dependent checks, and percent escapes are left as they are. *)
Definition sample_platform : platform := {|
  unquote := fun s => s;
  bracketed_netloc_ok := fun _ => true;
  nfkc_netloc_ok := fun _ => true
|}.

(** [get_video_metadata(video_id)] *)
Record metadata : Type := {
  md_video_id : string;
  md_url : string
}.

Definition get_video_metadata (video_id : string) : metadata :=
  {| md_video_id := video_id; md_url := "https://www.youtube.com/watch?v=" ++ video_id |}.

(** The characters of a video identifier: ASCII letters, digits, hyphen
    and underscore. *)
Definition is_id_char (c : ascii) : bool :=
  is_ascii_alpha c || Re.isdigit c || Py.contains_char c "-_".

(** Proof steps for running the parser on a URL with a symbolic tail [v]:
    a test that does not mention [v] is evaluated. *)
Ltac eval_if v :=
  match goal with
  | |- context [if ?b then _ else _] =>
      lazymatch b with context [v] => fail | _ => idtac end;
      let r := eval vm_compute in b in change b with r
  end;
  cbv beta iota zeta.

Ltac proj := cbv beta iota zeta delta [scheme netloc path params query fragment].

Ltac eval_hostname :=
  match goal with
  | |- context [hostname ?r] =>
      let h := eval vm_compute in (hostname r) in change (hostname r) with h
  end.

End Youtube.

(* ===================================================================== *)
(** * Theorems *)
(* ===================================================================== *)

(** ** Labels *)

Section LabelFacts.
Import Labels.

Lemma first_seen_elem (x : string) (l : list string) :
  x ∈ first_seen l ↔ x ∈ l.
Proof.
  induction l as [|y r IH]; simpl; [done|].
  rewrite !elem_of_cons, list_elem_of_filter, IH.
  destruct (decide (x = y)); naive_solver.
Qed.

Lemma first_seen_NoDup (l : list string) : NoDup (first_seen l).
Proof.
  induction l as [|y r IH]; simpl; constructor.
  - rewrite list_elem_of_filter. naive_solver.
  - by apply NoDup_filter.
Qed.

Lemma canonicalize_loop_first_seen (labels out : list string) :
  canonicalize_loop out labels
  = (out ++ filter (fun y => y ∉ out) (first_seen (map canonical_name labels)))%list.
Proof.
  revert out. induction labels as [|lbl rest IH]; intros out; simpl.
  - by rewrite filter_nil, app_nil_r.
  - rewrite IH. set (l := canonical_name lbl).
    set (fs := first_seen (map canonical_name rest)).
    case_bool_decide as Hin.
    + rewrite filter_cons_False by naive_solver.
      f_equal. rewrite list_filter_filter.
      apply list_filter_iff. intros y. split; [|naive_solver].
      intros Hy. split; [done|]. intros ->. done.
    + rewrite filter_cons_True by done.
      rewrite <- app_assoc. simpl. do 2 f_equal.
      rewrite list_filter_filter.
      apply list_filter_iff. intros y.
      rewrite elem_of_app, list_elem_of_singleton. naive_solver.
Qed.

Lemma canonicalize_labels_first_seen (labels : list string) :
  canonicalize_labels labels = first_seen (map canonical_name labels).
Proof.
  unfold canonicalize_labels. rewrite canonicalize_loop_first_seen. simpl.
  induction (first_seen (map canonical_name labels)) as [|y r IH]; [done|].
  rewrite filter_cons_True by apply not_elem_of_nil. by f_equal.
Qed.

Lemma alias_table_entry (k v : string) :
  LABEL_ALIASES !! k = Some v → (k, v) ∈ ALIAS_TABLE.
Proof. apply elem_of_list_to_map_2. Qed.

Lemma alias_key_stripped (k v : string) :
  LABEL_ALIASES !! k = Some v → Py.strip k = k ∧ LABEL_ALIASES !! v = None.
Proof.
  intros H%alias_table_entry. unfold ALIAS_TABLE in H.
  repeat (apply elem_of_cons in H as [H|H]; [injection H as -> ->; by vm_compute|]).
  by apply elem_of_nil in H.
Qed.

Lemma canonical_name_not_alias (lbl : string) :
  LABEL_ALIASES !! canonical_name lbl = None.
Proof.
  unfold canonical_name.
  destruct (LABEL_ALIASES !! Py.strip lbl) as [v|] eqn:E; simpl; [|done].
  by apply alias_key_stripped in E as [_ ?].
Qed.

(** C9. [canonicalize_labels] sends every raw label through the alias table
    and keeps the first occurrence of each canonical name: when a legacy
    name and its canonical replacement are both in the input, the output
    has no duplicates, holds the canonical name exactly once, no longer
    holds the legacy name, and lists the canonical names in the order of
    their first occurrence. *)
Theorem canonicalize_labels_alias_dedup (labels : list string) (legacy canon : string) :
  LABEL_ALIASES !! legacy = Some canon →
  legacy ∈ labels →
  canon ∈ labels →
  NoDup (canonicalize_labels labels)
  ∧ count_occ string_dec (canonicalize_labels labels) canon = 1
  ∧ legacy ∉ (canonicalize_labels labels)
  ∧ canonicalize_labels labels = first_seen (map canonical_name labels).
Proof.
  intros Hal Hleg _.
  pose proof (canonicalize_labels_first_seen labels) as Heq.
  pose proof (first_seen_NoDup (map canonical_name labels)) as Hnd.
  rewrite <- Heq in Hnd.
  split_and!; [done| | |done].
  - apply NoDup_ListNoDup in Hnd.
    apply (proj1 (NoDup_count_occ' string_dec _) Hnd).
    apply list_elem_of_In. rewrite Heq, first_seen_elem.
    apply list_elem_of_fmap. exists legacy. split; [|done].
    unfold canonical_name.
    destruct (alias_key_stripped _ _ Hal) as [-> _]. by rewrite Hal.
  - rewrite Heq, first_seen_elem. intros (lbl & -> & _)%list_elem_of_fmap.
    by rewrite canonical_name_not_alias in Hal.
Qed.

Lemma canonicalize_labels_alias_dedup_witness :
  canonicalize_labels ["To-Embed"; "Inbox"; " Save "; "AI/Ingest"] = ["Save"; "Inbox"]
  ∧ count_occ string_dec
      (canonicalize_labels ["To-Embed"; "Inbox"; " Save "; "AI/Ingest"; "Save"]) "Save" = 1.
Proof.
  split; [by vm_compute|].
  apply (canonicalize_labels_alias_dedup
           ["To-Embed"; "Inbox"; " Save "; "AI/Ingest"; "Save"] "To-Embed" "Save").
  - by vm_compute.
  - apply list_elem_of_In. simpl. tauto.
  - apply list_elem_of_In. simpl. tauto.
Defined.

End LabelFacts.

(** ** SHA-256 test vectors (FIPS 180-4) *)

Example sha256_constants :
  length Sha256.K = 64 ∧ nth 0 Sha256.K 0%Z = 0x428a2f98%Z
  ∧ nth 63 Sha256.K 0%Z = 0xc67178f2%Z ∧ nth 7 Sha256.H0 0%Z = 0x5be0cd19%Z.
Proof. by vm_compute. Qed.

Example sha256_abc :
  Sha256.hexdigest (Py.utf8 "abc")
  = "ba7816bf8f01cfea414140de5dae2223b00361a396177a9cb410ff61f20015ad".
Proof. by vm_compute. Qed.

Example sha256_two_blocks :
  Sha256.hexdigest
    (Py.utf8 "abcdbcdecdefdefgefghfghighijhijkijkljklmklmnlmnomnopnopq")
  = "248d6a61d20638b8e5c026930c3e6039a33ce45964ff2167f6ecedd419db06c1".
Proof. by vm_compute. Qed.

(** ** MD5 test vectors (RFC 1321) *)

Example md5_abc :
  Md5.hexdigest (Py.utf8 "abc") = "900150983cd24fb0d6963f7d28e17f72".
Proof. by vm_compute. Qed.

Example md5_empty :
  Md5.hexdigest [] = "d41d8cd98f00b204e9800998ecf8427e".
Proof. by vm_compute. Qed.

(** ** Serialisation and checksum *)

Section ChecksumFacts.
Import Json.

Example dumps_sorted_sample :
  dumps true (JDict [("to", JList [JDict [("name", JStr ("A " ++ DQ ++ "b" ++ DQ));
                                          ("email", JStr "a@x")]]);
                     ("gm_msgid", JInt 17); ("cc", JList []); ("gm_thrid", JNull)])
  = Py.dq "{'cc': [], 'gm_msgid': 17, 'gm_thrid': null, 'to': [{'email': 'a@x', 'name': 'A \'b\''}]}".
Proof. by vm_compute. Qed.

#[local] Instance key_le_trans : Transitive key_le.
Proof. intros a b c. unfold key_le. apply transitivity. Qed.

#[local] Instance key_le_total : Total key_le.
Proof. intros a b. unfold key_le. apply total, _. Qed.

Definition rendered_items (d : list (string * json)) : list (string * string) :=
  map (fun kv => (fst kv, dumps true (snd kv))) d.

Lemma dumps_dict (d : list (string * json)) :
  dumps true (JDict d)
  = "{" ++ Py.join ", " (map render_item (sort_items (rendered_items d))) ++ "}".
Proof.
  simpl. do 5 f_equal.
  induction d as [|[k x] r IH]; simpl; [done|]. by f_equal.
Qed.

Lemma rendered_items_keys (d : list (string * json)) :
  map fst (rendered_items d) = map fst d.
Proof. unfold rendered_items. rewrite map_map. done. Qed.

Lemma unique_key_item {V} (l : list (string * V)) (x y : string * V) :
  NoDup (map fst l) → x ∈ l → y ∈ l → fst x = fst y → x = y.
Proof.
  induction l as [|z l IH]; simpl; intros Hnd Hx Hy Hk.
  { by apply elem_of_nil in Hx. }
  apply NoDup_cons in Hnd as [Hz Hnd].
  apply elem_of_cons in Hx as [->|Hx]; apply elem_of_cons in Hy as [->|Hy]; auto.
  - exfalso. apply Hz. rewrite Hk. apply list_elem_of_fmap. by exists y.
  - exfalso. apply Hz. rewrite <- Hk. apply list_elem_of_fmap. by exists x.
Qed.

Lemma sort_items_permutation (l1 l2 : list (string * string)) :
  NoDup (map fst l1) → l1 ≡ₚ l2 → sort_items l1 = sort_items l2.
Proof.
  intros Hnd Hp. unfold sort_items.
  apply (Sorted_unique_strong key_le).
  - intros x1 x2 H1 H2 H12 H21.
    apply (unique_key_item l1); [done| | |].
    + by rewrite merge_sort_Permutation in H1.
    + by rewrite merge_sort_Permutation, <- Hp in H2.
    + unfold key_le in *. by apply (anti_symm String.le).
  - apply Sorted_merge_sort, _.
  - apply Sorted_merge_sort, _.
  - by rewrite !merge_sort_Permutation.
Qed.

(** C3. The checksum does not depend on the order in which the fields of
    the payload dictionary were inserted: two payloads with the same items
    (a dictionary has pairwise distinct keys) in any two orders serialise
    to the same text and so have the same digest. *)
Theorem checksum_for_order_independent (p1 p2 : list (string * json)) :
  NoDup (map fst p1) →
  p1 ≡ₚ p2 →
  dumps true (JDict p1) = dumps true (JDict p2) ∧ checksum_for p1 = checksum_for p2.
Proof.
  intros Hnd Hp.
  assert (dumps true (JDict p1) = dumps true (JDict p2)) as Heq.
  { rewrite !dumps_dict. do 4 f_equal. apply sort_items_permutation.
    - by rewrite rendered_items_keys.
    - unfold rendered_items. by apply Permutation_map. }
  split; [done|]. unfold checksum_for. by rewrite Heq.
Qed.

Lemma checksum_for_order_independent_witness :
  checksum_for [("subject", JStr "Hi"); ("gm_msgid", JInt 7); ("labels", JList [JStr "Save"])]
  = checksum_for [("labels", JList [JStr "Save"]); ("subject", JStr "Hi"); ("gm_msgid", JInt 7)].
Proof.
  apply (checksum_for_order_independent
           [("subject", JStr "Hi"); ("gm_msgid", JInt 7); ("labels", JList [JStr "Save"])]
           [("labels", JList [JStr "Save"]); ("subject", JStr "Hi"); ("gm_msgid", JInt 7)]).
  - simpl. apply NoDup_ListNoDup. repeat constructor; simpl; intuition discriminate.
  - change [("labels", JList [JStr "Save"]); ("subject", JStr "Hi"); ("gm_msgid", JInt 7)]
      with ([("labels", JList [JStr "Save"])] ++ [("subject", JStr "Hi"); ("gm_msgid", JInt 7)])%list.
    apply (Permutation_app_comm [("subject", JStr "Hi"); ("gm_msgid", JInt 7)]
                                [("labels", JList [JStr "Save"])]).
Defined.

End ChecksumFacts.

(** ** The normaliser *)

Section NormaliserFacts.
Import Datetime Json Labels Ingest.

Example astimezone_fixed_sample :
  isoformat (astimezone_fixed (-18000) (mkdt 2026 1 1 3 30 0 0 (Some 3600%Z)))
  = "2025-12-31T21:30:00-05:00".
Proof. by vm_compute. Qed.

Example slugify_sample :
  slugify "  Re: Q3 -- Budget (final)!  " = "re-q3-budget-final".
Proof. by vm_compute. Qed.

Example build_markdown_sample_path :
  attempt_map (fun r => fst (fst r))
    (build_markdown sample_platform "/vault" msg_sample ["To-Embed"] (Some 1234567890%Z) None
       None clock_a clock_b)
  = Gives "/vault/Emails/2026/Q126/weekly-sync-567890.md".
Proof. by vm_compute. Qed.

Example build_markdown_sample_checksum :
  attempt_map (fun r => m_checksum (snd r))
    (build_markdown sample_platform "/vault" msg_sample ["Save"] (Some 42%Z) None
       None clock_a clock_b)
  = Gives "sha256:bbe89651b562ede5cbba79ed88ca7d77b47566b5c465bc944b6999fcdc17eaa6".
Proof. by vm_compute. Qed.

Lemma parsedate_to_dt_clock_free (L : platform) (hdr : option string)
    (fallback : option datetime) (now1 now2 : datetime) :
  is_Some fallback
  ∨ (∃ h d, hdr = Some h ∧ Py.truthy h = true ∧ parsedate_to_datetime L h = Parsed d) →
  parsedate_to_dt L hdr fallback now1 = parsedate_to_dt L hdr fallback now2.
Proof.
  intros [[f ->] | (h & d & -> & Ht & Hp)]; unfold parsedate_to_dt.
  - destruct hdr as [h|]; [|done]. destruct (Py.truthy h); [|done].
    by destruct (parsedate_to_datetime L h).
  - by rewrite Ht, Hp.
Qed.

(** C4, as the code has it. The digest is taken over the payload of
    subject, participants, date, labels, body, document type and
    identifiers; the clock read for [ingested_at] is never part of it, and
    the clock read by [parsedate_to_iso] is not used as soon as the message
    has an INTERNALDATE or a Date header that parses: two runs at any two
    times then compute the same checksum (or raise the same exception
    before they have one). *)
Theorem checksum_excludes_ingestion_time (L : platform) (vault_root : string)
    (msg : message) (gm_labels : list string) (gm_msgid gm_thrid : option Z)
    (internaldate : option datetime) (now1 ing1 now2 ing2 : datetime) :
  is_Some internaldate
  ∨ (∃ h d, h_date msg = Some h ∧ Py.truthy h = true
            ∧ parsedate_to_datetime L h = Parsed d) →
  attempt_map (fun r => m_checksum (snd r))
    (build_markdown L vault_root msg gm_labels gm_msgid gm_thrid internaldate now1 ing1)
  = attempt_map (fun r => m_checksum (snd r))
      (build_markdown L vault_root msg gm_labels gm_msgid gm_thrid internaldate now2 ing2).
Proof.
  intros H. unfold build_markdown.
  rewrite (parsedate_to_dt_clock_free L _ _ now1 now2 H).
  destruct (parsedate_to_dt L (h_date msg) internaldate now2) as [e|date_dt]; [done|].
  destruct (body_text msg) as [e|body_md]; [done|].
  by destruct (astimezone L date_dt) as [e|d_local].
Qed.

Lemma checksum_excludes_ingestion_time_witness :
  attempt_map (fun r => m_checksum (snd r))
    (build_markdown sample_platform "/vault" msg_sample ["Save"] (Some 42%Z) None
       None clock_a clock_a)
  = attempt_map (fun r => m_checksum (snd r))
      (build_markdown sample_platform "/vault" msg_sample ["Save"] (Some 42%Z) None
         None clock_b clock_b).
Proof.
  apply checksum_excludes_ingestion_time. right.
  exists "Thu, 01 Jan 2026 10:00:00 +0100", (mkdt 2026 1 1 10 0 0 0 (Some 3600%Z)).
  split_and!; reflexivity.
Defined.

(** C4 as stated fails: a message with no Date header and no INTERNALDATE
    gets the clock of the run as its date, and the two runs hash
    differently. *)
Lemma checksum_depends_on_clock_when_undated :
  (∃ c1 c2,
     attempt_map (fun r => m_checksum (snd r))
       (build_markdown sample_platform "/vault" msg_undated ["Save"] (Some 42%Z) None
          None clock_a clock_a) = Gives c1
     ∧ attempt_map (fun r => m_checksum (snd r))
         (build_markdown sample_platform "/vault" msg_undated ["Save"] (Some 42%Z) None
            None clock_b clock_b) = Gives c2
     ∧ c1 ≠ c2).
Proof.
  eexists _, _. split_and!; [by vm_compute|by vm_compute|].
  apply (bool_decide_eq_false_1 _). by vm_compute.
Qed.

End NormaliserFacts.


(** ** Dates and instants *)

Section DatetimeFacts.
Import Datetime.
Local Open Scope Z_scope.

Lemma all_below_spec (n : nat) (p : Z → bool) (lo : Z) :
  all_below n p lo = true → ∀ z, lo <= z < lo + 2 ^ Z.of_nat n → p z = true.
Proof.
  revert lo. induction n as [|n IH]; intros lo H z Hz.
  - simpl in Hz. by replace z with lo by lia.
  - cbn [all_below] in H. apply andb_prop in H as [H1 H2].
    replace (Z.of_nat (S n)) with (Z.of_nat n + 1) in Hz by lia.
    rewrite Z.pow_add_r in Hz by lia.
    destruct (Z_lt_dec z (lo + 2 ^ Z.of_nat n)).
    + apply (IH lo H1). lia.
    + apply (IH _ H2). lia.
Qed.

Lemma era_dates_checked :
  all_below 18 (λ doe, (146097 <=? doe) || era_date_ok doe) 0 = true.
Proof. by vm_compute. Qed.

Lemma era_date_inverse (doe : Z) :
  0 <= doe < 146097 → era_date_ok doe = true.
Proof.
  intros H. pose proof (all_below_spec _ _ _ era_dates_checked doe) as Hall.
  simpl in Hall. destruct (Z.leb_spec 146097 doe); [lia|].
  apply Hall. change (2 ^ Z.of_nat 18) with 262144. lia.
Qed.

Lemma days_from_civil_from_days (z : Z) :
  let '(y, m, d) := civil_from_days z in days_from_civil y m d = z.
Proof.
  unfold civil_from_days.
  set (era := (z + 719468) / 146097).
  set (doe := z + 719468 - era * 146097).
  assert (0 <= doe < 146097) as Hdoe.
  { unfold doe, era. pose proof (Z.div_mod (z + 719468) 146097).
    pose proof (Z.mod_pos_bound (z + 719468) 146097). lia. }
  pose proof (era_date_inverse doe Hdoe) as Hok. unfold era_date_ok, era_date in Hok.
  set (yoe := (doe - doe / 1460 + doe / 36524 - doe / 146096) / 365) in *.
  set (doy := doe - (365 * yoe + yoe / 4 - yoe / 100)) in *.
  set (mp := (5 * doy + 2) / 153) in *.
  set (m := if mp <? 10 then mp + 3 else mp - 9) in *.
  set (d := doy - (153 * mp + 2) / 5 + 1) in *.
  repeat (apply andb_true_iff in Hok as [Hok ?]).
  unfold days_from_civil.
  assert ((if m <=? 2 then (if m <=? 2 then yoe + era * 400 + 1 else yoe + era * 400) - 1
           else (if m <=? 2 then yoe + era * 400 + 1 else yoe + era * 400))
          = yoe + era * 400) as ->.
  { destruct (m <=? 2); lia. }
  assert ((yoe + era * 400) / 400 = era) as ->.
  { rewrite Z.div_add by lia. rewrite Z.div_small by lia. lia. }
  replace (yoe + era * 400 - era * 400) with yoe by lia.
  unfold era_day in *. unfold doe in *. lia.
Qed.

Lemma instant_at_offset (off t : Z) : instant 0 (at_offset off t) = t.
Proof.
  unfold at_offset.
  set (secs := t / 1000000 + off).
  pose proof (days_from_civil_from_days (secs / 86400)) as Hd.
  destruct (civil_from_days (secs / 86400)) as [[y m] d].
  unfold instant. simpl. rewrite Hd.
  set (sod := secs mod 86400).
  assert (0 <= sod < 86400) as Hsod by (apply Z.mod_pos_bound; lia).
  assert (sod / 3600 * 3600 + sod / 60 mod 60 * 60 + sod mod 60 = sod) as Hs.
  { clearbody sod.
    pose proof (Z_div_mod_eq_full sod 60). pose proof (Z_div_mod_eq_full (sod / 60) 60).
    assert (sod / 3600 = sod / 60 / 60) as -> by (by rewrite Z.div_div by lia). lia. }
  pose proof (Z_div_mod_eq_full secs 86400) as H1.
  pose proof (Z_div_mod_eq_full t 1000000) as H2.
  fold sod in H1. clearbody sod. subst secs. lia.
Qed.

Lemma at_offset_tzoffset (off t : Z) : tzoffset (at_offset off t) = Some off.
Proof. unfold at_offset. by destruct (civil_from_days _) as [[y m] d]. Qed.

Lemma to_utc_instant (d u : datetime) :
  to_utc d = Some u → tzoffset u = Some 0 ∧ instant 0 u = instant 0 d.
Proof.
  unfold to_utc. destruct (_ && _); [|done]. intros [= <-].
  split; [apply at_offset_tzoffset|apply instant_at_offset].
Qed.

Lemma astimezone_local_instant (off : Z) (d u : datetime) :
  astimezone_local off d = Some u → tzoffset u = Some off ∧ instant 0 u = instant off d.
Proof.
  unfold astimezone_local. destruct (_ && _); [|done]. intros [= <-].
  split; [apply at_offset_tzoffset|apply instant_at_offset].
Qed.

End DatetimeFacts.

(** ** The ingestion loop *)

Section IngestFacts.
Import Datetime Json Labels Ingest.

(** *** Frame lemmas: which step touches which part of the state *)

Lemma with_fs_id (s : state) : with_fs (fs s) s = s.
Proof. by destruct s. Qed.

Lemma with_fs_with_fs (w w' : world) (s : state) :
  with_fs w (with_fs w' s) = with_fs w s.
Proof. done. Qed.

Lemma logging_with_fs (w : world) (lv : level) (text : string) (s : state) :
  logging lv text (with_fs w s) = with_fs w (logging lv text s).
Proof. done. Qed.

Lemma update_index_with_fs (w : world) (s : state) (g : option Z) (m target : string) :
  update_index (with_fs w s) g m target = with_fs w (update_index s g m target).
Proof.
  unfold update_index. simpl.
  destruct (truthy_id g); simpl; repeat (case_bool_decide; simpl);
    destruct (Py.truthy m); simpl; repeat (case_bool_decide; simpl); try done; congruence.
Qed.

Lemma update_legacy_with_fs (a : args) (w : world) (r : fetched) (m : meta)
    (target : string) (s : state) :
  update_legacy a r m target (with_fs w s)
  = with_fs_outcome w (update_legacy a r m target s).
Proof.
  unfold update_legacy. destruct (relative_to _ _); [|done]. simpl.
  by destruct (legacy_state s !! _) as [e|]; simpl; [destruct (_ || _)|].
Qed.

Lemma update_index_fs (s : state) (g : option Z) (m target : string) :
  fs (update_index s g m target) = fs s.
Proof.
  unfold update_index.
  destruct (truthy_id g); simpl; repeat (case_bool_decide; simpl);
    destruct (Py.truthy m); simpl; repeat (case_bool_decide; simpl); done.
Qed.

Lemma update_legacy_fs (a : args) (r : fetched) (m : meta) (target : string) (s : state) :
  fs (final (update_legacy a r m target s)) = fs s.
Proof.
  unfold update_legacy. destruct (relative_to _ _); [|done]. simpl.
  by destruct (legacy_state s !! _) as [e|]; simpl; [destruct (_ || _)|].
Qed.

Lemma find_existing_fs (L : platform) (a : args) (t : tick) (s : state) (g : option Z)
    (m : string) :
  fs (fst (find_existing L a t s g m)) = fs s.
Proof. unfold find_existing. by destruct (lookup_existing _ _ _). Qed.

Lemma resolve_fs (L : platform) (a : args) (t : tick) (s : state) (r : fetched)
    (msg : message) :
  fs (fst (fst (fst (fst (resolve L a t s r msg))))) = fs s.
Proof.
  unfold resolve.
  pose proof (find_existing_fs L a t s (truthy_id (x_gm_msgid r)) (message_id_of msg)) as H.
  destruct (find_existing _ _ _ _ _ _) as [s1 ex].
  destruct (built L a t r msg) as [[ab md] m]. simpl in *. done.
Qed.

Lemma resolve_dry_run (L : platform) (a : args) (b : bool) (t : tick) (s : state)
    (r : fetched) (msg : message) :
  resolve L (set_dry_run b a) t s r msg = resolve L a t s r msg.
Proof. done. Qed.

Lemma finish_with_fs (a : args) (w : world) (r : fetched) (msg : message) (m : meta)
    (target : string) (s : state) :
  finish a r msg m target (with_fs w s) = with_fs_outcome w (finish a r msg m target s).
Proof.
  unfold finish. rewrite update_index_with_fs, update_legacy_with_fs.
  by destruct (update_legacy _ _ _ _ _).
Qed.

Lemma finish_fs (a : args) (r : fetched) (msg : message) (m : meta) (target : string)
    (s : state) :
  fs (final (finish a r msg m target s)) = fs s.
Proof.
  unfold finish.
  pose proof (update_legacy_fs a r m target
                (update_index s (truthy_id (x_gm_msgid r)) (message_id_of msg) target)) as H.
  rewrite update_index_fs in H.
  by destruct (update_legacy _ _ _ _ _).
Qed.

Lemma finish_dry_run (a : args) (b : bool) (r : fetched) (msg : message) (m : meta)
    (target : string) (s : state) :
  finish (set_dry_run b a) r msg m target s = finish a r msg m target s.
Proof. done. Qed.

Example first_run_sample :
  let s := final (main sample_platform args_real tick_a (fun _ => tick_a) empty_world [rec_sample]) in
  map snd (log s)
  = [ "Dedupe index empty; scanning recent notes to seed it...";
      "Matched 1 messages";
      "Write: /vault/Emails/2026/Q126/weekly-sync-567890.md";
      "Markdown-only mode: skipping embedding for /vault/Emails/2026/Q126/weekly-sync-567890.md";
      "Done. Processed 1 message(s) - MARKDOWN ONLY (no embedding)." ]
  ∧ written (fs s)
    = [ "/vault/.imap_ingest_state.json"; "/vault/.imap_ingest_index.json";
        "/vault/Emails/2026/Q126/weekly-sync-567890.md" ].
Proof. by vm_compute. Qed.

Example second_run_sample :
  let w1 := settle (fs (final (main sample_platform args_real tick_a (fun _ => tick_a)
                                empty_world [rec_sample]))) in
  let s := final (main sample_platform args_real tick_b (fun _ => tick_b) w1 [rec_sample]) in
  map snd (log s)
  = [ "Matched 1 messages";
      "Duplicate/no-change: /vault/Emails/2026/Q126/weekly-sync-567890.md";
      "Markdown-only mode: skipping embedding for /vault/Emails/2026/Q126/weekly-sync-567890.md";
      "Done. Processed 1 message(s) - MARKDOWN ONLY (no embedding)." ]
  ∧ written (fs s) = [ "/vault/.imap_ingest_state.json" ].
Proof. by vm_compute. Qed.

(** *** The dedupe step *)

Lemma resolve_parts (L : platform) (a : args) (t : tick) (s : state) (r : fetched)
    (msg : message) :
  ∃ md, resolve L a t s r msg
        = (resolved_state L a t s r msg, resolved_from_index L a t s r msg,
           resolved_target L a t s r msg, md, resolved_meta L a t s r msg).
Proof.
  unfold resolved_state, resolved_from_index, resolved_target, resolved_meta.
  destruct (resolve L a t s r msg) as [[[[s1 d] target] md] m]. by exists md.
Qed.

Lemma resolve_eq (L : platform) (a : args) (t : tick) (s : state) (r : fetched)
    (msg : message) :
  resolve L a t s r msg
  = (resolved_state L a t s r msg, resolved_from_index L a t s r msg,
     resolved_target L a t s r msg, resolved_note L a t s r msg,
     resolved_meta L a t s r msg).
Proof.
  unfold resolved_state, resolved_from_index, resolved_target, resolved_note, resolved_meta.
  by destruct (resolve L a t s r msg) as [[[[s1 d] target] md] m].
Qed.

Lemma truthy_id_idem (x : option Z) : truthy_id (truthy_id x) = truthy_id x.
Proof. destruct x as [z|]; simpl; [|done]. destruct (z =? 0)%Z eqn:E; simpl; by rewrite ?E. Qed.

Lemma truthy_id_Some (x : option Z) (g : Z) : truthy_id x = Some g → truthy_id (Some g) = Some g.
Proof. intros H. rewrite <- H. apply truthy_id_idem. Qed.

Lemma lookup_existing_primary (i : index) (gm : option Z) (g : Z) (m p : string) :
  truthy_id gm = Some g → by_gm_msgid i !! str_of_Z g = Some p →
  lookup_existing i gm m = Some p.
Proof. intros Hg Hp. unfold lookup_existing. rewrite Hg. simpl. by rewrite Hp. Qed.

Lemma find_existing_hit (L : platform) (a : args) (t : tick) (s : state) (gm : option Z)
    (m p : string) :
  lookup_existing (idx s) gm m = Some p → find_existing L a t s gm m = (s, Some p).
Proof. intros H. unfold find_existing. by rewrite H. Qed.

Lemma resolve_hit (L : platform) (a : args) (t : tick) (s : state) (r : fetched)
    (msg : message) (p : string) :
  lookup_existing (idx s) (truthy_id (x_gm_msgid r)) (message_id_of msg) = Some p →
  resolved_state L a t s r msg = s
  ∧ resolved_from_index L a t s r msg = true
  ∧ resolved_target L a t s r msg = p.
Proof.
  intros H. unfold resolved_state, resolved_from_index, resolved_target, resolve.
  rewrite (find_existing_hit L a t s _ _ p H).
  destruct (built _ _ _ _ _) as [[ab md] m]. simpl.
  by split_and!.
Qed.

(** The index after the dedupe step: the index before it, or that index
    with the scan merged over it. *)
Lemma resolved_state_idx (L : platform) (a : args) (t : tick) (s : state) (r : fetched)
    (msg : message) :
  idx (resolved_state L a t s r msg) = idx s
  ∨ (lookup_existing (idx s) (truthy_id (x_gm_msgid r)) (message_id_of msg) = None
     ∧ idx (resolved_state L a t s r msg)
       = merge_seeded (idx s) (scan_recent_for_existing L (vault_root a) (now_year t) (fs s))).
Proof.
  unfold resolved_state, resolve, find_existing.
  destruct (lookup_existing (idx s) _ _) eqn:E;
    destruct (built _ _ _ _ _) as [[ab md] m]; simpl; auto.
Qed.

(** The target is looked up in the index the dedupe step leaves. *)
Lemma resolved_target_lookup (L : platform) (a : args) (t : tick) (s : state) (r : fetched)
    (msg : message) (p : string) :
  lookup_existing (idx (resolved_state L a t s r msg)) (truthy_id (x_gm_msgid r))
    (message_id_of msg) = Some p →
  resolved_target L a t s r msg = p.
Proof.
  unfold resolved_state, resolved_target, resolve, find_existing.
  destruct (lookup_existing (idx s) _ _) eqn:E;
    destruct (built _ _ _ _ _) as [[ab md] m]; simpl.
  - intros H. rewrite E in H. by injection H.
  - by intros ->.
Qed.

Lemma update_index_primary (s : state) (gm : option Z) (g : Z) (m target : string) :
  truthy_id gm = Some g →
  by_gm_msgid (idx (update_index s gm m target)) !! str_of_Z g = Some target.
Proof.
  intros Hg. unfold update_index. rewrite Hg.
  case_bool_decide as H1; destruct (Py.truthy m); simpl; repeat case_bool_decide; simpl;
    try done; by rewrite lookup_insert_eq.
Qed.

Lemma update_index_primary_other (s : state) (gm : option Z) (m target key p : string) :
  by_gm_msgid (idx s) !! key = Some p →
  (∀ g, truthy_id gm = Some g → str_of_Z g = key → target = p) →
  by_gm_msgid (idx (update_index s gm m target)) !! key = Some p.
Proof.
  intros Hp Hsame. unfold update_index.
  assert (by_gm_msgid (idx (match truthy_id gm with
            | Some g =>
                if bool_decide (by_gm_msgid (idx s) !! str_of_Z g = Some target) then s
                else mkstate (mkindex (<[str_of_Z g := target]> (by_gm_msgid (idx s)))
                                      (by_message_id (idx s)))
                             true (legacy_state s) (fs s) (log s) (processed s)
            | None => s
            end)) !! key = Some p) as H1.
  { destruct (truthy_id gm) as [g|] eqn:Hg; [|done].
    case_bool_decide; [done|]. simpl.
    destruct (decide (str_of_Z g = key)) as [Hk|Hk].
    - rewrite Hk, lookup_insert_eq. f_equal. by apply (Hsame g).
    - by rewrite lookup_insert_ne. }
  destruct (Py.truthy m); [|done]. case_bool_decide; done.
Qed.

Lemma logging_idx (lv : level) (text : string) (s : state) : idx (logging lv text s) = idx s.
Proof. done. Qed.

Lemma write_or_skip_idx (a : args) (s1 s3 : state) (d : bool) (target md : string) (m : meta) :
  write_or_skip a s1 d target md m = Done s3 → idx s3 = idx s1.
Proof.
  unfold write_or_skip. case_bool_decide; [by intros [= <-]|].
  destruct (dry_run a); [by intros [= <-]|].
  destruct (write_text _ _ _); [by intros [= <-]|done].
Qed.

Lemma finish_idx (a : args) (r : fetched) (msg : message) (m : meta) (target : string)
    (s3 s' : state) :
  finish a r msg m target s3 = Done s' →
  idx s' = idx (update_index s3 (truthy_id (x_gm_msgid r)) (message_id_of msg) target).
Proof.
  unfold finish, update_legacy. destruct (relative_to _ _); [|done].
  destruct (legacy_state _ !! _) as [e|]; [destruct (_ || _)|]; by intros [= <-].
Qed.

(** A record that is processed leaves its target under its X-GM-MSGID. *)
Lemma process_indexes_primary (L : platform) (a : args) (t : tick) (s s' : state)
    (r : fetched) (msg : message) (g : Z) :
  raw r = Parses msg →
  wants_processing (canonicalize_labels (x_gm_labels r)) = true →
  truthy_id (x_gm_msgid r) = Some g →
  process L a t s r = Done s' →
  by_gm_msgid (idx s') !! str_of_Z g = Some (resolved_target L a t s r msg).
Proof.
  intros Hraw Hw Hg. unfold process. rewrite Hraw, Hw. simpl.
  destruct (resolve_parts L a t s r msg) as [md ->].
  destruct (build_for L a t r msg) as [e|b]; [done|].
  destruct (write_or_skip _ _ _ _ _ _) as [s3|e s3] eqn:Hws; [|done].
  intros Hf%finish_idx. rewrite Hf.
  apply update_index_primary. by rewrite truthy_id_idem.
Qed.

Lemma process_keeps_primary (L : platform) (a : args) (t : tick) (s s' : state)
    (r : fetched) (key p : string) :
  (∀ msg q,
     raw r = Parses msg →
     wants_processing (canonicalize_labels (x_gm_labels r)) = true →
     lookup_existing (idx s) (truthy_id (x_gm_msgid r)) (message_id_of msg) = None →
     by_gm_msgid (scan_recent_for_existing L (vault_root a) (now_year t) (fs s)) !! key
       = Some q →
     q = p) →
  by_gm_msgid (idx s) !! key = Some p →
  process L a t s r = Done s' →
  by_gm_msgid (idx s') !! key = Some p.
Proof.
  intros Hscan Hp. unfold process.
  destruct (raw r) as [|e|msg] eqn:Hraw; [by intros [= <-]..|].
  destruct (wants_processing _) eqn:Hw; simpl; [|by intros [= <-]].
  destruct (resolve_parts L a t s r msg) as [md ->].
  destruct (build_for L a t r msg) as [e|b]; [done|].
  destruct (write_or_skip _ _ _ _ _ _) as [s3|e s3] eqn:Hws; [|done].
  apply write_or_skip_idx in Hws.
  intros Hf%finish_idx. rewrite Hf.
  assert (by_gm_msgid (idx (resolved_state L a t s r msg)) !! key = Some p) as Hp1.
  { destruct (resolved_state_idx L a t s r msg) as [->|[Hnone ->]]; [done|].
    unfold merge_seeded. simpl. rewrite lookup_union.
    destruct (by_gm_msgid (scan_recent_for_existing _ _ _ _) !! key) as [q|] eqn:Hq.
    - rewrite (Hscan msg q eq_refl eq_refl Hnone eq_refl), Hp. done.
    - by rewrite Hp. }
  apply update_index_primary_other; [by rewrite Hws|].
  intros g Hg Hk. rewrite truthy_id_idem in Hg.
  apply resolved_target_lookup.
  apply (lookup_existing_primary _ _ g); [by rewrite truthy_id_idem|]. by rewrite Hk.
Qed.

(** The scans of a run: the fallback scan a record makes when neither of
    its identifiers is in the index, on the store as the records before it
    have left it. *)
Lemma loop_keeps_primary (L : platform) (a : args) (clock : Z → tick) (rs : list fetched)
    (s s' : state) (key p : string) :
  (∀ pre r post sk msg q,
     rs = (pre ++ r :: post)%list →
     loop L a clock s pre = Done sk →
     raw r = Parses msg →
     wants_processing (canonicalize_labels (x_gm_labels r)) = true →
     lookup_existing (idx sk) (truthy_id (x_gm_msgid r)) (message_id_of msg) = None →
     by_gm_msgid (scan_recent_for_existing L (vault_root a) (now_year (clock (uid r))) (fs sk))
       !! key = Some q →
     q = p) →
  by_gm_msgid (idx s) !! key = Some p →
  loop L a clock s rs = Done s' →
  by_gm_msgid (idx s') !! key = Some p.
Proof.
  revert s. induction rs as [|r rest IH]; intros s Hscan Hp; simpl.
  - by intros [= <-].
  - destruct (process L a (clock (uid r)) s r) as [s1|e s1] eqn:Hpr; [|done].
    apply IH.
    + intros pre r' post sk msg q -> Hl.
      apply (Hscan (r :: pre) r' post sk msg q); [done|]. simpl. by rewrite Hpr.
    + apply (process_keeps_primary L a (clock (uid r)) s s1 r); [|done..].
      intros msg q Hraw Hw Hnone Hq. by apply (Hscan [] r rest s msg q).
Qed.

Lemma write_or_skip_files (a : args) (s1 : state) (d : bool) (target md : string) (m : meta)
    (p : string) :
  p ≠ target →
  files (fs (final (write_or_skip a s1 d target md m))) !! p = files (fs s1) !! p.
Proof.
  intros Hne. unfold write_or_skip. case_bool_decide; [done|].
  destruct (dry_run a); [done|]. unfold write_text. simpl.
  case_bool_decide; simpl; [done|]. by rewrite lookup_insert_ne.
Qed.

(** A step writes at the target of its record and nowhere else. *)
Lemma process_files_frame (L : platform) (a : args) (t : tick) (s : state) (r : fetched)
    (msg : message) (p : string) :
  raw r = Parses msg →
  p ≠ resolved_target L a t s r msg →
  files (fs (final (process L a t s r))) !! p = files (fs s) !! p.
Proof.
  intros Hraw Hne. unfold process. rewrite Hraw. destruct (negb _); [done|].
  pose proof (resolve_fs L a t s r msg) as Hfs.
  destruct (resolve_parts L a t s r msg) as [md Hres]. rewrite Hres in *. simpl in Hfs.
  pose proof (write_or_skip_files a (resolved_state L a t s r msg)
                (resolved_from_index L a t s r msg) _ md (resolved_meta L a t s r msg) p Hne)
    as Hw.
  destruct (build_for L a t r msg) as [e|b]; [simpl; by rewrite Hfs|].
  destruct (write_or_skip _ _ _ _ _ _) as [s3|e s3]; simpl in Hw.
  - rewrite finish_fs. by rewrite Hw, Hfs.
  - simpl. by rewrite Hw, Hfs.
Qed.

(** C1, as the code has it.  Within a run, two records with the same
    X-GM-MSGID resolve to the same target location whatever their
    Message-IDs and whatever is processed between them, as long as no
    fallback scan made by the records between them reports another
    location for that identifier.  The scans are those of the run: the
    one a record makes, on the store as the records before it have left
    it, when it is processed and neither of its identifiers is in the
    index.  The second record finds the location in the index, under its
    primary identifier, and its step touches no file but that one. *)
Theorem same_primary_id_same_target (L : platform) (a : args) (clock : Z → tick)
    (s s' : state) (r1 r2 : fetched) (msg1 msg2 : message) (mid : list fetched) (g : Z) :
  raw r1 = Parses msg1 →
  wants_processing (canonicalize_labels (x_gm_labels r1)) = true →
  raw r2 = Parses msg2 →
  truthy_id (x_gm_msgid r1) = Some g →
  truthy_id (x_gm_msgid r2) = Some g →
  (∀ pre r post sk msg q,
     mid = (pre ++ r :: post)%list →
     loop L a clock s (r1 :: pre) = Done sk →
     raw r = Parses msg →
     wants_processing (canonicalize_labels (x_gm_labels r)) = true →
     lookup_existing (idx sk) (truthy_id (x_gm_msgid r)) (message_id_of msg) = None →
     by_gm_msgid (scan_recent_for_existing L (vault_root a) (now_year (clock (uid r))) (fs sk))
       !! str_of_Z g = Some q →
     q = resolved_target L a (clock (uid r1)) s r1 msg1) →
  loop L a clock s (r1 :: mid) = Done s' →
  resolved_target L a (clock (uid r2)) s' r2 msg2
    = resolved_target L a (clock (uid r1)) s r1 msg1
  ∧ resolved_from_index L a (clock (uid r2)) s' r2 msg2 = true
  ∧ lookup_existing (idx s') (x_gm_msgid r2) (message_id_of msg2)
    = Some (resolved_target L a (clock (uid r1)) s r1 msg1)
  ∧ ∀ p, p ≠ resolved_target L a (clock (uid r1)) s r1 msg1 →
         files (fs (final (process L a (clock (uid r2)) s' r2))) !! p = files (fs s') !! p.
Proof.
  intros Hraw1 Hw1 Hraw2 Hg1 Hg2 Hscan Hloop. simpl in Hloop.
  destruct (process L a (clock (uid r1)) s r1) as [s1|e s1] eqn:Hp1; [|done].
  pose proof (process_indexes_primary L a _ s s1 r1 msg1 g Hraw1 Hw1 Hg1 Hp1) as Hidx1.
  assert (by_gm_msgid (idx s') !! str_of_Z g
          = Some (resolved_target L a (clock (uid r1)) s r1 msg1)) as Hidx.
  { apply (loop_keeps_primary L a clock mid s1 s'); [|done..].
    intros pre r post sk msg q Hmid Hl. apply (Hscan pre r post sk msg q Hmid).
    simpl. by rewrite Hp1. }
  assert (lookup_existing (idx s') (truthy_id (x_gm_msgid r2)) (message_id_of msg2)
          = Some (resolved_target L a (clock (uid r1)) s r1 msg1)) as Hlook.
  { apply (lookup_existing_primary _ _ g); [by rewrite truthy_id_idem|done]. }
  destruct (resolve_hit L a (clock (uid r2)) s' r2 msg2 _ Hlook) as (_ & Hfrom & Htarget).
  split_and!; [done|done| |].
  - by apply (lookup_existing_primary _ _ g).
  - intros p Hne. apply (process_files_frame L a _ s' r2 msg2); [done|]. by rewrite Htarget.
Qed.

Lemma same_primary_id_same_target_witness :
  resolved_target sample_platform args_real (clock_sample (uid rec_cross))
    (final (loop sample_platform args_real clock_sample
              (startup sample_platform args_real tick_a empty_world) [rec_alpha; rec_beta]))
    rec_cross msg_beta
  = resolved_target sample_platform args_real (clock_sample (uid rec_alpha))
      (startup sample_platform args_real tick_a empty_world) rec_alpha msg_alpha.
Proof.
  apply (same_primary_id_same_target sample_platform args_real clock_sample
           (startup sample_platform args_real tick_a empty_world)
           (final (loop sample_platform args_real clock_sample
                     (startup sample_platform args_real tick_a empty_world)
                     [rec_alpha; rec_beta]))
           rec_alpha rec_cross msg_alpha msg_beta [rec_beta] 1111111111%Z).
  - reflexivity.
  - by vm_compute.
  - reflexivity.
  - reflexivity.
  - reflexivity.
  - intros pre r post sk msg q Hmid Hloop Hraw Hw Hnone Hq.
    destruct pre as [|x pre]; simpl in Hmid.
    + injection Hmid as <- <-.
      assert (sk = final (loop sample_platform args_real clock_sample
                            (startup sample_platform args_real tick_a empty_world)
                            [rec_alpha])) as -> by (by rewrite Hloop).
      vm_compute in Hq. injection Hq as <-. by vm_compute.
    + injection Hmid as _ Hmid. by destruct pre.
  - by vm_compute.
Defined.

Example same_primary_id_same_target_sample :
  resolved_target sample_platform args_real (clock_sample (uid rec_cross))
    (final (loop sample_platform args_real clock_sample
              (startup sample_platform args_real tick_a empty_world) [rec_alpha; rec_beta]))
    rec_cross msg_beta
  = "/vault/Emails/2026/Q126/alpha-111111.md".
Proof. by vm_compute. Qed.

(** C1 as stated fails for the secondary identifier: the primary lookup
    takes precedence, so a record carrying the X-GM-MSGID of one note and
    the Message-ID of another is written over the first note, and two
    persisted notes then carry the same Message-ID. *)
Lemma two_notes_with_one_message_id :
  let w := fs (final (main sample_platform args_real tick_a (fun _ => tick_a) empty_world
                        [rec_alpha; rec_beta; rec_cross])) in
  fst (extract_ids_from_file_head w "/vault/Emails/2026/Q126/alpha-111111.md")
    = Some "beta@example.com"
  ∧ fst (extract_ids_from_file_head w "/vault/Emails/2026/Q126/beta-222222.md")
    = Some "beta@example.com"
  ∧ "/vault/Emails/2026/Q126/alpha-111111.md" ≠ "/vault/Emails/2026/Q126/beta-222222.md".
Proof. split_and!; [by vm_compute..|done]. Qed.

(** *** Dry runs *)

Lemma write_or_skip_dry_fs (a : args) (s1 : state) (d : bool) (target md : string) (m : meta) :
  dry_run a = true → fs (final (write_or_skip a s1 d target md m)) = fs s1.
Proof. intros Hd. unfold write_or_skip. rewrite Hd. by case_bool_decide. Qed.

Lemma process_dry_fs (L : platform) (a : args) (t : tick) (s : state) (r : fetched) :
  dry_run a = true → fs (final (process L a t s r)) = fs s.
Proof.
  intros Hd. unfold process. destruct (raw r) as [|e|msg]; [done..|].
  destruct (negb _); [done|].
  pose proof (resolve_fs L a t s r msg) as Hr.
  destruct (resolve L a t s r msg) as [[[[s1 d] target] md] m]. simpl in Hr.
  pose proof (write_or_skip_dry_fs a s1 d target md m Hd) as Hw.
  destruct (build_for L a t r msg) as [e|b]; [done|].
  destruct (write_or_skip a s1 d target md m) as [s3|e s3]; simpl in Hw.
  - rewrite finish_fs. congruence.
  - simpl. congruence.
Qed.

Lemma loop_dry_fs (L : platform) (a : args) (clock : Z → tick) (rs : list fetched) (s : state) :
  dry_run a = true → fs (final (loop L a clock s rs)) = fs s.
Proof.
  intros Hd. revert s. induction rs as [|r rest IH]; intros s; simpl; [done|].
  pose proof (process_dry_fs L a (clock (uid r)) s r Hd) as Hp.
  destruct (process L a (clock (uid r)) s r) as [s'|e s']; simpl in Hp.
  - rewrite IH. done.
  - done.
Qed.

Lemma startup_fs (L : platform) (a : args) (start : tick) (w : world) :
  fs (startup L a start w) = w.
Proof. unfold startup. by destruct (_ && _). Qed.

Lemma main_dry_fs (L : platform) (a : args) (start : tick) (clock : Z → tick) (w : world)
    (matched : list fetched) :
  dry_run a = true → fs (final (main L a start clock w matched)) = w.
Proof.
  intros Hd. unfold main. destruct matched as [|r0 rest].
  { simpl. apply startup_fs. }
  set (rs := newest_first a (r0 :: rest)).
  set (s1 := logging INFO _ _).
  pose proof (loop_dry_fs L a clock rs s1 Hd) as Hl.
  assert (fs s1 = w) as Hs1 by apply startup_fs.
  destruct (loop L a clock s1 rs) as [s2|e s2]; simpl in *; [|congruence].
  rewrite Hd. simpl. rewrite andb_false_r. congruence.
Qed.

Lemma write_or_skip_dry_of_real (a : args) (s1 : state) (d : bool) (target md : string)
    (m : meta) (s3 : state) :
  write_or_skip (set_dry_run false a) s1 d target md m = Done s3 →
  write_or_skip (set_dry_run true a) s1 d target md m = Done (with_fs (fs s1) s3).
Proof.
  unfold write_or_skip. simpl. case_bool_decide.
  - intros [= <-]. by destruct s1.
  - destruct (write_text _ _ _) as [w|]; [|done]. intros [= <-]. by destruct s1.
Qed.

Lemma process_dry_of_real (L : platform) (a : args) (t : tick) (s : state) (r : fetched)
    (sr : state) :
  process L (set_dry_run false a) t s r = Done sr →
  process L (set_dry_run true a) t s r = Done (with_fs (fs s) sr).
Proof.
  unfold process. destruct (raw r) as [|e|msg].
  - intros [= <-]. by destruct s.
  - intros [= <-]. by destruct s.
  - destruct (negb _). { intros [= <-]. by destruct s. }
    rewrite !resolve_dry_run.
    pose proof (resolve_fs L a t s r msg) as Hr.
    destruct (resolve L a t s r msg) as [[[[s1 d] target] md] m]. simpl in Hr.
    change (build_for L (set_dry_run false a) t r msg) with (build_for L a t r msg).
    change (build_for L (set_dry_run true a) t r msg) with (build_for L a t r msg).
    destruct (build_for L a t r msg) as [e|b]; [done|].
    destruct (write_or_skip (set_dry_run false a) s1 d target md m) as [s3|e s3] eqn:Hw;
      [|done].
    rewrite (write_or_skip_dry_of_real _ _ _ _ _ _ _ Hw).
    rewrite !finish_dry_run, finish_with_fs. intros ->. simpl. by rewrite Hr.
Qed.

(** C6, as the code has it.  A run under [--dry-run] leaves the file
    system as it found it: no note, no index file and no legacy state file
    is written.  Each record is classified, logged, indexed and counted as
    the real run does from the same state: where the real step completes
    in [sr], the dry step completes in [sr] over the untouched file
    system. *)
Theorem dry_run_writes_nothing_and_mirrors_step (L : platform) (a : args)
    (start : tick) (clock : Z → tick) (w : world) (matched : list fetched)
    (t : tick) (s : state) (r : fetched) (sr : state) :
  process L (set_dry_run false a) t s r = Done sr →
  process L (set_dry_run true a) t s r = Done (with_fs (fs s) sr)
  ∧ fs (final (main L (set_dry_run true a) start clock w matched)) = w.
Proof.
  intros Hreal. split; [by apply process_dry_of_real|]. by apply main_dry_fs.
Qed.

Lemma dry_run_writes_nothing_and_mirrors_step_witness :
  process sample_platform (set_dry_run true args_real) tick_a
    (startup sample_platform args_real tick_a empty_world) rec_sample
  = Done (with_fs empty_world
            (final (process sample_platform (set_dry_run false args_real) tick_a
                      (startup sample_platform args_real tick_a empty_world) rec_sample)))
  ∧ fs (final (main sample_platform (set_dry_run true args_real) tick_a (fun _ => tick_a)
                 empty_world [rec_sample])) = empty_world.
Proof.
  apply (dry_run_writes_nothing_and_mirrors_step sample_platform args_real tick_a
           (fun _ => tick_a) empty_world [rec_sample] tick_a
           (startup sample_platform args_real tick_a empty_world) rec_sample).
  by vm_compute.
Defined.

(** C6 as stated fails for a whole run: the second copy of a message is
    an update of the note the real run has just written, while the dry
    run, which wrote nothing, logs it as a first write. *)
Lemma dry_run_log_differs_from_real_run :
  map snd (log (final (main sample_platform args_real tick_a (fun _ => tick_a) empty_world
                         [rec_sample; rec_copy])))
  = [ "Dedupe index empty; scanning recent notes to seed it...";
      "Matched 2 messages";
      "Write: /vault/Emails/2026/Q126/weekly-sync-567891.md";
      "Markdown-only mode: skipping embedding for /vault/Emails/2026/Q126/weekly-sync-567891.md";
      "Update (deduped): /vault/Emails/2026/Q126/weekly-sync-567891.md";
      "Markdown-only mode: skipping embedding for /vault/Emails/2026/Q126/weekly-sync-567891.md";
      "Done. Processed 2 message(s) - MARKDOWN ONLY (no embedding)." ]
  ∧ map snd (log (final (main sample_platform args_dry tick_a (fun _ => tick_a) empty_world
                           [rec_sample; rec_copy])))
  = [ "Dedupe index empty; scanning recent notes to seed it...";
      "Matched 2 messages";
      "Write: /vault/Emails/2026/Q126/weekly-sync-567891.md";
      "Markdown-only mode: skipping embedding for /vault/Emails/2026/Q126/weekly-sync-567891.md";
      "Write (deduped): /vault/Emails/2026/Q126/weekly-sync-567891.md";
      "Markdown-only mode: skipping embedding for /vault/Emails/2026/Q126/weekly-sync-567891.md";
      "Done. Processed 2 message(s) - MARKDOWN ONLY (no embedding)." ]
  ∧ log (final (main sample_platform args_dry tick_a (fun _ => tick_a) empty_world
                  [rec_sample; rec_copy]))
    ≠ log (final (main sample_platform args_real tick_a (fun _ => tick_a) empty_world
                    [rec_sample; rec_copy])).
Proof.
  split_and!; [by vm_compute..|].
  apply (bool_decide_eq_false_1 _). by vm_compute.
Qed.

(** *** Idempotence *)
















(** The same happens to an unchanged, dated message whose header block is
    longer than the 4000 characters [read_existing_checksum] reads: the
    checksum line is not found and the note is written at every run. *)
Example second_run_rewrites_long_header :
  let w1 := settle (fs (final (main sample_platform args_real tick_a (fun _ => tick_a)
                                empty_world [rec_long_subject]))) in
  let s2 := final (main sample_platform args_real tick_b (fun _ => tick_b) w1
                     [rec_long_subject]) in
  read_existing_checksum w1 (resolved_target sample_platform args_real tick_b
                               (startup sample_platform args_real tick_b w1)
                               rec_long_subject msg_long_subject) = None
  ∧ length (written (fs s2)) = 2.
Proof. split; by vm_compute. Qed.

(** *** Write failures *)

(** The write of a note is not guarded: when it raises, the exception
    ends the loop at that record.  The records after it are not
    processed, the log holds the announcement of the write and nothing
    about the failure, the file system is untouched, and the index in
    memory is the one the dedupe step left: the index update of the
    record is not reached. *)
Lemma write_failure_ends_the_run (L : platform) (a : args) (clock : Z → tick) (s : state)
    (r : fetched) (msg : message) (rest : list fetched) (b : string * string * meta) :
  dry_run a = false →
  raw r = Parses msg →
  wants_processing (canonicalize_labels (x_gm_labels r)) = true →
  build_for L a (clock (uid r)) r msg = Gives b →
  read_existing_checksum (fs s) (resolved_target L a (clock (uid r)) s r msg)
    ≠ Some (m_checksum (resolved_meta L a (clock (uid r)) s r msg)) →
  resolved_target L a (clock (uid r)) s r msg ∈ unwritable (fs s) →
  ∃ s', loop L a clock s (r :: rest) = Raised "OSError" s'
        ∧ log s' = (log s ++ [write_announcement L a (clock (uid r)) s r msg])%list
        ∧ fs s' = fs s
        ∧ idx s' = idx (resolved_state L a (clock (uid r)) s r msg)
        ∧ processed s' = processed s.
Proof.
  intros Hd Hraw Hw Hb Hsum Hlock. set (t := clock (uid r)) in *.
  simpl. fold t. unfold process. rewrite Hraw, Hw. simpl.
  unfold write_announcement.
  pose proof (resolve_fs L a t s r msg) as Hfs.
  rewrite resolve_eq in *. simpl in Hfs. rewrite Hb.
  set (s1 := resolved_state L a t s r msg) in *.
  set (target := resolved_target L a t s r msg) in *.
  set (m := resolved_meta L a t s r msg) in *.
  assert (log s1 = log s ∧ processed s1 = processed s) as [Hlog Hproc].
  { unfold s1, resolved_state, resolve, find_existing.
    destruct (lookup_existing _ _ _); by destruct (built _ _ _ _ _) as [[? ?] ?]. }
  unfold write_or_skip. rewrite Hfs, Hd.
  rewrite bool_decide_eq_false_2 by done.
  unfold write_text. simpl. rewrite Hfs. rewrite bool_decide_eq_true_2 by done.
  eexists. split; [done|]. simpl. by rewrite Hlog, Hfs, Hproc.
Qed.

(** The dedupe step comes before the write: when the record is not in
    the index and the fallback scan finds a stored note with its
    X-GM-MSGID, the index in memory holds the record at that location
    although the write of the new text has failed. *)
Example write_failure_after_scan_leaves_the_scanned_entry :
  let target := "/vault/Emails/2026/Q126/weekly-sync-567890.md" in
  let s := mkstate (mkindex {[ "1000000001" := "/vault/Emails/2026/Q126/older.md" ]} ∅)
                   false ∅
                   {| files := files world_after_first_run; index_file := Missing;
                      state_file := Missing; unwritable := {[ target ]}; written := [] |}
                   [] 0 in
  by_gm_msgid (idx s) !! "1234567890" = None
  ∧ ∃ s', process sample_platform args_real tick_b s rec_undated = Raised "OSError" s'
          ∧ by_gm_msgid (idx s') !! "1234567890" = Some target
          ∧ fs s' = fs s.
Proof. split; [by vm_compute|]. eexists. split_and!; by vm_compute. Qed.

(** C5, at a note that cannot be written: the spec has the failure logged
    and the batch go on, the code lets the OSError of [write_text] leave
    the loop.  The run over two records ends at the first one with the
    exception, the log holds the announcement of the write and no word of
    the failure, the older record is never reached, no record is counted,
    and neither the index file nor the legacy state file is written. *)
Theorem write_failure_is_not_logged_and_stops_the_batch :
  ∃ s', main sample_platform args_real tick_a (fun _ => tick_a) world_locked
          [rec_older; rec_sample]
        = Raised "OSError" s'
        ∧ log s' = [ (INFO, "Dedupe index empty; scanning recent notes to seed it...");
                     (INFO, "Matched 2 messages");
                     (INFO, "Write: /vault/Emails/2026/Q126/weekly-sync-567890.md") ]
        ∧ processed s' = 0%N
        ∧ fs s' = world_locked
        ∧ written (fs s') = [].
Proof. eexists. split_and!; by vm_compute. Qed.

End IngestFacts.


(** ** The calendar filter *)

Section CalendarFacts.
Import Datetime Calendar.

Example read_isoformat_samples :
  read_isoformat "2026-03-11T09:00:00-05:00" = Some (mkdt 2026 3 11 9 0 0 0 (Some (-18000)%Z))
  ∧ read_isoformat "2026-03-11T09:00:00" = Some (mkdt 2026 3 11 9 0 0 0 None)
  ∧ read_isoformat "2026-02-30T09:00:00" = None
  ∧ read_ymd "2026-03-11" = Some (mkdt 2026 3 11 0 0 0 0 None).
Proof. by vm_compute. Qed.

Example filter_events_sample :
  option_map (map f_event_id)
      (filter_events sample_platform "ME@example.com" now_sample
         [ declined_event "2026-03-11T09:00:00Z"; declined_event "2026-03-09T09:00:00Z" ])
  = Some ["ev1"]
  ∧ option_map (map f_start_time)
      (filter_events sample_platform "ME@example.com" now_sample
         [ declined_event "2026-03-11T09:00:00Z"; declined_event "2026-03-09T09:00:00+01:00" ])
  = Some ["08:00:00"]
  ∧ filter_events western_platform "me@example.com" now_western
      [ declined_event "0001-01-01T00:00:00Z" ] = None.
Proof. by vm_compute. Qed.







(** The same on two concrete events of a host five hours west of UTC:
    the declined meeting of tomorrow morning is left out, the one of this
    morning is kept. *)
Example declined_future_excluded_past_kept_sample :
  filter_events western_platform "me@example.com" now_western
    [declined_event "2026-03-11T09:00:00-05:00"] = Some []
  ∧ option_map (map (fun f => (f_date f, f_start_time f)))
      (filter_events western_platform "me@example.com" now_western
         [declined_event "2026-03-10T09:00:00-05:00"])
    = Some [("2026-03-10", "09:00:00")].
Proof. by vm_compute. Qed.


End CalendarFacts.


(** ** Records that cannot be read *)

Section ParseErrorFacts.




End ParseErrorFacts.

(** ** The video identifier *)

Section YoutubeFacts.
Import Youtube.

Example extract_video_id_samples :
  extract_video_id sample_platform "https://www.youtube.com/watch?t=3&v=abc123" = Returns (Some "abc123")
  ∧ extract_video_id sample_platform "https://youtu.be/xyz?t=1" = Returns (Some "xyz")
  ∧ extract_video_id sample_platform "https://WWW.YouTube.com/embed/ID9/extra" = Returns (Some "ID9")
  ∧ extract_video_id sample_platform "https://www.youtube.com/watch;p?v=" = Returns None
  ∧ extract_video_id sample_platform "youtube.com/watch?v=abc" = Returns None
  ∧ extract_video_id sample_platform "https://user@youtu.be:443/x;y" = Returns (Some "x")
  ∧ extract_video_id sample_platform "https://m.youtube.com/watch?v=1" = Returns None
  ∧ extract_video_id sample_platform "https://youtu.be" = Returns (Some "").
Proof. by vm_compute. Qed.

Lemma startswith_inv (p s : string) :
  Py.startswith p s = true → ∃ r, s = p ++ r.
Proof.
  revert s. induction p as [|a p IH]; intros s; simpl.
  - intros _. by exists s.
  - destruct s as [|b s]; [done|]. destruct (ascii_dec a b) as [->|]; [|done].
    intros [r ->]%IH. by exists r.
Qed.

Lemma split_nonempty (c : ascii) (s : string) : Py.split c s ≠ [].
Proof.
  destruct s as [|d r]; simpl; [done|].
  destruct (ascii_dec c d); [done|]. by destruct (Py.split c r).
Qed.

Lemma embed_has_third_segment (p : string) :
  Py.startswith "/embed/" p = true → ∃ seg, Py.split "/" p !! 2%nat = Some seg.
Proof.
  intros [r ->]%startswith_inv. simpl.
  change (String.append "" r) with r.
  pose proof (split_nonempty "/" r) as Hne.
  destruct (Py.split "/" r) as [|w ws]; [done|]. by exists w.
Qed.

(** [extract_video_id] raises exactly when [urlparse] refuses the URL,
    and then with its [ValueError], on which the command ends without a
    report; otherwise it returns.  It returns an identifier only for the
    three supported shapes and [None] for every other host name or path,
    and on [None] the command reports the invalid URL and exits with
    status 1. *)
Lemma extract_video_id_raises_only_with_urlparse (L : platform) (url : string) :
  (extract_video_id L url = Raises "ValueError" ↔ urlparse L url = None)
  ∧ (∀ e, extract_video_id L url = Raises e → e = "ValueError" ∧ urlparse L url = None)
  ∧ (∀ v, extract_video_id L url = Returns (Some v) → supported_shape L url v)
  ∧ (∀ parsed, urlparse L url = Some parsed →
       ¬ (is_youtube_host (hostname parsed) = true
          ∧ (path parsed = "/watch" ∨ Py.startswith "/embed/" (path parsed) = true)) →
       hostname parsed ≠ Some "youtu.be" →
       extract_video_id L url = Returns None)
  ∧ (∀ prog rest, extract_video_id L url = Returns None →
       main L (prog :: url :: rest) = InvalidURL url
       ∧ exit_status (main L (prog :: url :: rest)) = Some 1%Z)
  ∧ (∀ prog rest e, extract_video_id L url = Raises e →
       main L (prog :: url :: rest) = Uncaught e).
Proof.
  assert (∀ prog rest, extract_video_id L url = Returns None →
            main L (prog :: url :: rest) = InvalidURL url
            ∧ exit_status (main L (prog :: url :: rest)) = Some 1%Z) as Hmain.
  { intros prog rest Hr. unfold main. by rewrite Hr. }
  assert (∀ prog rest e, extract_video_id L url = Raises e →
            main L (prog :: url :: rest) = Uncaught e) as Hraise.
  { intros prog rest e Hr. unfold main. by rewrite Hr. }
  split_and!; [| | | |exact Hmain|exact Hraise]; clear Hmain Hraise;
    unfold extract_video_id, supported_shape;
    destruct (urlparse L url) as [parsed|] eqn:Hparse; try done.
  - destruct (is_youtube_host _); repeat case_bool_decide;
      try destruct (Py.startswith _ _) eqn:Hembed; try done.
    destruct (embed_has_third_segment _ Hembed) as [seg ->]. done.
  - intros e. destruct (is_youtube_host _); repeat case_bool_decide;
      try destruct (Py.startswith _ _) eqn:Hembed; try done.
    destruct (embed_has_third_segment _ Hembed) as [seg ->]. done.
  - by intros e [= <-].
  - intros v Hv. exists parsed. split; [done|].
    destruct (is_youtube_host _) eqn:Hyt.
    + case_bool_decide as Hwatch.
      * left. split_and!; [done..|]. by injection Hv.
      * right. left. split; [done|]. by destruct (Py.startswith _ _).
    + right. right. case_bool_decide; [|done]. split; [done|]. by injection Hv.
  - intros p [= <-] Hno Hbe.
    destruct (is_youtube_host _) eqn:Hyt.
    + case_bool_decide as Hwatch; [exfalso; apply Hno; by auto|].
      destruct (Py.startswith _ _) eqn:Hembed; [exfalso; apply Hno; by auto|done].
    + by rewrite bool_decide_eq_false_2.
Qed.

(** C10, at a URL with an unmatched bracket: the claim has
    [extract_video_id] return for every input and the command report an
    invalid URL; the code calls [urlparse] outside any [try], [urlparse]
    refuses this netloc, [extract_video_id] lets the [ValueError]
    through, and the command ends on the exception where a URL of
    another host gets the invalid-URL report. *)
Theorem extract_video_id_raises_on_unmatched_bracket :
  urlparse sample_platform "http://[" = None
  ∧ extract_video_id sample_platform "http://[" = Raises "ValueError"
  ∧ main sample_platform ["youtube_transcript_extractor.py"; "http://["]
    = Uncaught "ValueError"
  ∧ main sample_platform ["youtube_transcript_extractor.py"; "http://example.com/"]
    = InvalidURL "http://example.com/".
Proof. split_and!; by vm_compute. Qed.

End YoutubeFacts.

(* ===================================================================== *)
(** * Further properties of the code *)
(* ===================================================================== *)

Section MoreLabelFacts.
Import Labels.

Lemma rstrip_idem (s : string) : Py.rstrip (Py.rstrip s) = Py.rstrip s.
Proof.
  induction s as [|c r IH]; simpl; [done|].
  destruct (Py.rstrip r) as [|d r'] eqn:E.
  - destruct (Py.isspace c) eqn:Hc; simpl; [done|]. by rewrite Hc.
  - simpl in *. by rewrite IH.
Qed.

Lemma rstrip_head (c : ascii) (r : string) :
  Py.isspace c = false → ∃ r', Py.rstrip (String c r) = String c r'.
Proof.
  intros Hc. simpl. destruct (Py.rstrip r); rewrite ?Hc; eauto.
Qed.

Lemma lstrip_shape (s : string) :
  Py.lstrip s = "" ∨ ∃ c r, Py.lstrip s = String c r ∧ Py.isspace c = false.
Proof.
  induction s as [|c r IH]; simpl; [by left|].
  destruct (Py.isspace c) eqn:Hc; [done|]. right. by exists c, r.
Qed.

Lemma strip_idem (s : string) : Py.strip (Py.strip s) = Py.strip s.
Proof.
  unfold Py.strip. destruct (lstrip_shape s) as [->|(c & r & -> & Hc)]; [done|].
  destruct (rstrip_head c r Hc) as [r' Hr]. rewrite Hr. simpl Py.lstrip. rewrite Hc.
  rewrite <- Hr. apply rstrip_idem.
Qed.

Lemma canonical_name_idem (lbl : string) :
  canonical_name (canonical_name lbl) = canonical_name lbl.
Proof.
  unfold canonical_name at 2 3.
  destruct (LABEL_ALIASES !! Py.strip lbl) as [v|] eqn:E; simpl.
  - apply elem_of_list_to_map_2 in E. unfold ALIAS_TABLE in E.
    repeat (apply elem_of_cons in E as [E|E]; [injection E as _ ->; by vm_compute|]).
    by apply elem_of_nil in E.
  - unfold canonical_name. by rewrite strip_idem, E.
Qed.

Lemma first_seen_NoDup_id (l : list string) : NoDup l → first_seen l = l.
Proof.
  induction 1 as [|x l Hx Hnd IH]; simpl; [done|]. rewrite IH. f_equal.
  clear IH Hnd. induction l as [|y l IH]; [done|].
  apply not_elem_of_cons in Hx as [Hxy Hx].
  rewrite filter_cons_True by done. f_equal. by apply IH.
Qed.

Lemma first_seen_idem_map (l : list string) :
  first_seen (map canonical_name (first_seen (map canonical_name l)))
  = first_seen (map canonical_name l).
Proof.
  assert (map canonical_name (first_seen (map canonical_name l))
          = first_seen (map canonical_name l)) as ->.
  { assert (∀ x, x ∈ first_seen (map canonical_name l) → canonical_name x = x) as Hfix.
    { intros x Hx. apply (proj1 (first_seen_elem _ _)) in Hx.
      apply list_elem_of_fmap in Hx as (y & -> & _).
      apply canonical_name_idem. }
    induction (first_seen (map canonical_name l)) as [|x xs IH]; [done|].
    simpl. rewrite Hfix by left. f_equal. apply IH. intros y Hy. apply Hfix. by right. }
  apply first_seen_NoDup_id, first_seen_NoDup.
Qed.

(** X1. [canonicalize_labels] is idempotent: the labels it returns are
    already canonical, and canonicalising them again changes nothing. *)
Theorem canonicalize_labels_idempotent (labels : list string) :
  canonicalize_labels (canonicalize_labels labels) = canonicalize_labels labels.
Proof. rewrite !canonicalize_labels_first_seen. apply first_seen_idem_map. Qed.

(** X2. [build_markdown] reads the Gmail labels only through
    [canonicalize_labels]: two label lists with the same canonical form
    give the same note, checksum and metadata. *)
Theorem build_markdown_labels_canonical (L : Ingest.platform) (vault_root : string)
    (msg : Ingest.message) (l1 l2 : list string) (gm_msgid gm_thrid : option Z)
    (internaldate : option Datetime.datetime) (now now_ingested : Datetime.datetime) :
  canonicalize_labels l1 = canonicalize_labels l2 →
  Ingest.build_markdown L vault_root msg l1 gm_msgid gm_thrid internaldate now now_ingested
  = Ingest.build_markdown L vault_root msg l2 gm_msgid gm_thrid internaldate now now_ingested.
Proof.
  intros H. unfold Ingest.build_markdown, Ingest.render, Ingest.payload_for_checksum.
  by rewrite H.
Qed.

Lemma build_markdown_labels_canonical_witness :
  Ingest.build_markdown Ingest.sample_platform "/vault" Ingest.msg_sample
    ["To-Embed"; " Save"; "Work"] (Some 42%Z) None None Ingest.clock_a Ingest.clock_b
  = Ingest.build_markdown Ingest.sample_platform "/vault" Ingest.msg_sample
      ["Save"; "Work"; "AI/Ingest"] (Some 42%Z) None None Ingest.clock_a Ingest.clock_b.
Proof. apply build_markdown_labels_canonical. by vm_compute. Defined.

(** X3. A message is wanted exactly when one of its raw labels has the
    canonical name Save or Slack-Thread; its document type is slack
    exactly when one has the canonical name Slack-Thread; a slack
    document is always wanted. *)
Theorem wanted_and_slack_by_alias (labels : list string) :
  (wants_processing (canonicalize_labels labels) = true
   ↔ ∃ lbl, lbl ∈ labels
            ∧ (canonical_name lbl = "Save" ∨ canonical_name lbl = "Slack-Thread"))
  ∧ (infer_doc_type (canonicalize_labels labels) = "slack"
     ↔ ∃ lbl, lbl ∈ labels ∧ canonical_name lbl = "Slack-Thread")
  ∧ (infer_doc_type (canonicalize_labels labels) = "slack"
     → wants_processing (canonicalize_labels labels) = true).
Proof.
  assert (∀ x, x ∈ canonicalize_labels labels ↔ ∃ lbl, lbl ∈ labels ∧ canonical_name lbl = x)
    as Hin.
  { intros x. rewrite canonicalize_labels_first_seen, first_seen_elem, list_elem_of_fmap.
    naive_solver. }
  assert (wants_processing (canonicalize_labels labels) = true
          ↔ ∃ lbl, lbl ∈ labels
              ∧ (canonical_name lbl = "Save" ∨ canonical_name lbl = "Slack-Thread")) as Hw.
  { unfold wants_processing. rewrite existsb_exists. split.
    - intros (x & Hx%list_elem_of_In%Hin & Hb). destruct Hx as (lbl & Hl & <-).
      exists lbl. split; [done|].
      apply orb_true_iff in Hb as [Hb|Hb]; apply bool_decide_eq_true_1 in Hb; auto.
    - intros (lbl & Hl & Hc). exists (canonical_name lbl). split.
      + apply list_elem_of_In, Hin. by exists lbl.
      + apply orb_true_iff. destruct Hc as [->| ->]; [left|right]; done. }
  assert (infer_doc_type (canonicalize_labels labels) = "slack"
          ↔ ∃ lbl, lbl ∈ labels ∧ canonical_name lbl = "Slack-Thread") as Hs.
  { unfold infer_doc_type. case_bool_decide as Hd.
    - split; [|done]. intros _. by apply Hin.
    - split; [done|]. intros H. exfalso. by apply Hd, Hin. }
  split_and!; [done|done|]. rewrite Hs, Hw. naive_solver.
Qed.

End MoreLabelFacts.

Section SlugFacts.
Import Ingest.

Lemma chars_in_impl (P Q : ascii → Prop) (s : string) :
  (∀ c, P c → Q c) → Py.chars_in P s → Py.chars_in Q s.
Proof. intros H. induction s; simpl; naive_solver. Qed.

Lemma filter_chars_in (keep : ascii → bool) (s : string) :
  Py.chars_in (fun c => keep c = true) (Py.filter_chars keep s).
Proof. induction s as [|c r IH]; simpl; [done|]. destruct (keep c) eqn:E; simpl; auto. Qed.

Lemma squeeze_in (cls : ascii → bool) (rep : ascii) (P : ascii → Prop) (b : bool) (s : string) :
  P rep → Py.chars_in (fun c => cls c = true ∨ P c) s →
  Py.chars_in P (Py.squeeze cls rep b s).
Proof.
  intros Hrep. revert b. induction s as [|c r IH]; intros b; simpl; [done|].
  intros [Hc Hr]. destruct (cls c) eqn:E.
  - destruct b; simpl; auto.
  - simpl. split; [|by apply IH]. by destruct Hc.
Qed.

Lemma lstrip_chars_in (P : ascii → Prop) (chars s : string) :
  Py.chars_in P s → Py.chars_in P (Py.lstrip_chars chars s).
Proof.
  induction s as [|c r IH]; simpl; [done|]. intros [Hc Hr].
  destruct (Py.contains_char c chars); simpl; auto.
Qed.

Lemma rstrip_chars_in (P : ascii → Prop) (chars s : string) :
  Py.chars_in P s → Py.chars_in P (Py.rstrip_chars chars s).
Proof.
  induction s as [|c r IH]; simpl; [done|]. intros [Hc Hr].
  specialize (IH Hr). destruct (Py.rstrip_chars chars r); simpl in *.
  - by destruct (Py.contains_char c chars).
  - auto.
Qed.

Lemma take_in (P : ascii → Prop) (s : string) (n : N) :
  Py.chars_in P s → Py.chars_in P (Py.take n s).
Proof.
  revert n. induction s as [|c r IH]; intros n; simpl; [done|]. intros [Hc Hr].
  destruct (n =? 0)%N; simpl; auto.
Qed.

Lemma take_length (s : string) (n : N) : (Py.len (Py.take n s) <= n)%N.
Proof.
  unfold Py.len. revert n. induction s as [|c r IH]; intros n; simpl; [lia|].
  destruct (n =? 0)%N eqn:E; simpl; [lia|].
  apply N.eqb_neq in E. specialize (IH (N.pred n)). lia.
Qed.

Lemma slug_char_safe (c : ascii) :
  slug_char c → c ≠ "/"%char ∧ c ≠ "."%char ∧ Py.isspace c = false.
Proof.
  intros [Hw| ->]; [|by vm_compute].
  split_and!; try (intros ->; by vm_compute in Hw).
  destruct c as [[] [] [] [] [] [] [] []]; vm_compute in Hw |- *; congruence.
Qed.

(** X4. A slug is a usable file stem: it is never empty, has at most 80
    characters, and each of them is a word character or a hyphen, so
    none is a slash, a dot or white space. *)
Theorem slugify_is_a_safe_file_stem (text : string) :
  slugify text ≠ ""
  ∧ (Py.len (slugify text) <= 80)%N
  ∧ Py.chars_in (fun c => (Py.isword c = true ∨ c = "-"%char)
                       ∧ c ≠ "/"%char ∧ c ≠ "."%char ∧ Py.isspace c = false)
             (slugify text).
Proof.
  unfold slugify.
  set (s0 := Py.lower (if Py.truthy text then text else "email")).
  set (keep := fun c => Py.isword c || Py.isspace c || bool_decide (c = "-"%char)).
  set (s3 := Py.squeeze _ _ false (Py.strip_chars "-" _)).
  assert (Py.chars_in slug_char s3) as H3.
  { apply squeeze_in; [by right|].
    apply (chars_in_impl slug_char); [by right|].
    unfold Py.strip_chars. apply rstrip_chars_in, lstrip_chars_in.
    apply squeeze_in; [by right|].
    apply (chars_in_impl (fun c => keep c = true)); [|apply filter_chars_in].
    intros c Hc. unfold keep in Hc.
    apply orb_true_iff in Hc as [Hc|Hc]; [apply orb_true_iff in Hc as [Hc|Hc]|].
    - right. by left.
    - by left.
    - right. right. by apply bool_decide_eq_true_1 in Hc. }
  set (s4 := if Py.truthy s3 then s3 else "email").
  assert (Py.chars_in slug_char s4 ∧ s4 ≠ "") as [H4 Hne].
  { unfold s4. destruct (Py.truthy s3) eqn:E.
    - split; [done|]. intros ->. done.
    - split; [|done]. vm_compute. tauto. }
  split_and!.
  - destruct s4; [done|]. done.
  - apply take_length.
  - apply (chars_in_impl slug_char).
    + intros c Hc. split; [exact Hc|]. by apply slug_char_safe.
    + by apply take_in.
Qed.

End SlugFacts.

Section IndexFacts.
Import Datetime Json Labels Ingest.

Lemma update_index_noop (s : state) (gm : option Z) (m target : string) :
  (∀ g, truthy_id gm = Some g → by_gm_msgid (idx s) !! str_of_Z g = Some target) →
  (Py.truthy m = true → by_message_id (idx s) !! m = Some target) →
  update_index s gm m target = s.
Proof.
  intros Hg Hm. unfold update_index.
  destruct (truthy_id gm) as [g|].
  - rewrite (bool_decide_eq_true_2 (by_gm_msgid (idx s) !! str_of_Z g = Some target))
      by (by apply Hg).
    destruct (Py.truthy m); [|done]. by rewrite bool_decide_eq_true_2 by (by apply Hm).
  - destruct (Py.truthy m); [|done]. by rewrite bool_decide_eq_true_2 by (by apply Hm).
Qed.

Lemma update_index_idx (s : state) (gm : option Z) (m target : string) :
  idx (update_index s gm m target)
  = mkindex (match truthy_id gm with
             | Some g => <[str_of_Z g := target]> (by_gm_msgid (idx s))
             | None => by_gm_msgid (idx s)
             end)
            (if Py.truthy m then <[m := target]> (by_message_id (idx s))
             else by_message_id (idx s)).
Proof.
  unfold update_index. destruct s as [[bg bm] upd leg w lg n]. simpl.
  destruct (truthy_id gm) as [g|]; [case_bool_decide as H1|];
    destruct (Py.truthy m); simpl; try case_bool_decide; simpl;
    rewrite ?(insert_id bg), ?(insert_id bm) by done; done.
Qed.

Lemma update_index_flag (s : state) (gm : option Z) (m target : string) :
  update_index s gm m target = s ∨ index_updated (update_index s gm m target) = true.
Proof.
  unfold update_index.
  destruct (truthy_id gm) as [g|]; [case_bool_decide|];
    destruct (Py.truthy m); simpl; try case_bool_decide; simpl; auto.
Qed.

Lemma update_index_flag_kept (s : state) (gm : option Z) (m target : string) :
  index_updated s = true → index_updated (update_index s gm m target) = true.
Proof.
  unfold update_index.
  destruct (truthy_id gm) as [g|]; [case_bool_decide|];
    destruct (Py.truthy m); simpl; try case_bool_decide; simpl; auto.
Qed.

(** X5. [update_index] records a location once: afterwards both
    identifiers (when present) point to the target, recording the same
    location again changes nothing, and the dirty flag is set whenever
    the index was changed and is never lowered. *)
Theorem update_index_records_once (s : state) (gm : option Z) (m target : string) :
  (∀ g, truthy_id gm = Some g →
        by_gm_msgid (idx (update_index s gm m target)) !! str_of_Z g = Some target)
  ∧ (Py.truthy m = true → by_message_id (idx (update_index s gm m target)) !! m = Some target)
  ∧ update_index (update_index s gm m target) gm m target = update_index s gm m target
  ∧ (idx (update_index s gm m target) = idx s → update_index s gm m target = s)
  ∧ (update_index s gm m target ≠ s → index_updated (update_index s gm m target) = true)
  ∧ (index_updated s = true → index_updated (update_index s gm m target) = true).
Proof.
  assert (∀ g, truthy_id gm = Some g →
            by_gm_msgid (idx (update_index s gm m target)) !! str_of_Z g = Some target) as H1.
  { intros g Hg. rewrite update_index_idx, Hg. simpl. apply lookup_insert_eq. }
  assert (Py.truthy m = true →
          by_message_id (idx (update_index s gm m target)) !! m = Some target) as H2.
  { intros Hm. rewrite update_index_idx, Hm. simpl. apply lookup_insert_eq. }
  split_and!; [done|done| | | |].
  - by apply update_index_noop.
  - intros Heq. apply update_index_noop; rewrite <- Heq; done.
  - intros Hne. by destruct (update_index_flag s gm m target).
  - apply update_index_flag_kept.
Qed.

(** *** What a run keeps *)

Lemma extends_refl (s : state) : extends s s.
Proof. unfold extends. split_and!; try done. exists []. by rewrite app_nil_r. Qed.

Lemma extends_trans (a b c : state) : extends a b → extends b c → extends a c.
Proof.
  intros (H1 & H2 & H3 & H4 & [l1 H5] & H6) (G1 & G2 & G3 & G4 & [l2 G5] & G6).
  unfold extends. split_and!; try (etrans; done).
  exists (l1 ++ l2)%list. by rewrite G5, H5, app_assoc.
Qed.

Lemma extends_logging (lv : level) (text : string) (s : state) :
  extends s (logging lv text s).
Proof. unfold extends. simpl. split_and!; try done. by eexists. Qed.

Lemma extends_find_existing (L : platform) (a : args) (t : tick) (s : state)
    (g : option Z) (m : string) :
  extends s (fst (find_existing L a t s g m)).
Proof.
  unfold find_existing. destruct (lookup_existing _ _ _); simpl; [apply extends_refl|].
  unfold extends, merge_seeded. simpl. split_and!; try done.
  - rewrite dom_union. set_solver.
  - rewrite dom_union. set_solver.
  - exists []. by rewrite app_nil_r.
Qed.

Lemma extends_write_or_skip (a : args) (s1 : state) (d : bool) (target md : string) (m : meta) :
  extends s1 (final (write_or_skip a s1 d target md m)).
Proof.
  unfold write_or_skip. case_bool_decide; [apply extends_logging|].
  destruct (dry_run a); [apply extends_logging|].
  unfold write_text. simpl. case_bool_decide; simpl; [apply extends_logging|].
  unfold extends. simpl. split_and!; try done.
  - rewrite dom_insert. set_solver.
  - by eexists.
Qed.

Lemma extends_update_index (s : state) (gm : option Z) (m target : string) :
  extends s (update_index s gm m target).
Proof.
  unfold extends. rewrite update_index_idx. simpl.
  assert (fs (update_index s gm m target) = fs s) as -> by apply update_index_fs.
  assert (log (update_index s gm m target) = log s ∧
          processed (update_index s gm m target) = processed s) as [-> ->].
  { unfold update_index.
    destruct (truthy_id gm) as [g|]; [case_bool_decide|];
      destruct (Py.truthy m); simpl; try case_bool_decide; simpl; auto. }
  split_and!; try done.
  - destruct (truthy_id gm); [rewrite dom_insert|]; set_solver.
  - destruct (Py.truthy m); [rewrite dom_insert|]; set_solver.
  - exists []. by rewrite app_nil_r.
Qed.

Lemma extends_finish (a : args) (r : fetched) (msg : message) (m : meta) (target : string)
    (s3 : state) :
  extends s3 (final (finish a r msg m target s3)).
Proof.
  unfold finish.
  eapply extends_trans; [apply (extends_update_index s3 (truthy_id (x_gm_msgid r))
                                  (message_id_of msg) target)|].
  set (s4 := update_index _ _ _ _).
  unfold update_legacy. destruct (relative_to _ _); simpl; [|apply extends_refl].
  destruct (legacy_state s4 !! _) as [e|]; [destruct (_ || _)|]; simpl;
    unfold extends; simpl; split_and!; try done; try (by eexists); lia.
Qed.

Lemma extends_process (L : platform) (a : args) (t : tick) (s : state) (r : fetched) :
  extends s (final (process L a t s r)).
Proof.
  unfold process. destruct (raw r) as [|e|msg]; [apply extends_logging..|].
  destruct (negb _); [apply extends_logging|].
  assert (extends s (resolved_state L a t s r msg)) as H1.
  { unfold resolved_state, resolve.
    pose proof (extends_find_existing L a t s (truthy_id (x_gm_msgid r)) (message_id_of msg)).
    destruct (find_existing _ _ _ _ _ _) as [s1 ex].
    by destruct (built _ _ _ _ _) as [[ab md] m]. }
  destruct (resolve_parts L a t s r msg) as [md ->].
  pose proof (extends_write_or_skip a (resolved_state L a t s r msg)
                (resolved_from_index L a t s r msg) (resolved_target L a t s r msg) md
                (resolved_meta L a t s r msg)) as H2.
  destruct (build_for L a t r msg) as [e|b]; [done|].
  destruct (write_or_skip _ _ _ _ _ _) as [s3|e s3]; simpl in H2.
  - eapply extends_trans; [done|]. eapply extends_trans; [done|]. apply extends_finish.
  - simpl. by eapply extends_trans.
Qed.

Lemma extends_loop (L : platform) (a : args) (clock : Z → tick) (rs : list fetched) (s : state) :
  extends s (final (loop L a clock s rs)).
Proof.
  revert s. induction rs as [|r rest IH]; intros s; simpl; [apply extends_refl|].
  pose proof (extends_process L a (clock (uid r)) s r) as Hp.
  destruct (process L a (clock (uid r)) s r) as [s'|e s']; simpl in Hp; [|done].
  eapply extends_trans; [done|]. apply IH.
Qed.

Lemma extends_save_index (a : args) (s : state) : extends s (save_index a s).
Proof.
  unfold save_index. case_bool_decide; [apply extends_logging|].
  unfold extends. simpl. split_and!; try done. exists []. by rewrite app_nil_r.
Qed.

Lemma extends_save_legacy (a : args) (s : state) : extends s (save_legacy a s).
Proof.
  unfold save_legacy. case_bool_decide; [apply extends_refl|].
  unfold extends. simpl. split_and!; try done. exists []. by rewrite app_nil_r.
Qed.

Lemma extends_main (L : platform) (a : args) (start : tick) (clock : Z → tick) (w : world)
    (matched : list fetched) :
  extends (startup L a start w) (final (main L a start clock w matched)).
Proof.
  unfold main. set (s0 := startup L a start w).
  set (s1 := logging INFO _ s0).
  assert (extends s0 s1) as H1 by apply extends_logging.
  destruct matched as [|r0 rest]; [done|].
  pose proof (extends_loop L a clock (newest_first a (r0 :: rest)) s1) as Hl.
  destruct (loop _ _ _ _ _) as [s2|e s2]; simpl in *; [|by eapply extends_trans].
  eapply extends_trans; [done|]. eapply extends_trans; [done|].
  eapply extends_trans; [|apply extends_logging].
  destruct (dry_run a); simpl; rewrite ?andb_false_r, ?andb_true_r; [apply extends_refl|].
  eapply extends_trans; [|apply extends_save_legacy].
  destruct (index_updated s2); [apply extends_save_index|apply extends_refl].
Qed.

Lemma startup_loads (L : platform) (a : args) (start : tick) (w : world) :
  fs (startup L a start w) = w
  ∧ index_updated (startup L a start w) = false
  ∧ processed (startup L a start w) = 0%N
  ∧ dom (by_gm_msgid (load_index w)) ⊆ dom (by_gm_msgid (idx (startup L a start w)))
  ∧ dom (by_message_id (load_index w)) ⊆ dom (by_message_id (idx (startup L a start w))).
Proof.
  unfold startup. destruct (_ && _); simpl; split_and!; try done;
    unfold merge_seeded; simpl; rewrite dom_union; set_solver.
Qed.

(** X6. A run only adds: every identifier of the index file it started
    from is still in the index of its final state, and every note that
    was on disk is still there, however the run ends. *)
Theorem run_only_adds (L : platform) (a : args) (start : tick) (clock : Z → tick) (w : world)
    (matched : list fetched) :
  dom (by_gm_msgid (load_index w)) ⊆ dom (by_gm_msgid (idx (final (main L a start clock w matched))))
  ∧ dom (by_message_id (load_index w))
    ⊆ dom (by_message_id (idx (final (main L a start clock w matched))))
  ∧ dom (files w) ⊆ dom (files (fs (final (main L a start clock w matched)))).
Proof.
  destruct (extends_main L a start clock w matched) as (H1 & H2 & H3 & _).
  destruct (startup_loads L a start w) as (Hfs & _ & _ & G1 & G2).
  rewrite Hfs in H3. split_and!; [by etrans|by etrans|done].
Qed.

Lemma process_counts (L : platform) (a : args) (t : tick) (s : state) (r : fetched) :
  (processed (final (process L a t s r)) <= processed s + 1)%N.
Proof.
  unfold process. destruct (raw r) as [|e|msg]; simpl; [lia..|].
  destruct (negb _); simpl; [lia|].
  assert (processed (resolved_state L a t s r msg) = processed s) as H1.
  { unfold resolved_state, resolve, find_existing.
    destruct (lookup_existing _ _ _);
      by destruct (built _ _ _ _ _) as [[ab md] m]. }
  destruct (resolve_parts L a t s r msg) as [md ->].
  set (s1 := resolved_state L a t s r msg) in *.
  assert (processed (final (write_or_skip a s1 (resolved_from_index L a t s r msg)
                              (resolved_target L a t s r msg) md
                              (resolved_meta L a t s r msg))) = processed s1) as H2.
  { unfold write_or_skip. case_bool_decide; [done|]. destruct (dry_run a); [done|].
    by destruct (write_text _ _ _). }
  destruct (build_for L a t r msg) as [e|b]; [simpl; lia|].
  destruct (write_or_skip _ _ _ _ _ _) as [s3|e s3]; simpl in *; [|lia].
  unfold finish.
  assert (processed (update_index s3 (truthy_id (x_gm_msgid r)) (message_id_of msg)
                       (resolved_target L a t s r msg)) = processed s3) as H3.
  { unfold update_index.
    destruct (truthy_id _) as [g|]; [case_bool_decide|];
      destruct (Py.truthy _); simpl; try case_bool_decide; simpl; auto. }
  unfold update_legacy. destruct (relative_to _ _); simpl; [|lia].
  destruct (legacy_state _ !! _) as [e|]; [destruct (_ || _)|]; simpl; lia.
Qed.

Lemma loop_counts (L : platform) (a : args) (clock : Z → tick) (rs : list fetched) (s : state) :
  (processed (final (loop L a clock s rs)) <= processed s + N.of_nat (length rs))%N.
Proof.
  revert s. induction rs as [|r rest IH]; intros s; [simpl; lia|].
  replace (N.of_nat (length (r :: rest))) with (N.of_nat (length rest) + 1)%N
    by (cbn [length]; lia).
  cbn [loop].
  pose proof (process_counts L a (clock (uid r)) s r) as Hp.
  destruct (process L a (clock (uid r)) s r) as [s'|e s']; cbn [final] in *; [|lia].
  specialize (IH s'). lia.
Qed.

Lemma uid_ge_total : Total uid_ge.
Proof. intros x y. unfold uid_ge. lia. Qed.

Lemma uid_ge_trans : Transitive uid_ge.
Proof. intros x y z. unfold uid_ge. lia. Qed.

Lemma newest_first_take (a : args) (matched : list fetched) :
  newest_first a matched
  = take (length (newest_first a matched)) (merge_sort uid_ge matched).
Proof.
  unfold newest_first, slice_to. rewrite length_take.
  set (n := Z.to_nat _). set (l := merge_sort uid_ge matched).
  destruct (decide (n <= length l)%nat) as [Hle|Hgt].
  - by rewrite Nat.min_l.
  - rewrite Nat.min_r by lia. rewrite !take_ge by lia. done.
Qed.

Lemma newest_first_length (a : args) (matched : list fetched) :
  length (newest_first a matched)
  = Nat.min (Z.to_nat (if (0 <=? max a)%Z then max a
                       else (Z.of_nat (length matched) + max a)%Z))
            (length matched).
Proof.
  unfold newest_first, slice_to.
  by rewrite length_take, !(merge_sort_Permutation uid_ge matched).
Qed.

(** X7. The UIDs a run works on are the newest ones: as many as [--max]
    allows (for a negative [--max], all but that many), sorted from the
    highest UID down, all of them among the matched ones, and no UID left
    out is higher than one kept. *)
Theorem newest_first_takes_the_highest_uids (a : args) (matched : list fetched) :
  length (newest_first a matched)
  = Nat.min (Z.to_nat (if (0 <=? max a)%Z then max a
                       else (Z.of_nat (length matched) + max a)%Z))
            (length matched)
  ∧ StronglySorted uid_ge (newest_first a matched)
  ∧ newest_first a matched ⊆+ matched
  ∧ ∀ kept left, kept ∈ newest_first a matched →
      left ∈ drop (length (newest_first a matched)) (merge_sort uid_ge matched) →
      (uid left <= uid kept)%Z.
Proof.
  pose proof uid_ge_total as Htot. pose proof uid_ge_trans as Htr.
  pose proof (StronglySorted_merge_sort uid_ge matched) as Hs.
  pose proof (merge_sort_Permutation uid_ge matched) as Hp.
  pose proof (newest_first_take a matched) as Htake.
  set (k := length (newest_first a matched)) in *.
  split_and!.
  - apply newest_first_length.
  - rewrite Htake. rewrite <- (take_drop k (merge_sort uid_ge matched)) in Hs.
    by apply StronglySorted_app_1_l in Hs.
  - rewrite Htake. rewrite <- Hp at 2. apply sublist_submseteq, sublist_take.
  - intros kept left Hk Hl. rewrite Htake in Hk.
    rewrite <- (take_drop k (merge_sort uid_ge matched)) in Hs.
    apply StronglySorted_app in Hs as (H & _ & _). by apply (H kept left).
Qed.

(** X8. The counter of processed messages never exceeds the number of
    UIDs worked on: the smaller of [--max] and the number of matches, and
    for a negative [--max] the number of matches less its absolute
    value. *)
Theorem processed_is_bounded (L : platform) (a : args) (start : tick) (clock : Z → tick)
    (w : world) (matched : list fetched) :
  (processed (final (main L a start clock w matched))
   <= N.of_nat (length (newest_first a matched)))%N
  ∧ length (newest_first a matched)
    = Nat.min (Z.to_nat (if (0 <=? max a)%Z then max a
                         else (Z.of_nat (length matched) + max a)%Z))
              (length matched).
Proof.
  split; [|apply newest_first_length].
  unfold main. destruct (startup_loads L a start w) as (_ & _ & H0 & _).
  destruct matched as [|r0 rest]; simpl; [rewrite H0; lia|].
  set (s1 := logging INFO _ _).
  assert (processed s1 = 0%N) as H1 by done.
  pose proof (loop_counts L a clock (newest_first a (r0 :: rest)) s1) as Hl.
  rewrite H1 in Hl.
  destruct (loop _ _ _ _ _) as [s2|e s2]; simpl in *; [|lia].
  assert (∀ s, processed (save_index a s) = processed s) as Hsi.
  { intros s. unfold save_index. by case_bool_decide. }
  assert (∀ s, processed (save_legacy a s) = processed s) as Hsl.
  { intros s. unfold save_legacy. by case_bool_decide. }
  destruct (index_updated s2 && negb (dry_run a)); destruct (negb (dry_run a));
    rewrite ?Hsl, ?Hsi; lia.
Qed.

(** With [--max -1] the lowest UID is left out and the others are worked
    on. *)
Example negative_max_drops_the_oldest :
  map uid (newest_first {| vault_root := "/vault"; dry_run := false; max := (-1)%Z;
                           index_path := "/vault/.imap_ingest_index.json";
                           state_path := "/vault/.imap_ingest_state.json" |}
             [rec_older; rec_sample])
  = [uid rec_sample].
Proof. by vm_compute. Qed.

Lemma loop_keeps_permissions (L : platform) (a : args) (clock : Z → tick) (rs : list fetched)
    (s : state) :
  unwritable (fs (final (loop L a clock s rs))) = unwritable (fs s)
  ∧ index_file (fs (final (loop L a clock s rs))) = index_file (fs s)
  ∧ state_file (fs (final (loop L a clock s rs))) = state_file (fs s).
Proof.
  revert s. induction rs as [|r rest IH]; intros s; simpl; [done|].
  assert (unwritable (fs (final (process L a (clock (uid r)) s r))) = unwritable (fs s)
          ∧ index_file (fs (final (process L a (clock (uid r)) s r))) = index_file (fs s)
          ∧ state_file (fs (final (process L a (clock (uid r)) s r))) = state_file (fs s))
    as Hp.
  { set (t := clock (uid r)). unfold process.
    destruct (raw r) as [|e|msg]; [done..|]. destruct (negb _); [done|].
    pose proof (resolve_fs L a t s r msg) as Hfs.
    destruct (resolve_parts L a t s r msg) as [md Hres]. rewrite Hres in *. simpl in Hfs.
    set (s1 := resolved_state L a t s r msg) in *.
    assert (∀ o, o = write_or_skip a s1 (resolved_from_index L a t s r msg)
                       (resolved_target L a t s r msg) md (resolved_meta L a t s r msg) →
                 unwritable (fs (final o)) = unwritable (fs s1)
                 ∧ index_file (fs (final o)) = index_file (fs s1)
                 ∧ state_file (fs (final o)) = state_file (fs s1)) as Hw.
    { intros o ->. unfold write_or_skip. case_bool_decide; [done|].
      destruct (dry_run a); [done|]. unfold write_text. simpl.
      by case_bool_decide. }
    specialize (Hw _ eq_refl).
    destruct (build_for L a t r msg) as [e|b]; [simpl; by rewrite <- Hfs|].
    destruct (write_or_skip _ _ _ _ _ _) as [s3|e s3]; simpl in Hw.
    - rewrite finish_fs. by rewrite <- Hfs.
    - simpl. by rewrite <- Hfs. }
  destruct (process L a (clock (uid r)) s r) as [s'|e s']; simpl in Hp; [|done].
  destruct (IH s') as (H1 & H2 & H3). destruct Hp as (G1 & G2 & G3).
  split_and!; congruence.
Qed.

(** X9. What a completed real run leaves on disk when the index file,
    the legacy state file and the notes lie at different paths: the index
    file holds the index of the final state when it was changed and its
    path is writable, it is left as it was when nothing changed, and the
    legacy state file holds the final legacy state when its path is
    writable. *)
Theorem completed_run_persists_its_state (L : platform) (a : args) (start : tick)
    (clock : Z → tick) (w : world) (matched : list fetched) (s : state) :
  index_path a ≠ state_path a →
  index_path a ∉ dom (files (fs s)) →
  state_path a ∉ dom (files (fs s)) →
  main L a start clock w matched = Done s →
  dry_run a = false →
  matched ≠ [] →
  (index_updated s = true → index_path a ∉ unwritable w → load_index (fs s) = idx s)
  ∧ (index_updated s = false → index_file (fs s) = index_file w)
  ∧ (state_path a ∉ unwritable w → state_file (fs s) = Stored (legacy_state s)).
Proof.
  intros _ _ _ Hmain Hdry Hne. unfold main in Hmain.
  destruct matched as [|r0 rest]; [done|]. clear Hne.
  set (s1 := logging INFO _ _) in Hmain.
  pose proof (loop_keeps_permissions L a clock (newest_first a (r0 :: rest)) s1) as Hk.
  assert (fs s1 = w) as Hfs1 by apply startup_fs.
  destruct (loop _ _ _ _ _) as [s2|e s2]; [|done]. cbn [final] in Hk. rewrite Hfs1 in Hk.
  destruct Hk as (Hu & Hi & Hst).
  rewrite Hdry in Hmain. simpl in Hmain. rewrite andb_true_r in Hmain.
  injection Hmain as <-.
  set (s3 := if index_updated s2 then save_index a s2 else s2).
  assert (idx s3 = idx s2 ∧ index_updated s3 = index_updated s2
          ∧ legacy_state s3 = legacy_state s2 ∧ unwritable (fs s3) = unwritable w
          ∧ (index_updated s2 = true → index_path a ∉ unwritable w →
             index_file (fs s3) = Stored (idx s2))
          ∧ (index_updated s2 = false → index_file (fs s3) = index_file w))
    as (H1 & H2 & H3 & H4 & H5 & H6).
  { unfold s3, save_index.
    destruct (index_updated s2) eqn:Hupd; [case_bool_decide as Hin|]; simpl;
      split_and!; try done; try (intros _ Hout; by rewrite Hu in Hin). }
  assert (idx (save_legacy a s3) = idx s3
          ∧ index_updated (save_legacy a s3) = index_updated s3
          ∧ legacy_state (save_legacy a s3) = legacy_state s3
          ∧ index_file (fs (save_legacy a s3)) = index_file (fs s3)
          ∧ (state_path a ∉ unwritable w →
             state_file (fs (save_legacy a s3)) = Stored (legacy_state s3)))
    as (G1 & G2 & G3 & G4 & G5).
  { unfold save_legacy. case_bool_decide as Hin; simpl; split_and!; try done;
      try (intros Hout; by rewrite H4 in Hin). }
  cbn [fs idx index_updated legacy_state logging].
  unfold load_index. rewrite G1, G2, G3, G4, H1, H2, H3. split_and!.
  - intros Hupd Hout. by rewrite (H5 Hupd Hout).
  - done.
  - intros Hout. by rewrite (G5 Hout), H3.
Qed.

Lemma completed_run_persists_its_state_witness :
  (index_updated (final (main sample_platform args_real tick_a clock_sample empty_world
                           [rec_sample])) = true →
   index_path args_real ∉ unwritable empty_world →
   load_index (fs (final (main sample_platform args_real tick_a clock_sample empty_world
                            [rec_sample])))
   = idx (final (main sample_platform args_real tick_a clock_sample empty_world [rec_sample])))
  ∧ (index_updated (final (main sample_platform args_real tick_a clock_sample empty_world
                             [rec_sample])) = false →
     index_file (fs (final (main sample_platform args_real tick_a clock_sample empty_world
                              [rec_sample])))
     = index_file empty_world)
  ∧ (state_path args_real ∉ unwritable empty_world →
     state_file (fs (final (main sample_platform args_real tick_a clock_sample empty_world
                              [rec_sample])))
     = Stored (legacy_state (final (main sample_platform args_real tick_a clock_sample
                                      empty_world [rec_sample])))).
Proof.
  apply (completed_run_persists_its_state sample_platform args_real tick_a clock_sample
           empty_world [rec_sample]).
  - done.
  - apply (bool_decide_eq_false_1 _). by vm_compute.
  - apply (bool_decide_eq_false_1 _). by vm_compute.
  - by vm_compute.
  - by vm_compute.
  - by vm_compute.
Defined.

End IndexFacts.

Section LegacyFacts.
Import Datetime Json Labels Ingest.

Lemma resolved_state_counts (L : platform) (a : args) (t : tick) (s : state) (r : fetched)
    (msg : message) :
  processed (resolved_state L a t s r msg) = processed s
  ∧ legacy_state (resolved_state L a t s r msg) = legacy_state s.
Proof.
  unfold resolved_state, resolve, find_existing.
  destruct (lookup_existing _ _ _);
    by destruct (built _ _ _ _ _) as [[ab md] m].
Qed.

Lemma update_index_rest (s : state) (gm : option Z) (m target : string) :
  processed (update_index s gm m target) = processed s
  ∧ legacy_state (update_index s gm m target) = legacy_state s
  ∧ log (update_index s gm m target) = log s.
Proof.
  unfold update_index.
  destruct (truthy_id gm) as [g|]; [case_bool_decide|];
    destruct (Py.truthy m); simpl; try case_bool_decide; simpl; auto.
Qed.

(** X10. An index entry that places a wanted message outside the vault
    ends the run: the step raises, with the exception of [build_markdown]
    when that raises, and otherwise with the OSError of the write or the
    ValueError of [relative_to]; the message is not counted as processed,
    and when the ValueError follows a real write the note is already on
    disk. *)
Theorem target_outside_vault_ends_the_run (L : platform) (a : args) (t : tick) (s : state)
    (r : fetched) (msg : message) :
  raw r = Parses msg →
  wants_processing (canonicalize_labels (x_gm_labels r)) = true →
  relative_to (vault_root a) (resolved_target L a t s r msg) = None →
  ∃ e s', process L a t s r = Raised e s'
    ∧ (build_for L a t r msg = Throws e
       ∨ (∃ b, build_for L a t r msg = Gives b) ∧ (e = "OSError" ∨ e = "ValueError"))
    ∧ processed s' = processed s
    ∧ ((∃ b, build_for L a t r msg = Gives b) → e = "ValueError" → dry_run a = false →
       read_existing_checksum (fs s) (resolved_target L a t s r msg)
         ≠ Some (m_checksum (resolved_meta L a t s r msg)) →
       is_Some (files (fs s') !! resolved_target L a t s r msg)).
Proof.
  intros Hraw Hw Hrel. unfold process. rewrite Hraw, Hw. simpl.
  pose proof (resolve_fs L a t s r msg) as Hfs.
  destruct (resolved_state_counts L a t s r msg) as [Hproc _].
  destruct (resolve_parts L a t s r msg) as [md Hres]. rewrite Hres in *. simpl in Hfs.
  set (s1 := resolved_state L a t s r msg) in *.
  set (target := resolved_target L a t s r msg) in *.
  set (m := resolved_meta L a t s r msg) in *.
  destruct (build_for L a t r msg) as [e0|b] eqn:Hb.
  { exists e0, s1. split_and!; [done|by left|done|]. by intros [b [=]]. }
  assert (∃ b', Gives b = Gives b') as Hgives by (by exists b).
  unfold write_or_skip. rewrite Hfs.
  assert (∀ s3, processed s3 = processed s →
            ∃ s', finish a r msg m target s3 = Raised "ValueError" s'
                  ∧ processed s' = processed s ∧ fs s' = fs s3) as Hfin.
  { intros s3 H3. unfold finish, update_legacy. rewrite Hrel. eexists. split; [done|].
    destruct (update_index_rest s3 (truthy_id (x_gm_msgid r)) (message_id_of msg) target)
      as (-> & _). by rewrite update_index_fs. }
  case_bool_decide as Hsum.
  - destruct (Hfin (logging INFO ("Duplicate/no-change: " ++ target) s1)) as (s' & -> & Hp & _);
      [done|]. exists "ValueError", s'. split_and!; auto. by intros _ _ _ Hne.
  - destruct (dry_run a) eqn:Hdry.
    + match goal with |- context [finish a r msg m target ?x] => destruct (Hfin x) as (s' & -> & Hp & _) end;
        [done|]. exists "ValueError", s'. split_and!; auto. by intros _ _ ?.
    + unfold write_text. simpl. case_bool_decide as Hlock.
      * eexists "OSError", _. split_and!; [done|right; by auto|done|by intros _ ?].
      * match goal with |- context [finish a r msg m target ?x] =>
          destruct (Hfin x) as (s' & -> & Hp & Hfs') end; [done|].
        exists "ValueError", s'. split_and!; auto.
        intros _ _ _ _. rewrite Hfs'. simpl. rewrite lookup_insert_eq. by eexists.
Qed.

Lemma target_outside_vault_ends_the_run_witness :
  ∃ e s', process sample_platform args_real tick_a state_outside rec_sample = Raised e s'
    ∧ (build_for sample_platform args_real tick_a rec_sample msg_sample = Throws e
       ∨ (∃ b, build_for sample_platform args_real tick_a rec_sample msg_sample = Gives b)
         ∧ (e = "OSError" ∨ e = "ValueError"))
    ∧ processed s' = processed state_outside
    ∧ ((∃ b, build_for sample_platform args_real tick_a rec_sample msg_sample = Gives b) →
       e = "ValueError" → dry_run args_real = false →
       read_existing_checksum (fs state_outside)
         (resolved_target sample_platform args_real tick_a state_outside rec_sample msg_sample)
         ≠ Some (m_checksum
                   (resolved_meta sample_platform args_real tick_a state_outside rec_sample
                      msg_sample)) →
       is_Some (files (fs s')
                  !! resolved_target sample_platform args_real tick_a state_outside rec_sample
                       msg_sample)).
Proof.
  apply (target_outside_vault_ends_the_run sample_platform args_real tick_a state_outside
           rec_sample msg_sample); by vm_compute.
Defined.

(** A Date header near the end of the range parses, and the local date of
    the note path is then out of range: [build_markdown] raises, and the
    step ends on its OverflowError before any write. *)
Example build_markdown_overflow_ends_the_step :
  build_for sample_platform args_real tick_a rec_far msg_far = Throws "OverflowError"
  ∧ ∃ s', process sample_platform args_real tick_a state_empty rec_far
          = Raised "OverflowError" s'
          ∧ fs s' = fs state_empty.
Proof. split; [by vm_compute|]. eexists. split; by vm_compute. Qed.

(** X11. After a wanted message went through, the legacy state holds an
    entry for it under its X-GM-MSGID (or its UID) with the checksum of
    the note and its path relative to the vault, and the message is
    counted once. *)
Theorem legacy_state_follows_the_note (L : platform) (a : args) (t : tick) (s s' : state)
    (r : fetched) (msg : message) :
  raw r = Parses msg →
  wants_processing (canonicalize_labels (x_gm_labels r)) = true →
  process L a t s r = Done s' →
  ∃ e, legacy_state s' !! str_of_Z (default (uid r) (truthy_id (x_gm_msgid r))) = Some e
       ∧ le_checksum e = m_checksum (resolved_meta L a t s r msg)
       ∧ relative_to (vault_root a) (resolved_target L a t s r msg) = Some (le_path e)
       ∧ processed s' = (processed s + 1)%N.
Proof.
  intros Hraw Hw. unfold process. rewrite Hraw, Hw. simpl.
  destruct (resolved_state_counts L a t s r msg) as [Hproc _].
  destruct (resolve_parts L a t s r msg) as [md ->].
  set (s1 := resolved_state L a t s r msg) in *.
  set (target := resolved_target L a t s r msg) in *.
  set (m := resolved_meta L a t s r msg) in *.
  assert (processed (final (write_or_skip a s1 (resolved_from_index L a t s r msg) target md m))
          = processed s1) as Hws.
  { unfold write_or_skip. case_bool_decide; [done|]. destruct (dry_run a); [done|].
    by destruct (write_text _ _ _). }
  destruct (build_for L a t r msg) as [e|b]; [done|].
  destruct (write_or_skip _ _ _ _ _ _) as [s3|e s3]; [|done]. simpl in Hws.
  unfold finish, update_legacy.
  destruct (update_index_rest s3 (truthy_id (x_gm_msgid r)) (message_id_of msg) target)
    as (Hp4 & Hl4 & _).
  set (s4 := update_index _ _ _ _) in *.
  destruct (relative_to (vault_root a) target) as [rel|]; [|done].
  destruct (legacy_state s4 !! _) as [e|] eqn:He.
  - destruct (negb (bool_decide (le_checksum e = m_checksum m))
              || negb (bool_decide (le_path e = rel))) eqn:Hstale.
    + intros [= <-]. simpl. rewrite lookup_insert_eq. eexists. split_and!; try done. lia.
    + intros [= <-]. simpl. rewrite He. exists e.
      apply orb_false_iff in Hstale as [H1 H2].
      apply negb_false_iff, bool_decide_eq_true_1 in H1.
      apply negb_false_iff, bool_decide_eq_true_1 in H2.
      split_and!; try done; [by rewrite H2|lia].
  - intros [= <-]. simpl. rewrite lookup_insert_eq. eexists. split_and!; try done. lia.
Qed.

Lemma legacy_state_follows_the_note_witness :
  ∃ e, legacy_state (final (process sample_platform args_real tick_a state_empty rec_sample))
         !! str_of_Z (default (uid rec_sample) (truthy_id (x_gm_msgid rec_sample))) = Some e
       ∧ le_checksum e
         = m_checksum (resolved_meta sample_platform args_real tick_a state_empty rec_sample
                         msg_sample)
       ∧ relative_to (vault_root args_real)
           (resolved_target sample_platform args_real tick_a state_empty rec_sample msg_sample)
         = Some (le_path e)
       ∧ processed (final (process sample_platform args_real tick_a state_empty rec_sample))
         = (processed state_empty + 1)%N.
Proof.
  apply (legacy_state_follows_the_note sample_platform args_real tick_a state_empty
           (final (process sample_platform args_real tick_a state_empty rec_sample))
           rec_sample msg_sample); by vm_compute.
Defined.

End LegacyFacts.

Section QueryFacts.
Import Datetime Json Labels Ingest.

Example gmail_label_query_samples :
  gmail_label_query utcnow_sample ["Save"; "Slack-Thread"] (Some "2W")
  = Some (Py.dq "(label:'Save' OR label:'Slack-Thread') after:2026/02/24")
  ∧ gmail_label_query utcnow_sample [] (Some " 2025-01-31") = Some "after: 2025/01/31"
  ∧ gmail_label_query utcnow_sample [] None = Some "in:anywhere"
  ∧ gmail_label_query utcnow_sample [] (Some "3000y") = None
  ∧ gmail_label_query utcnow_sample [] (Some "1100y") = Some "after:926/12/02"
  ∧ gmail_label_query utcnow_sample ["Save"] (Some "12") = Some (Py.dq "(label:'Save') after:12").
Proof. by vm_compute. Qed.

(** More than 4300 digits are more than [int] reads, whatever their
    value. *)
Example gmail_label_query_digit_limit :
  gmail_label_query utcnow_sample [] (Some (repeat_string 4300 "0" ++ "1d")) = None
  ∧ gmail_label_query utcnow_sample [] (Some "1d") = Some "after:2026/03/09".
Proof. split; by vm_compute. Qed.

Lemma join_nonempty (sep x : string) (l : list string) :
  x ≠ "" → Py.join sep (x :: l) ≠ "".
Proof. intros Hx. simpl. destruct l; [done|]. destruct x; [done|]. done. Qed.

Lemma join_head (sep : string) (c : ascii) (x : string) (l : list string) :
  ∃ r, Py.join sep (String c x :: l) = String c r.
Proof. simpl. destruct l; eauto. Qed.

(** X12. The search query is never the empty string, and it is
    [in:anywhere] exactly when there is neither a label nor a [since]
    value. *)
Theorem gmail_label_query_never_empty (utcnow : datetime) (labels : list string)
    (since : option string) (q : string) :
  gmail_label_query utcnow labels since = Some q →
  q ≠ ""
  ∧ (q = "in:anywhere" ↔ labels = [] ∧ Py.or_str since "" = "").
Proof.
  unfold gmail_label_query.
  set (parts1 := match labels with [] => [] | _ => _ end).
  assert (labels = [] ∧ parts1 = []
          ∨ labels ≠ [] ∧ ∃ x, parts1 = [String "(" x]) as Hp1.
  { unfold parts1. destruct labels; [by left|]. right. split; [done|]. by eexists. }
  assert (∀ parts2, parts2 = [] ∨ (∃ x, parts2 = [String "a" x]) →
            ∀ q, match (parts1 ++ parts2)%list with
                 | [] => "in:anywhere"
                 | parts => Py.join " " parts
                 end = q →
            q ≠ "" ∧ (q = "in:anywhere" ↔ labels = [] ∧ parts2 = [])) as Hjoin.
  { intros parts2 Hp2 q' <-.
    destruct Hp1 as [[-> ->]|[Hne [x ->]]]; destruct Hp2 as [->|[y ->]]; simpl.
    - done.
    - split; [done|]. split; [done|]. by intros [_ ?].
    - split; [done|]. split; [done|]. by intros [? _].
    - split; [done|]. split; [done|]. by intros [? _]. }
  destruct since as [s|]; simpl.
  - destruct (Py.truthy s) eqn:Ht.
    + assert (s ≠ "") as Hs by (by destruct s).
      destruct (relative_since "" (Py.strip s)) as [[digits u]|].
      * destruct (4300 <? Py.len digits)%N; [done|].
        destruct (cutoff utcnow _) as [c|]; simpl; [|done]. intros [= <-].
        destruct (Hjoin ["after:" ++ c] (or_intror (ex_intro _ _ eq_refl)) _ eq_refl)
          as [H1 H2].
        split; [done|]. rewrite H2. split; [by intros [_ ?]|]. by intros [_ ?].
      * simpl. intros [= <-].
        destruct (Hjoin ["after:" ++ Py.replace_char "-" "/" s]
                    (or_intror (ex_intro _ _ eq_refl)) _ eq_refl) as [H1 H2].
        split; [done|]. rewrite H2. split; [by intros [_ ?]|]. by intros [_ ?].
    + simpl. intros [= <-].
      destruct (Hjoin [] (or_introl eq_refl) _ eq_refl) as [H1 H2].
      split; [done|]. rewrite H2. destruct s; [|done]. naive_solver.
  - intros [= <-].
    destruct (Hjoin [] (or_introl eq_refl) _ eq_refl) as [H1 H2].
    split; [done|]. rewrite H2. naive_solver.
Qed.

Lemma gmail_label_query_never_empty_witness :
  Py.dq "(label:'Save') after:2026/03/03" ≠ ""
  ∧ (Py.dq "(label:'Save') after:2026/03/03" = "in:anywhere"
     ↔ ["Save"] = [] ∧ Py.or_str (Some "1w") "" = "").
Proof.
  apply (gmail_label_query_never_empty utcnow_sample ["Save"] (Some "1w")). by vm_compute.
Defined.

Lemma lstrip_no_space (c : ascii) (r : string) :
  Py.isspace c = false → Py.lstrip (String c r) = String c r.
Proof. intros H. simpl. by rewrite H. Qed.

Lemma rstrip_no_space (s : string) :
  Py.chars_in (fun c => Py.isspace c = false) s → Py.rstrip s = s.
Proof.
  induction s as [|c r IH]; simpl; [done|]. intros [Hc Hr]. rewrite (IH Hr).
  destruct r; [by rewrite Hc|done].
Qed.

Lemma chars_in_app (P : ascii → Prop) (s1 s2 : string) :
  Py.chars_in P s1 → Py.chars_in P s2 → Py.chars_in P (s1 ++ s2).
Proof. induction s1; simpl; naive_solver. Qed.

Lemma strip_no_space (s : string) :
  Py.chars_in (fun c => Py.isspace c = false) s → Py.strip s = s.
Proof.
  intros H. unfold Py.strip. destruct s as [|c r]; [done|].
  rewrite lstrip_no_space by apply H. by apply rstrip_no_space.
Qed.

Lemma digit_no_space (c : ascii) : Re.isdigit c = true → Py.isspace c = false.
Proof. destruct c as [[] [] [] [] [] [] [] []]; by vm_compute. Qed.

Lemma unit_no_space (u : ascii) :
  Py.contains_char (Py.lower_char u) "dwmy" = true → Py.isspace u = false.
Proof. destruct u as [[] [] [] [] [] [] [] []]; by vm_compute. Qed.

Lemma append_assoc (a b c : string) : (a ++ b) ++ c = a ++ (b ++ c).
Proof.
  induction a as [|x a IH]; [done|].
  change (String x ((a ++ b) ++ c) = String x (a ++ (b ++ c))). by rewrite IH.
Qed.

Lemma relative_since_digits (acc ds : string) (u : ascii) :
  Py.chars_in (fun c => Re.isdigit c = true) ds →
  relative_since acc (ds ++ String u "")
  = if Py.truthy (acc ++ ds) && Py.contains_char (Py.lower_char u) "dwmy"
    then Some (acc ++ ds, Py.lower_char u) else None.
Proof.
  revert acc. induction ds as [|c r IH]; intros acc Hd; simpl.
  - assert (acc ++ "" = acc) as ->.
    { clear. induction acc as [|x acc IH]; [done|].
      change (String x (acc ++ "") = String x acc). by rewrite IH. }
    done.
  - destruct Hd as [Hc Hr]. rewrite Hc.
    assert (acc ++ String c r = (acc ++ String c "") ++ r) as ->.
    { by rewrite append_assoc. }
    rewrite <- (IH _ Hr). by destruct r.
Qed.

(** X13. A relative [since] value counts days: a week is 7 days, a
    month 30 and a year 365, in either case of the unit letter, so two
    values of at most 4300 digits, the most that [int] reads, that come
    to the same number of days give the same query. *)
Theorem gmail_label_query_relative_units (utcnow : datetime) (labels : list string)
    (d1 d2 : string) (u1 u2 : ascii) :
  d1 ≠ "" → d2 ≠ "" →
  (Py.len d1 <= 4300)%N → (Py.len d2 <= 4300)%N →
  Py.chars_in (fun c => Re.isdigit c = true) d1 →
  Py.chars_in (fun c => Re.isdigit c = true) d2 →
  Py.contains_char (Py.lower_char u1) "dwmy" = true →
  Py.contains_char (Py.lower_char u2) "dwmy" = true →
  (int_of_digits d1 * unit_days (Py.lower_char u1)
   = int_of_digits d2 * unit_days (Py.lower_char u2))%Z →
  gmail_label_query utcnow labels (Some (d1 ++ String u1 ""))
  = gmail_label_query utcnow labels (Some (d2 ++ String u2 "")).
Proof.
  intros Hn1 Hn2 Hl1 Hl2 Hd1 Hd2 Hu1 Hu2 Heq.
  assert (∀ d u, d ≠ "" → Py.chars_in (fun c => Re.isdigit c = true) d →
            Py.contains_char (Py.lower_char u) "dwmy" = true →
            Py.truthy (d ++ String u "") = true
            ∧ relative_since "" (Py.strip (d ++ String u "")) = Some (d, Py.lower_char u))
    as Hq.
  { intros d u Hn Hd Hu. split; [by destruct d|].
    rewrite strip_no_space.
    - rewrite (relative_since_digits "" d u Hd).
      change ("" ++ d) with d.
      assert (Py.truthy d = true) as -> by (by destruct d). by rewrite Hu.
    - apply chars_in_app; [|by split; [apply unit_no_space|]].
      clear Hn. induction d; simpl in *; [done|]. split; [apply digit_no_space|]; naive_solver. }
  destruct (Hq d1 u1 Hn1 Hd1 Hu1) as [Ht1 Hr1]. destruct (Hq d2 u2 Hn2 Hd2 Hu2) as [Ht2 Hr2].
  unfold gmail_label_query. rewrite Ht1, Ht2, Hr1, Hr2, Heq.
  by rewrite !(proj2 (N.ltb_ge _ _)) by done.
Qed.

Lemma gmail_label_query_relative_units_witness :
  gmail_label_query utcnow_sample ["Save"] (Some "2W")
  = gmail_label_query utcnow_sample ["Save"] (Some "14d").
Proof.
  apply (gmail_label_query_relative_units utcnow_sample ["Save"] "2" "14" "W" "d");
    by vm_compute.
Defined.

End QueryFacts.


Section MoreCalendarFacts.
Import Datetime Calendar.

(** X14. An event without an attendee list that is not a
    working-location entry is never filtered out, whatever the user's
    address and the time: the loop either raises on it or appends it as
    formatted, so whenever the loop completes the event is in the
    output. *)
Theorem event_without_attendees_is_kept (L : platform) (user_email : string) (now : datetime)
    (ev : event) (rest : list event) :
  attendees ev = [] →
  eventType ev ≠ Some "workingLocation" →
  process_event L user_email now ev ≠ Skipped
  ∧ (∀ f, process_event L user_email now ev = Kept f → format_event L ev = Some f)
  ∧ ∀ out, filter_events L user_email now (ev :: rest) = Some out →
      ∃ f out', format_event L ev = Some f
                ∧ filter_events L user_email now rest = Some out'
                ∧ out = f :: out'.
Proof.
  intros Hatt Htype.
  assert (process_event L user_email now ev = Overflows
          ∨ ∃ f, process_event L user_email now ev = Kept f ∧ format_event L ev = Some f)
    as Hp.
  { unfold process_event, is_user_invited, declined_future, has_user_declined.
    rewrite bool_decide_eq_false_2 by done. rewrite Hatt. simpl.
    assert (∀ o, (o = None ∨ o = Some false) →
              match o with
              | Some true => Skipped
              | Some false => match format_event L ev with
                              | Some f => Kept f
                              | None => Overflows
                              end
              | None => Overflows
              end = Overflows
              ∨ ∃ f, match o with
                     | Some true => Skipped
                     | Some false => match format_event L ev with
                                     | Some f => Kept f
                                     | None => Overflows
                                     end
                     | None => Overflows
                     end = Kept f ∧ format_event L ev = Some f) as Hcase.
    { intros o [->| ->]; [by left|].
      destruct (format_event L ev) as [f|]; [right; by exists f|by left]. }
    apply Hcase.
    destruct (first_truthy _ _) as [s|]; [|by right].
    destruct (Py.truthy s); [|by right].
    destruct (parse_start L s); [right|by right|by left]. by rewrite andb_false_r. }
  split_and!.
  - destruct Hp as [->|(f & -> & _)]; done.
  - intros f Hf. destruct Hp as [Hp|(f' & Hp & Hfe)]; rewrite Hp in Hf; [done|].
    by injection Hf as <-.
  - intros out. cbn [filter_events].
    destruct Hp as [->|(f & -> & Hf)]; [done|].
    destruct (filter_events L user_email now rest) as [out'|]; [|done].
    intros [= <-]. by exists f, out'.
Qed.

Lemma event_without_attendees_is_kept_witness :
  process_event sample_platform "me@example.com" now_sample all_day_event ≠ Skipped
  ∧ (∀ f, process_event sample_platform "me@example.com" now_sample all_day_event = Kept f →
          format_event sample_platform all_day_event = Some f)
  ∧ ∀ out, filter_events sample_platform "me@example.com" now_sample [all_day_event]
           = Some out →
      ∃ f out', format_event sample_platform all_day_event = Some f
                ∧ filter_events sample_platform "me@example.com" now_sample [] = Some out'
                ∧ out = f :: out'.
Proof.
  apply (event_without_attendees_is_kept sample_platform "me@example.com" now_sample
           all_day_event []); by vm_compute.
Defined.

Lemma existsb_false_forall {A} (f : A → bool) (l : list A) :
  (∀ x, x ∈ l → f x = false) → existsb f l = false.
Proof.
  induction l as [|x l IH]; simpl; [done|]. intros H.
  rewrite (H x) by left. apply IH. intros y Hy. apply H. by right.
Qed.

(** X15. A working-location entry, and an event whose attendee list is
    not empty and does not hold the user's address, is never in the
    output. *)
Theorem uninvited_or_working_location_is_dropped (L : platform) (user_email : string)
    (now : datetime) (ev : event) (rest : list event) :
  eventType ev = Some "workingLocation"
  ∨ (attendees ev ≠ []
     ∧ ∀ a, a ∈ attendees ev → Py.lower (default "" (a_email a)) ≠ Py.lower user_email) →
  process_event L user_email now ev = Skipped
  ∧ filter_events L user_email now (ev :: rest) = filter_events L user_email now rest.
Proof.
  intros H.
  assert (process_event L user_email now ev = Skipped) as Hp.
  { unfold process_event. destruct H as [Hw|[Hne Hno]].
    - by rewrite bool_decide_eq_true_2.
    - case_bool_decide; [done|].
      assert (is_user_invited ev user_email = false) as ->; [|done].
      unfold is_user_invited. destruct (attendees ev) as [|a l] eqn:E; [done|].
      apply existsb_false_forall. intros x Hx. unfold email_matches.
      apply bool_decide_eq_false_2. by apply Hno. }
  split; [done|]. simpl. by rewrite Hp.
Qed.

Lemma uninvited_or_working_location_is_dropped_witness :
  process_event sample_platform "carol@example.com" now_sample
    (declined_event "2026-03-09T09:00:00Z") = Skipped
  ∧ filter_events sample_platform "carol@example.com" now_sample
      [declined_event "2026-03-09T09:00:00Z"]
    = filter_events sample_platform "carol@example.com" now_sample [].
Proof.
  apply (uninvited_or_working_location_is_dropped sample_platform "carol@example.com"
           now_sample (declined_event "2026-03-09T09:00:00Z") []).
  right. split; [done|]. intros a Ha.
  repeat (apply elem_of_cons in Ha as [->|Ha]; [by vm_compute|]).
  by apply elem_of_nil in Ha.
Defined.

Lemma email_matches_case (u1 u2 : string) (a : attendee) :
  Py.lower u1 = Py.lower u2 → email_matches u1 a = email_matches u2 a.
Proof. intros H. unfold email_matches. by rewrite H. Qed.

Lemma process_event_case (L : platform) (u1 u2 : string) (now : datetime) (ev : event) :
  Py.lower u1 = Py.lower u2 → process_event L u1 now ev = process_event L u2 now ev.
Proof.
  intros H. unfold process_event, is_user_invited, declined_future, has_user_declined.
  assert (∀ l, existsb (email_matches u1) l = existsb (email_matches u2) l) as He.
  { induction l as [|a l IH]; simpl; [done|]. by rewrite IH, (email_matches_case u1 u2). }
  assert (∀ l, declined_in l u1 = declined_in l u2) as Hd.
  { induction l as [|a l IH]; simpl; [done|]. by rewrite IH, (email_matches_case u1 u2). }
  by rewrite He, Hd.
Qed.

(** X16. The user's address is compared without regard to letter case:
    two addresses with the same lower-case form give the same output. *)
Theorem filter_events_ignores_case (L : platform) (u1 u2 : string) (now : datetime)
    (events : list event) :
  Py.lower u1 = Py.lower u2 →
  filter_events L u1 now events = filter_events L u2 now events.
Proof.
  intros H. induction events as [|ev rest IH]; simpl; [done|].
  by rewrite IH, (process_event_case L u1 u2).
Qed.

Lemma filter_events_ignores_case_witness :
  filter_events sample_platform "Me@Example.COM" now_sample
    [declined_event "2026-03-11T09:00:00Z"; all_day_event]
  = filter_events sample_platform "me@example.com" now_sample
      [declined_event "2026-03-11T09:00:00Z"; all_day_event].
Proof.
  apply (filter_events_ignores_case sample_platform "Me@Example.COM" "me@example.com").
  by vm_compute.
Defined.

(** X17. An event that has a start date and no start dateTime is shown
    as spanning its day: whenever it is formatted (formatting its end
    can raise), its date is the start date and its times are 00:00:00
    and 23:59:59, whatever its end says. *)
Theorem all_day_event_spans_the_day (L : platform) (ev : event) (d : string)
    (f : formatted_event) :
  Py.or_str (start_dateTime ev) "" = "" →
  start_date ev = Some d →
  Py.truthy d = true →
  has_T d = false →
  format_event L ev = Some f →
  f_date f = d ∧ f_start_time f = "00:00:00" ∧ f_end_time f = "23:59:59".
Proof.
  intros Hdt Hd Ht HT.
  assert (first_truthy (start_dateTime ev) (start_date ev) = Some d) as Hs.
  { unfold first_truthy. destruct (start_dateTime ev) as [s|]; [|done].
    unfold Py.or_str in Hdt. destruct (Py.truthy s) eqn:E; [|done]. by subst. }
  assert (format_datetime L (Some d) = Some (d, "00:00:00")) as Hfd.
  { unfold format_datetime. by rewrite Ht, HT. }
  unfold format_event. rewrite Hs, Hfd.
  destruct (format_datetime L (first_truthy (end_dateTime ev) (end_date ev)))
    as [[ed et]|]; [|done].
  rewrite Hd. simpl. rewrite Ht. by intros [= <-].
Qed.

Lemma all_day_event_spans_the_day_witness :
  ∃ f, format_event sample_platform all_day_event = Some f
       ∧ f_date f = "2026-03-12"
       ∧ f_start_time f = "00:00:00"
       ∧ f_end_time f = "23:59:59".
Proof.
  destruct (format_event sample_platform all_day_event) as [f|] eqn:Hf;
    [|by vm_compute in Hf].
  exists f. split; [done|].
  apply (all_day_event_spans_the_day sample_platform all_day_event "2026-03-12" f);
    by vm_compute.
Defined.

Lemma format_event_id (L : platform) (ev : event) (f : formatted_event) :
  format_event L ev = Some f → f_event_id f = default "" (event_id ev).
Proof.
  unfold format_event. destruct (format_datetime L _) as [[sd st]|]; [|done].
  destruct (format_datetime L _) as [[ed et]|]; [|done]. by intros [= <-].
Qed.

Lemma process_event_kept (L : platform) (user_email : string) (now : datetime) (ev : event)
    (f : formatted_event) :
  process_event L user_email now ev = Kept f → format_event L ev = Some f.
Proof.
  unfold process_event. destruct (bool_decide _); [done|]. destruct (negb _); [done|].
  destruct (declined_future _ _ _ _) as [[]|]; [done| |done].
  destruct (format_event L ev); [|done]. by intros [= ->].
Qed.

(** X18. The output keeps the order of the events the calendar returned
    and adds none: whenever the loop completes, the identifiers of the
    output are a sublist of the identifiers of the input. *)
Theorem filter_events_keeps_order (L : platform) (user_email : string) (now : datetime)
    (events : list event) (out : list formatted_event) :
  filter_events L user_email now events = Some out →
  map f_event_id out `sublist_of` map (fun ev => default "" (event_id ev)) events
  ∧ (length out ≤ length events)%nat.
Proof.
  revert out. induction events as [|ev rest IH]; intros out.
  - simpl. by intros [= <-].
  - cbn [filter_events map length].
    destruct (process_event L user_email now ev) as [|f|] eqn:Hp; [| |done].
    + intros Hrest. destruct (IH out Hrest) as [H1 H2].
      split; [by apply sublist_cons|lia].
    + destruct (filter_events L user_email now rest) as [out'|]; [|done].
      intros [= <-]. destruct (IH out' eq_refl) as [H1 H2]. cbn [map length].
      rewrite (format_event_id L ev f (process_event_kept _ _ _ _ _ Hp)).
      split; [by apply sublist_skip|lia].
Qed.

Lemma filter_events_keeps_order_witness :
  map f_event_id [] `sublist_of`
    map (fun ev => default "" (event_id ev)) [declined_event "2026-03-11T09:00:00Z"]
  ∧ (length (@nil formatted_event) ≤ length [declined_event "2026-03-11T09:00:00Z"])%nat.
Proof.
  apply (filter_events_keeps_order sample_platform "me@example.com" now_sample
           [declined_event "2026-03-11T09:00:00Z"] []).
  by vm_compute.
Defined.

(** X19. The accepted attendees are exactly the non-empty addresses of
    attendees whose response is accepted or tentative. *)
Theorem accepted_attendees_have_accepted (ev : event) (e : string) :
  e ∈ get_accepted_attendees ev
  ↔ ∃ a, a ∈ attendees ev ∧ a_email a = Some e ∧ e ≠ ""
         ∧ (a_responseStatus a = Some "accepted" ∨ a_responseStatus a = Some "tentative").
Proof.
  unfold get_accepted_attendees. split.
  - intros He. apply list_elem_of_In, in_flat_map in He as (a & Ha & He).
    apply list_elem_of_In in Ha. exists a. split; [done|].
    destruct (a_responseStatus a) as [st|] eqn:Es; simpl in He.
    + destruct (bool_decide (st = "accepted") || bool_decide (st = "tentative")) eqn:Eb;
        [|done].
      destruct (a_email a) as [x|]; [|done]. destruct (Py.truthy x) eqn:Ex; [|done].
      destruct He as [<-|[]]. split_and!; [done|by destruct x|].
      apply orb_true_iff in Eb as [Eb|Eb]; apply bool_decide_eq_true_1 in Eb; subst; auto.
    + done.
  - intros (a & Ha & He & Hne & Hst). apply list_elem_of_In, in_flat_map.
    exists a. split; [by apply list_elem_of_In|].
    rewrite He. assert (Py.truthy e = true) as -> by (by destruct e).
    destruct Hst as [-> | ->]; simpl; auto.
Qed.

End MoreCalendarFacts.

Section WindowFacts.
Import Datetime Calendar.
Local Open Scope Z_scope.

(** X20. The window of a date-only value is its local day: both bounds
    are UTC values, the first is midnight of that date at the local
    offset, and the second lies 23:59:59.999999 after it. *)
Theorem date_window_is_the_local_day (L : platform) (off : Z) (value : string)
    (s e : datetime) :
  has_T (Py.strip value) = false →
  parse_datetime_param L off value true = Utc s →
  parse_datetime_param L off value false = Utc e →
  tzoffset s = Some 0 ∧ tzoffset e = Some 0
  ∧ (∃ d, strptime_date L (Py.strip value) = Some d
          ∧ instant 0 s
            = (days_from_civil (year d) (month d) (day d) * 86400 - off) * 1000000)
  ∧ instant 0 e - instant 0 s = 86399999999.
Proof.
  intros HT. unfold parse_datetime_param. rewrite HT. simpl.
  destruct (strptime_date L (Py.strip value)) as [d|]; [|done].
  destruct (to_utc (mkdt _ _ _ 0 0 0 0 _)) as [us|] eqn:Es; [|done].
  destruct (to_utc (mkdt _ _ _ 23 59 59 999999 _)) as [ue|] eqn:Ee; [|done].
  intros [= <-] [= <-].
  apply to_utc_instant in Es as [Hs1 Hs2]. apply to_utc_instant in Ee as [He1 He2].
  split_and!; [done|done| |].
  - exists d. split; [done|]. rewrite Hs2. unfold instant. simpl. lia.
  - rewrite Hs2, He2. unfold instant. simpl. lia.
Qed.

Lemma date_window_is_the_local_day_witness :
  tzoffset (mkdt 2025 1 1 5 0 0 0 (Some 0)) = Some 0
  ∧ tzoffset (mkdt 2025 1 2 4 59 59 999999 (Some 0)) = Some 0
  ∧ (∃ d, strptime_date sample_platform (Py.strip " 2025-01-01") = Some d
          ∧ instant 0 (mkdt 2025 1 1 5 0 0 0 (Some 0))
            = (days_from_civil (year d) (month d) (day d) * 86400 - -18000) * 1000000)
  ∧ instant 0 (mkdt 2025 1 2 4 59 59 999999 (Some 0))
    - instant 0 (mkdt 2025 1 1 5 0 0 0 (Some 0)) = 86399999999.
Proof.
  apply (date_window_is_the_local_day sample_platform (-18000) " 2025-01-01");
    by vm_compute.
Defined.

Local Open Scope string_scope.

(** X21. Once the credentials, the service and the user's address are
    there, conflicting window arguments fail without the events query:
    a date together with a start or an end, and a start without an end
    or an end without a start, each give the single error entry of their
    message, whatever the query would answer. *)
Theorem conflicting_window_arguments_fail (L : platform) (h : host) (rq : request)
    (u : string) :
  connect h = Ready u →
  (truthy_opt (date_str rq) = true →
   truthy_opt (start_param rq) || truthy_opt (end_param rq) = true →
   fetch_today_events L h rq
   = Some [Failure ("Failed to fetch calendar events: "
                    ++ "Use either --date or --start/--end, not both.")])
  ∧ (truthy_opt (date_str rq) = false →
     truthy_opt (start_param rq) ≠ truthy_opt (end_param rq) →
     fetch_today_events L h rq
     = Some [Failure ("Failed to fetch calendar events: "
                      ++ "Provide both --start and --end when specifying a custom window.")]).
Proof.
  intros Hc. unfold fetch_today_events, fetch_events_for, window, failed. rewrite Hc. split.
  - intros Hd Hse. by rewrite Hd, Hse.
  - intros Hd Hse. rewrite Hd. simpl.
    destruct (truthy_opt (start_param rq)), (truthy_opt (end_param rq)); done.
Qed.

Lemma conflicting_window_arguments_fail_witness :
  fetch_today_events sample_platform host_sample
    {| date_str := Some "2026-03-10"; start_param := Some "2026-03-10"; end_param := None |}
  = Some [Failure ("Failed to fetch calendar events: "
                   ++ "Use either --date or --start/--end, not both.")]
  ∧ fetch_today_events sample_platform host_sample
      {| date_str := None; start_param := Some "2026-03-10"; end_param := None |}
    = Some [Failure ("Failed to fetch calendar events: "
                     ++ "Provide both --start and --end when specifying a custom window.")].
Proof.
  split.
  - by apply (conflicting_window_arguments_fail sample_platform host_sample
                {| date_str := Some "2026-03-10"; start_param := Some "2026-03-10";
                   end_param := None |} "me@example.com").
  - by apply (conflicting_window_arguments_fail sample_platform host_sample
                {| date_str := None; start_param := Some "2026-03-10"; end_param := None |}
                "me@example.com").
Defined.

(** X22. Without arguments the script asks for today: the result is the
    one of [--date] with today's date, and an empty [--date] counts as
    none. *)
Theorem default_window_is_today (L : platform) (h : host) :
  Py.truthy (today h) = true →
  fetch_today_events L h {| date_str := None; start_param := None; end_param := None |}
  = fetch_today_events L h
      {| date_str := Some (today h); start_param := None; end_param := None |}
  ∧ fetch_today_events L h {| date_str := Some ""; start_param := None; end_param := None |}
    = fetch_today_events L h {| date_str := None; start_param := None; end_param := None |}.
Proof.
  intros Ht. unfold fetch_today_events, fetch_events_for, window. simpl. by rewrite Ht.
Qed.

Lemma default_window_is_today_witness :
  fetch_today_events sample_platform host_sample
    {| date_str := None; start_param := None; end_param := None |}
  = fetch_today_events sample_platform host_sample
      {| date_str := Some (today host_sample); start_param := None; end_param := None |}
  ∧ fetch_today_events sample_platform host_sample
      {| date_str := Some ""; start_param := None; end_param := None |}
    = fetch_today_events sample_platform host_sample
        {| date_str := None; start_param := None; end_param := None |}.
Proof. apply (default_window_is_today sample_platform host_sample). by vm_compute. Defined.

End WindowFacts.

Section RoundTrip.
Import Youtube.

Lemma all_chars_absent (p : ascii → bool) (c : ascii) (v : string) :
  all_chars p v = true → p c = false → Py.contains_char c v = false.
Proof.
  intros Hv Hc. induction v as [|d r IH]; simpl in *; [done|].
  apply andb_prop in Hv as [Hd Hr]. destruct (ascii_dec c d) as [->|]; [congruence|auto].
Qed.

Lemma filter_chars_keep (p : ascii → bool) (v : string) :
  all_chars p v = true → Py.filter_chars p v = v.
Proof.
  induction v as [|d r IH]; simpl; [done|]. intros [Hd Hr]%andb_prop.
  by rewrite Hd, IH.
Qed.

Lemma partition_absent (c : ascii) (v : string) :
  Py.contains_char c v = false → Py.partition c v = (v, false, "").
Proof.
  induction v as [|d r IH]; simpl; [done|]. destruct (ascii_dec c d); [done|].
  intros H. by rewrite IH.
Qed.

Lemma split_absent (c : ascii) (v : string) :
  Py.contains_char c v = false → Py.split c v = [v].
Proof.
  induction v as [|d r IH]; simpl; [done|]. destruct (ascii_dec c d); [done|].
  intros H. by rewrite IH.
Qed.

Lemma replace_char_absent (a b : ascii) (v : string) :
  Py.contains_char a v = false → Py.replace_char a b v = v.
Proof.
  induction v as [|d r IH]; simpl; [done|].
  destruct (ascii_dec a d) as [->|Hn]; [done|]. intros H.
  destruct (ascii_dec d a); [congruence|]. by rewrite IH.
Qed.

Lemma drop_0 (v : string) : Py.drop 0 v = v.
Proof. by destruct v. Qed.

Lemma all_chars_impl (p q : ascii → bool) (v : string) :
  (∀ c, p c = true → q c = true) → all_chars p v = true → all_chars q v = true.
Proof.
  intros H. induction v as [|d r IH]; simpl; [done|]. intros [Hd Hr]%andb_prop.
  by rewrite (H d Hd), IH.
Qed.

Lemma id_char_safe (c : ascii) :
  is_id_char c = true → negb (is_unsafe c) = true.
Proof. destruct c as [[] [] [] [] [] [] [] []]; by vm_compute. Qed.


Lemma lstrip_c0_app (c : ascii) (a v : string) :
  is_c0_or_space c = false → lstrip_c0 (String c a ++ v) = String c a ++ v.
Proof. intros H. change (String c a ++ v) with (String c (a ++ v)). simpl. by rewrite H. Qed.

Lemma all_chars_app (p : ascii → bool) (a v : string) :
  all_chars p a = true → all_chars p v = true → all_chars p (a ++ v) = true.
Proof.
  intros Ha Hv. induction a as [|c a IH]; [done|].
  change (String c a ++ v) with (String c (a ++ v)). simpl in *.
  apply andb_prop in Ha as [-> Ha]. by apply IH.
Qed.

Lemma partition_app_found (c : ascii) (a v x y : string) :
  Py.partition c a = (x, true, y) → Py.partition c (a ++ v) = (x, true, y ++ v).
Proof.
  revert x. induction a as [|d a IH]; intros x; [done|].
  change (String d a ++ v) with (String d (a ++ v)). simpl.
  destruct (ascii_dec c d); [by intros [= <- <-]|].
  destruct (Py.partition c a) as [[x' f] y'] eqn:E. intros [= <- -> <-].
  by rewrite (IH x' eq_refl).
Qed.

Lemma contains_char_app (c : ascii) (a v : string) :
  Py.contains_char c (a ++ v) = Py.contains_char c a || Py.contains_char c v.
Proof.
  induction a as [|d a IH]; [done|].
  change (String d a ++ v) with (String d (a ++ v)). simpl.
  by destruct (ascii_dec c d).
Qed.

Lemma startswith_app (p a v : string) :
  Py.startswith p a = true → Py.startswith p (a ++ v) = true.
Proof.
  revert a. induction p as [|c p IH]; intros a; [done|].
  destruct a as [|d a]; [done|].
  change (String d a ++ v) with (String d (a ++ v)). simpl.
  destruct (ascii_dec c d); [apply IH|done].
Qed.

Lemma drop_app (n : N) (a v x : string) :
  Py.drop n a = x → (n <= Py.len a)%N → Py.drop n (a ++ v) = x ++ v.
Proof.
  revert n x. induction a as [|d a IH]; intros n x.
  - simpl. intros <- Hn. unfold Py.len in Hn. simpl in Hn.
    assert (n = 0%N) as -> by lia. change ("" ++ v) with v. by destruct v.
  - change (String d a ++ v) with (String d (a ++ v)). simpl.
    destruct (n =? 0)%N eqn:E; [by intros <-|].
    intros Hx Hn. apply IH; [done|]. apply N.eqb_neq in E. unfold Py.len in *.
    simpl in Hn. lia.
Qed.

Lemma splitnetloc_app (a v n r : string) :
  splitnetloc a = (n, r) → r ≠ "" → splitnetloc (a ++ v) = (n, r ++ v).
Proof.
  revert n. induction a as [|d a IH]; intros n.
  - simpl. by intros [= <- <-].
  - change (String d a ++ v) with (String d (a ++ v)). cbn [splitnetloc].
    destruct (Py.contains_char d "/?#"); [by intros [= <- <-]|].
    destruct (splitnetloc a) as [n' r'] eqn:E. intros [= <- <-] Hr.
    by rewrite (IH n' eq_refl Hr).
Qed.

Lemma split_app_last (c : ascii) (a v : string) (l : list string) (w : string) :
  Py.contains_char c v = false →
  Py.split c a = (l ++ [w])%list → Py.split c (a ++ v) = (l ++ [(w ++ v)%string])%list.
Proof.
  intros Hv. revert l w. induction a as [|d a IH]; intros l w.
  - simpl. destruct l as [|? [|]]; intros [= <-]; try done.
    change ("" ++ v) with v. by apply split_absent.
  - change (String d a ++ v) with (String d (a ++ v)). simpl.
    destruct (ascii_dec c d).
    + destruct l as [|x l]; simpl.
      * intros [= _ H]. by destruct (split_nonempty c a).
      * intros [= <- H]. by rewrite (IH l w H).
    + pose proof (split_nonempty c a) as Hne.
      destruct (Py.split c a) as [|w0 ws] eqn:E; [done|].
      destruct l as [|x l]; simpl.
      * intros [= <- ->]. by rewrite (IH [] w0 eq_refl).
      * intros [= <- H]. by rewrite (IH (w0 :: l) w ltac:(by rewrite H)).
Qed.

Lemma partition_app_absent (c : ascii) (a v : string) :
  Py.contains_char c a = false → Py.contains_char c v = false →
  Py.partition c (a ++ v) = (a ++ v, false, "").
Proof.
  intros Ha Hv. apply partition_absent. by rewrite contains_char_app, Ha, Hv.
Qed.

(** X23. The documented URL shapes give the identifier back: for an
    identifier of letters, digits, hyphens and underscores that
    [unquote] leaves as it is, the watch URL that [get_video_metadata]
    builds, the short URL and the embed URL all yield the identifier, and
    [main] goes on to request its transcript. *)
Theorem documented_urls_give_the_id (L : platform) (v url : string) :
  v ≠ "" →
  all_chars is_id_char v = true →
  unquote L "v" = "v" →
  unquote L v = v →
  url ∈ [md_url (get_video_metadata v); "https://youtu.be/" ++ v;
         "https://www.youtube.com/embed/" ++ v] →
  extract_video_id L url = Returns (Some v)
  ∧ ∀ prog rest, main L (prog :: url :: rest) = Requests v.
Proof.
  intros Hne Hid Hqv Hq Hurl.
  assert (∀ c, is_id_char c = false → Py.contains_char c v = false) as Habs.
  { intros c Hc. by apply (all_chars_absent is_id_char). }
  assert (all_chars (fun c => negb (is_unsafe c)) v = true) as Hsafe.
  { revert Hid. apply all_chars_impl, id_char_safe. }
  assert (Py.truthy v = true) as Ht by (by destruct v).
  assert (urlsplit L ("https://www.youtube.com/watch?v=" ++ v)
          = Some {| scheme := "https"; netloc := "www.youtube.com"; path := "/watch";
                    params := ""; query := "v=" ++ v; fragment := "" |}) as Hwatch.
  { unfold urlsplit.
    rewrite lstrip_c0_app by done.
    rewrite filter_chars_keep by (by apply all_chars_app).
    unfold split_scheme.
    erewrite partition_app_found; [|vm_compute; reflexivity].
    cbv beta iota zeta. repeat eval_if v.
    rewrite startswith_app by done.
    erewrite drop_app; [|vm_compute; reflexivity|by vm_compute].
    erewrite splitnetloc_app; [|vm_compute; reflexivity|done].
    cbv beta iota zeta. repeat eval_if v.
    rewrite partition_app_absent by (by try apply Habs).
    cbv beta iota zeta.
    erewrite partition_app_found; [|vm_compute; reflexivity].
    cbv beta iota zeta. repeat eval_if v. done. }
  assert (extract_video_id L url = Returns (Some v)) as Hid_of; [|split; [done|]].
  2: { intros prog rest. unfold main. by rewrite Hid_of, Ht. }
  unfold get_video_metadata, md_url in Hurl.
  repeat (apply elem_of_cons in Hurl as [->|Hurl]); [| | |by apply elem_of_nil in Hurl].
  - unfold extract_video_id, urlparse. rewrite Hwatch.
    proj. repeat eval_if v. eval_hostname. repeat eval_if v.
    unfold first_v, parse_qsl.
    assert (Py.truthy ("v=" ++ v) = true) as -> by done.
    rewrite (split_absent "&" ("v=" ++ v))
      by (rewrite contains_char_app, Habs by done; done).
    cbn [flat_map].
    erewrite partition_app_found; [|vm_compute; reflexivity].
    change ("" ++ v) with v. rewrite Ht.
    rewrite (replace_char_absent "+" " " v) by (by apply Habs).
    change (Py.replace_char "+" " " "v") with "v". rewrite Hqv, Hq.
    done.
  - assert (urlsplit L ("https://youtu.be/" ++ v)
            = Some {| scheme := "https"; netloc := "youtu.be"; path := "/" ++ v;
                      params := ""; query := ""; fragment := "" |}) as Hshort.
    { unfold urlsplit.
      rewrite lstrip_c0_app by done.
      rewrite filter_chars_keep by (by apply all_chars_app).
      unfold split_scheme.
      erewrite partition_app_found; [|vm_compute; reflexivity].
      cbv beta iota zeta. repeat eval_if v.
      rewrite startswith_app by done.
      erewrite drop_app; [|vm_compute; reflexivity|by vm_compute].
      erewrite splitnetloc_app; [|vm_compute; reflexivity|done].
      cbv beta iota zeta. repeat eval_if v.
      rewrite partition_app_absent by (by try apply Habs).
      cbv beta iota zeta.
      rewrite partition_app_absent by (by try apply Habs).
      cbv beta iota zeta. repeat eval_if v. done. }
    unfold extract_video_id, urlparse. rewrite Hshort. proj.
    rewrite contains_char_app, (Habs ";"%char) by done.
    repeat eval_if v. eval_hostname. repeat eval_if v.
    erewrite drop_app; [|vm_compute; reflexivity|by vm_compute]. done.
  - assert (urlsplit L ("https://www.youtube.com/embed/" ++ v)
            = Some {| scheme := "https"; netloc := "www.youtube.com"; path := "/embed/" ++ v;
                      params := ""; query := ""; fragment := "" |}) as Hembed.
    { unfold urlsplit.
      rewrite lstrip_c0_app by done.
      rewrite filter_chars_keep by (by apply all_chars_app).
      unfold split_scheme.
      erewrite partition_app_found; [|vm_compute; reflexivity].
      cbv beta iota zeta. repeat eval_if v.
      rewrite startswith_app by done.
      erewrite drop_app; [|vm_compute; reflexivity|by vm_compute].
      erewrite splitnetloc_app; [|vm_compute; reflexivity|done].
      cbv beta iota zeta. repeat eval_if v.
      rewrite partition_app_absent by (by try apply Habs).
      cbv beta iota zeta.
      rewrite partition_app_absent by (by try apply Habs).
      cbv beta iota zeta. repeat eval_if v. done. }
    unfold extract_video_id, urlparse. rewrite Hembed. proj.
    rewrite contains_char_app, (Habs ";"%char) by done.
    repeat eval_if v. eval_hostname. repeat eval_if v.
    rewrite bool_decide_eq_false_2 by done.
    rewrite startswith_app by done.
    rewrite (split_app_last "/" "/embed/" v [""; "embed"] "") by (by try apply Habs).
    done.
Qed.

Lemma documented_urls_give_the_id_witness :
  extract_video_id sample_platform "https://youtu.be/dQw4w9WgXcQ" = Returns (Some "dQw4w9WgXcQ")
  ∧ ∀ prog rest, main sample_platform (prog :: "https://youtu.be/dQw4w9WgXcQ" :: rest)
                 = Requests "dQw4w9WgXcQ".
Proof.
  apply (documented_urls_give_the_id sample_platform "dQw4w9WgXcQ"); try by vm_compute.
  set_solver.
Defined.

End RoundTrip.

Section TimestampFacts.
Import Datetime Calendar.

Lemma zpad_no_plus (w : nat) (n : Z) : Py.chars_in (fun c => c ≠ "+"%char) (zpad w n).
Proof.
  induction w as [|w IH]; simpl; [done|]. split; [|done].
  pose proof (Z.mod_pos_bound (n / 10 ^ Z.of_nat w) 10 ltac:(lia)) as Hk.
  set (k := ((n / 10 ^ Z.of_nat w) mod 10)%Z) in *. clearbody k.
  assert (k = 0 ∨ k = 1 ∨ k = 2 ∨ k = 3 ∨ k = 4 ∨ k = 5 ∨ k = 6 ∨ k = 7 ∨ k = 8 ∨ k = 9)%Z
    as Hc by lia.
  destruct Hc as [->|[->|[->|[->|[->|[->|[->|[->|[->| ->]]]]]]]]]; by vm_compute.
Qed.

Lemma replace_offset_suffix (s : string) :
  Py.chars_in (fun c => c ≠ "+"%char) s →
  Py.replace_sub "+00:00" "Z" (s ++ "+00:00") = s ++ "Z".
Proof.
  unfold Py.replace_sub. induction s as [|c r IH]; [by vm_compute|].
  intros [Hc Hr]. change (String c r ++ "+00:00") with (String c (r ++ "+00:00")).
  change (String c r ++ "Z") with (String c (r ++ "Z")).
  cbn [Py.replace_sub_from Py.startswith].
  destruct (ascii_dec "+" c) as [<-|_]; [done|]. by rewrite IH.
Qed.

(** X24. The bounds sent to the calendar are UTC timestamps in the Z
    form: for a value at offset zero, the text is the date, a T, the time
    and the microseconds when there are some, followed by Z in place of
    the offset, and nothing else of the text is touched. *)
Theorem rfc3339_of_utc (d : datetime) :
  tzoffset d = Some 0%Z →
  rfc3339 d
  = iso_date d ++ "T" ++ iso_time d
    ++ (if (microsecond d =? 0)%Z then "" else "." ++ zpad 6 (microsecond d)) ++ "Z".
Proof.
  intros Hoff. unfold rfc3339, isoformat. rewrite Hoff.
  change (iso_offset 0) with "+00:00".
  set (frac := if (microsecond d =? 0)%Z then "" else "." ++ zpad 6 (microsecond d)).
  assert (iso_date d ++ "T" ++ iso_time d ++ frac ++ "+00:00"
          = (iso_date d ++ "T" ++ iso_time d ++ frac) ++ "+00:00") as ->.
  { by rewrite !append_assoc. }
  rewrite replace_offset_suffix; [by rewrite !append_assoc|].
  unfold iso_date, iso_time, frac.
  repeat (apply chars_in_app; [try apply zpad_no_plus; try by vm_compute|]);
    try apply zpad_no_plus.
  destruct (microsecond d =? 0)%Z; [done|].
  apply (chars_in_app _ "."); [by vm_compute|apply zpad_no_plus].
Qed.

Lemma rfc3339_of_utc_witness :
  rfc3339 (mkdt 2025 1 2 4 59 59 999999 (Some 0%Z)) = "2025-01-02T04:59:59.999999Z".
Proof. apply (rfc3339_of_utc (mkdt 2025 1 2 4 59 59 999999 (Some 0%Z))). done. Defined.

(** X25. A failure is reported as the only entry: [main] prints nothing
    exactly when the script ends in [get_credentials]; otherwise
    [total_events] is the length of the list, and the list is either a
    single error entry, whose text starts with the fixed prefix and
    which is counted as one event, or the formatted events of the
    calendar's answer, at most as many as the calendar returned. *)
Theorem failure_is_the_only_entry (L : platform) (h : host) (rq : request) :
  (main L h rq = None ↔ connect h = Exits)
  ∧ ∀ o, main L h rq = Some o →
      total_events o = length (out_events o)
      ∧ ((∃ msg, out_events o = [Failure ("Failed to fetch calendar events: " ++ msg)]
                 ∧ total_events o = 1%nat)
         ∨ (∃ u s e evs out, connect h = Ready u
              ∧ window L h rq = inr (s, e)
              ∧ list_events h (rfc3339 s) (rfc3339 e) = inr evs
              ∧ filter_events L u (now h) evs = Some out
              ∧ out_events o = map Event out
              ∧ (total_events o ≤ length evs)%nat)).
Proof.
  unfold main, fetch_today_events. split.
  - destruct (connect h); simpl; split; done.
  - intros o. destruct (connect h) as [|msg|u] eqn:Hc; simpl; [done| |].
    + intros [= <-]. simpl. split; [done|]. left. by exists msg.
    + intros [= <-]. simpl. split; [done|]. unfold fetch_events_for, failed.
      destruct (window L h rq) as [msg|[s e]]; [left; by exists msg|].
      destruct (list_events h (rfc3339 s) (rfc3339 e)) as [msg|evs] eqn:E;
        [left; by exists msg|].
      destruct (filter_events L u (now h) evs) as [out|] eqn:Hf;
        [|left; by exists "date value out of range"].
      right. exists u, s, e, evs, out. split_and!; try done.
      rewrite length_map. clear E. revert out Hf.
      induction evs as [|ev rest IH]; intros out; simpl; [by intros [= <-]|].
      destruct (process_event L u (now h) ev); [| |done].
      * intros Hr. specialize (IH out Hr). lia.
      * destruct (filter_events L u (now h) rest) as [out'|]; [|done].
        intros [= <-]. specialize (IH out' eq_refl). simpl. lia.
Qed.

End TimestampFacts.

Section BodyFacts.
Import Ingest.




(** A message whose only part with text is an attachment falls back to
    its own text, which the message without the attachment does not
    have. *)
Example raw_body_holds_the_attachment :
  body_from_email (fun s => s) mail_attached
  = Some ("Content-Type: multipart/mixed; notes.txt", "raw")
  ∧ body_from_email (fun s => s)
      {| is_multipart := true;
         walk := filter (fun p => p_disposition p ≠ Some "attachment") (walk mail_attached);
         self := self mail_attached;
         as_string := "Content-Type: multipart/mixed" |}
    = Some ("Content-Type: multipart/mixed", "raw").
Proof. split; by vm_compute. Qed.

Lemma stripped_head (y : string) :
  Py.strip y = y → y ≠ "" → ∃ c r, y = String c r ∧ Py.isspace c = false.
Proof.
  intros Hy Hne. unfold Py.strip in Hy.
  destruct (lstrip_shape y) as [E|(c & r & E & Hc)]; rewrite E in Hy.
  - by subst.
  - destruct (rstrip_head c r Hc) as [r' Hr]. rewrite Hr in Hy. by exists c, r'.
Qed.

Lemma joined_nonempty (l : list string) (x : string) :
  (∀ y, y ∈ l → Py.strip y = y) → x ∈ l → x ≠ "" → joined l ≠ "".
Proof.
  intros Hl Hx Hne. unfold joined.
  assert (x ∈ filter (fun y => Py.truthy y = true) l) as Hin.
  { apply list_elem_of_filter. split; [by destruct x|done]. }
  destruct (filter (fun y => Py.truthy y = true) l) as [|y ys] eqn:E;
    [by apply elem_of_nil in Hin|].
  assert (y ∈ filter (fun y => Py.truthy y = true) l) as Hy by (rewrite E; left).
  apply list_elem_of_filter in Hy as [Hty Hyl].
  destruct (stripped_head y (Hl y Hyl)) as (c & r & -> & Hc); [by intros ->|].
  destruct (join_head (Py.NL ++ Py.NL) c r ys) as [r' ->].
  unfold Py.strip. simpl Py.lstrip. rewrite Hc.
  destruct (rstrip_head c r' Hc) as [r'' ->]. done.
Qed.

Lemma collect_plain (parts : list part) (tp th tp' th' : list string) :
  collect parts tp th = Some (tp', th') →
  (∀ y, y ∈ tp → Py.strip y = y) →
  (∀ y, y ∈ tp' → Py.strip y = y)
  ∧ (∀ y, y ∈ tp → y ∈ tp')
  ∧ (∀ p s, p ∈ parts → p_disposition p ≠ Some "attachment" → p_type p = "text/plain" →
            part_text p = Some s → Py.strip s ∈ tp').
Proof.
  revert tp th. induction parts as [|p rest IH]; intros tp th.
  - simpl. intros [= <- <-] Htp. split_and!; [done|done|].
    intros p s Hp. by apply elem_of_nil in Hp.
  - cbn [collect]. intros Hc Htp.
    assert (∀ tp1 th1, collect rest tp1 th1 = Some (tp', th') →
              (∀ y, y ∈ tp1 → Py.strip y = y) → (∀ y, y ∈ tp → y ∈ tp1) →
              (p_disposition p ≠ Some "attachment" → p_type p = "text/plain" →
               ∀ s, part_text p = Some s → Py.strip s ∈ tp1) →
              (∀ y, y ∈ tp' → Py.strip y = y)
              ∧ (∀ y, y ∈ tp → y ∈ tp')
              ∧ (∀ p0 s, p0 ∈ p :: rest → p_disposition p0 ≠ Some "attachment" →
                         p_type p0 = "text/plain" → part_text p0 = Some s →
                         Py.strip s ∈ tp')) as Hstep.
    { intros tp1 th1 Hc1 H1 Hsub Hp.
      destruct (IH tp1 th1 Hc1 H1) as (G1 & G2 & G3). split_and!; [done|by auto|].
      intros p0 s [->|Hin]%elem_of_cons Hd Ht Hs; [|by eauto].
      apply G2. by apply Hp. }
    case_bool_decide as Hd; [by apply (Hstep tp th)|].
    case_bool_decide as Ht.
    + destruct (part_text p) as [s|] eqn:Es; [|done].
      apply (Hstep _ _ Hc).
      * intros y [Hy|Hy%list_elem_of_singleton]%elem_of_app; [by auto|].
        subst. apply strip_idem.
      * intros y Hy. apply elem_of_app. by left.
      * intros _ _ s' [= <-]. apply elem_of_app. right. by left.
    + case_bool_decide as Hh.
      * destruct (part_text p) as [s|] eqn:Es; [|done]. by apply (Hstep _ _ Hc).
      * by apply (Hstep _ _ Hc).
Qed.

(** X27. Plain text wins: when a multipart message that can be read has a
    text/plain part outside the attachments whose text is not blank, the
    body is the joined plain text, stripped and not empty, and the HTML
    converter has no part in it. *)
Theorem plain_text_wins (q1 q2 : string → string) (m : mail) (p : part) (s : string) :
  is_multipart m = true →
  body_from_email q1 m ≠ None →
  p ∈ walk m →
  p_disposition p ≠ Some "attachment" →
  p_type p = "text/plain" →
  part_text p = Some s →
  Py.strip s ≠ "" →
  ∃ b, body_from_email q1 m = Some (b, "plain")
       ∧ b ≠ "" ∧ Py.strip b = b
       ∧ body_from_email q2 m = Some (b, "plain").
Proof.
  intros Hm Hok Hp Hd Ht Hs Hne. unfold body_from_email in *. rewrite Hm in *.
  destruct (collect (walk m) [] []) as [[tp th]|] eqn:Hc; [|done].
  destruct (collect_plain _ _ _ _ _ Hc) as (G1 & _ & G3).
  { intros y Hy. by apply elem_of_nil in Hy. }
  assert (joined tp ≠ "") as Hj.
  { apply (joined_nonempty tp (Py.strip s)); [done| |done]. by apply (G3 p s). }
  assert (Py.truthy (joined tp) = true) as -> by (by destruct (joined tp)).
  exists (joined tp). split_and!; [done|done| |done].
  unfold joined. apply strip_idem.
Qed.

Lemma plain_text_wins_witness :
  ∃ b, body_from_email (fun s => s) mail_sample = Some (b, "plain")
       ∧ b ≠ "" ∧ Py.strip b = b
       ∧ body_from_email (fun _ => "") mail_sample = Some (b, "plain").
Proof.
  apply (plain_text_wins (fun s => s) (fun _ => "") mail_sample
           (part_sample None "text/plain" " See you at ten. ") " See you at ten. ");
    try by vm_compute.
  set_solver.
Defined.

End BodyFacts.

Section ScanFacts.
Import Datetime Json Labels Ingest.

Lemma scan_note_reports (w : world) (P : string → Prop) (found : index) (md : string) :
  (is_Some (files w !! md) → P md) →
  (∀ k p, by_gm_msgid found !! k = Some p ∨ by_message_id found !! k = Some p → P p) →
  ∀ k p, by_gm_msgid (scan_note w found md) !! k = Some p
         ∨ by_message_id (scan_note w found md) !! k = Some p → P p.
Proof.
  intros Hmd Hfound k p. unfold scan_note, extract_ids_from_file_head.
  destruct (files w !! md) as [text|] eqn:E.
  - specialize (Hmd ltac:(by eexists)).
    destruct (option_map Py.strip _) as [m|]; [destruct (Py.truthy m)|];
      destruct (truthy_id _) as [g|]; simpl;
      rewrite ?lookup_insert_Some; naive_solver.
  - simpl. apply Hfound.
Qed.

Lemma scan_notes_report (w : world) (P : string → Prop) (mds : list string) (found : index) :
  (∀ md, md ∈ mds → is_Some (files w !! md) → P md) →
  (∀ k p, by_gm_msgid found !! k = Some p ∨ by_message_id found !! k = Some p → P p) →
  ∀ k p, by_gm_msgid (fold_left (scan_note w) mds found) !! k = Some p
         ∨ by_message_id (fold_left (scan_note w) mds found) !! k = Some p → P p.
Proof.
  revert found. induction mds as [|md rest IH]; intros found Hmds Hfound; [done|].
  simpl. apply IH.
  - intros md' Hin. apply Hmds. by right.
  - apply scan_note_reports; [|done]. apply Hmds. by left.
Qed.

(** X28. The scan reports only notes it has listed: every location in
    the index that [scan_recent_for_existing] returns is the path of a
    stored note found under the directory of this year or of one of the
    two years before. *)
Theorem scan_reports_listed_notes (L : platform) (vault_root : string) (now_y : Z) (w : world)
    (k p : string) :
  by_gm_msgid (scan_recent_for_existing L vault_root now_y w) !! k = Some p
  ∨ by_message_id (scan_recent_for_existing L vault_root now_y w) !! k = Some p →
  is_Some (files w !! p)
  ∧ ∃ y, (now_y - 2 <= y <= now_y)%Z
         ∧ p ∈ rglob_md L (files w)
                 (path_join (path_join vault_root EMAILS_DIR) (str_of_Z y)).
Proof.
  unfold scan_recent_for_existing. cbn [fold_left].
  set (base := path_join vault_root EMAILS_DIR).
  set (P := fun p => is_Some (files w !! p)
                     ∧ ∃ y, (now_y - 2 <= y <= now_y)%Z
                            ∧ p ∈ rglob_md L (files w) (path_join base (str_of_Z y))).
  assert (∀ y, (now_y - 2 <= y <= now_y)%Z →
            ∀ md, md ∈ rglob_md L (files w) (path_join base (str_of_Z y)) →
                  is_Some (files w !! md) → P md) as Hy.
  { intros y Hr md Hin Hsome. split; [done|]. by exists y. }
  revert k p. change (∀ k p, ?A k p ∨ ?B k p → is_Some (files w !! p) ∧ _)
    with (∀ k p, A k p ∨ B k p → P p).
  apply scan_notes_report; [apply Hy; lia|].
  apply scan_notes_report; [apply Hy; lia|].
  apply scan_notes_report; [apply Hy; lia|].
  intros k p [H|H]; unfold empty_index in H; simpl in H; by rewrite lookup_empty in H.
Qed.

Lemma scan_reports_listed_notes_witness :
  is_Some (files world_after_first_run !! "/vault/Emails/2026/Q126/weekly-sync-567890.md")
  ∧ ∃ y, (2026 - 2 <= y <= 2026)%Z
         ∧ "/vault/Emails/2026/Q126/weekly-sync-567890.md"
           ∈ rglob_md sample_platform (files world_after_first_run)
               (path_join (path_join "/vault" EMAILS_DIR) (str_of_Z y)).
Proof.
  apply (scan_reports_listed_notes sample_platform "/vault" 2026 world_after_first_run
           "1234567890").
  left. by vm_compute.
Defined.

End ScanFacts.

Section DatetimeParamFacts.
Import Datetime Calendar.

(** X29. A full date-time bound keeps its instant: for a value holding a
    T, whenever [parse_datetime_param] returns, the result is in UTC and
    denotes the instant of the value read by [fromisoformat] (with every
    Z replaced by +00:00), taken at the local offset when it carries
    none; and it does not depend on whether the bound is the start or
    the end. *)
Theorem datetime_bound_keeps_the_instant (L : platform) (off : Z) (value : string)
    (is_start : bool) (u : datetime) :
  has_T (Py.strip value) = true →
  parse_datetime_param L off value is_start = Utc u →
  tzoffset u = Some 0%Z
  ∧ (∃ d, fromisoformat L (Py.replace_char_by "Z" "+00:00" (Py.strip value)) = Some d
          ∧ instant 0 u = instant off d)
  ∧ parse_datetime_param L off value (negb is_start) = Utc u.
Proof.
  intros HT. unfold parse_datetime_param. rewrite HT. simpl.
  destruct (fromisoformat L _) as [d|]; [|done].
  destruct (to_utc _) as [u'|] eqn:Eu; [|done]. intros [= <-].
  apply to_utc_instant in Eu as [H1 H2]. split_and!; [done| |done].
  exists d. split; [done|]. rewrite H2.
  destruct (tzoffset d) eqn:E; unfold instant; simpl; by rewrite ?E.
Qed.

Lemma datetime_bound_keeps_the_instant_witness :
  tzoffset (mkdt 2025 11 6 14 0 0 0 (Some 0%Z)) = Some 0%Z
  ∧ (∃ d, fromisoformat sample_platform
            (Py.replace_char_by "Z" "+00:00" (Py.strip "2025-11-06T09:00:00-05:00")) = Some d
          ∧ instant 0 (mkdt 2025 11 6 14 0 0 0 (Some 0%Z)) = instant 7200 d)
  ∧ parse_datetime_param sample_platform 7200 "2025-11-06T09:00:00-05:00" (negb true)
    = Utc (mkdt 2025 11 6 14 0 0 0 (Some 0%Z)).
Proof.
  apply (datetime_bound_keeps_the_instant sample_platform 7200 "2025-11-06T09:00:00-05:00" true);
    by vm_compute.
Defined.

End DatetimeParamFacts.
